(** * SafePM: the vulnerability-gated install / scan workflow

    A shallow embedding of the two command-line entry points of the
    repository:

    - [src/unnamed/part_000]: the CLI with the [--scan] option, the
      interactive prompts and [processVulnerabilityReport] (module [Cli]);
    - [src/index.js]: the CLI that aborts on its own as soon as a
      vulnerability is found (module [IndexJs]).

    The helper functions [extractPkgNames], [fetchPackageVersions] and
    [vulnsCheck] are the same in both files and are embedded once.

    Everything outside the process (package.json, the registry, the OSV
    endpoint, the operator, the npm child processes) is a field of the
    record [world]; a run of the program is a pure function of the world,
    returning the ordered list of the effects it performed and the way the
    run ended.

    The values that come from outside are untyped: package.json, the
    output of [npm view] and the body of the oracle's answer are arbitrary
    JSON values, and the program's reads, calls and conversions to text are
    embedded with what JavaScript does on each kind of value, the
    [TypeError]s included.

    What the model leaves out: JSON numbers that are not integers or that
    JavaScript does not print in plain digits, text outside Latin-1 (a
    character of a string stands for one UTF-16 code unit), a child process
    that cannot be started, and what node does with an uncaught
    exception. *)

From Stdlib Require Import String Ascii List ZArith NArith Bool Lia PeanoNat.
From Stdlib Require Import Decimal DecimalString Permutation.
Import ListNotations.
Local Open Scope string_scope.
Local Open Scope list_scope.

(** ** JavaScript values parsed from JSON *)

#[local] Set Warnings "-register-all".

(** The value of [JSON.parse].  An object is given by its members in the
    order of the text; of a key written twice [JSON.parse] keeps the place
    of the first member and the value of the last. *)
Inductive json : Type :=
| JNull
| JBool (b : bool)
| JNum (n : Z)
| JStr (s : string)
| JArr (items : list json)
| JObj (members : list (string * json)).

(** A JavaScript value is a JSON value or [undefined] ([None]). *)
Definition jsval : Type := option json.

(** ToBoolean: [undefined], [null], [false], [0] and [""] are falsy; every
    array and every object is truthy, the empty array included. *)
Definition truthy (v : jsval) : bool :=
  match v with
  | None => false
  | Some JNull => false
  | Some (JBool b) => b
  | Some (JNum n) => negb (n =? 0)%Z
  | Some (JStr s) => negb (s =? "")
  | Some (JArr _) => true
  | Some (JObj _) => true
  end.

(** The value of the last member with key [k]. *)
Fixpoint assoc (k : string) (ms : list (string * json)) : jsval :=
  match ms with
  | [] => None
  | (k', v) :: rest =>
      match assoc k rest with
      | Some v' => Some v'
      | None => if k =? k' then Some v else None
      end
  end.

(** [v.k] for a value [v] that is neither [null] nor [undefined] and a key
    [k] that is not a property of the built-in prototypes (the program reads
    [dependencies], [devDependencies], [name], [version], [results], [vulns],
    [database_specific], [severity], [summary] and [id] this way): the own
    property of an object, [undefined] on anything else.  The same function
    gives the field [k] of the object spread [{...v}], [k] not being an
    array index. *)
Definition own (v : json) (k : string) : jsval :=
  match v with
  | JObj ms => assoc k ms
  | _ => None
  end.

(** ** Strings *)

Fixpoint drop (n : nat) (s : string) : string :=
  match n, s with
  | O, _ => s
  | S n', String _ s' => drop n' s'
  | S _, EmptyString => EmptyString
  end.

(** [s.replace(pat, '')] for a string pattern: the first occurrence of
    [pat] in [s], wherever it is, is removed; later ones are kept. *)
Fixpoint replace_first (pat s : string) : string :=
  if prefix pat s then drop (String.length pat) s
  else match s with
       | EmptyString => EmptyString
       | String c s' => String c (replace_first pat s')
       end.

(** Number::toString of an integer. *)
Definition decimal (n : Z) : string := NilZero.string_of_int (Z.to_int n).

Definition has_key (k : string) (ms : list (string * json)) : bool :=
  existsb (fun m => k =? fst m) ms.

(** ToString, as applied by a template literal, by [Array.prototype.join]
    and by chalk (['' + x]), on a value of [JSON.parse]; [None] is the
    [TypeError] "Cannot convert object to primitive value".  An array is
    joined with commas, [null] elements giving the empty text.  An object is
    "[object Object]" unless it has a member named [toString]: no JSON value
    is callable, so neither [toString] nor the inherited [valueOf] yields a
    primitive. *)
Fixpoint to_text (v : json) : option string :=
  match v with
  | JNull => Some "null"
  | JBool b => Some (if b then "true" else "false")
  | JNum n => Some (decimal n)
  | JStr s => Some s
  | JArr items =>
      option_map (String.concat ",")
        ((fix each (xs : list json) : option (list string) :=
            match xs with
            | [] => Some []
            | x :: rest =>
                match match x with JNull => Some "" | _ => to_text x end, each rest with
                | Some s, Some ss => Some (s :: ss)
                | _, _ => None
                end
            end) items)
  | JObj ms => if has_key "toString" ms then None else Some "[object Object]"
  end.

(** ToString of a value that can be [undefined]. *)
Definition text_of (v : jsval) : option string :=
  match v with
  | None => Some "undefined"
  | Some j => to_text j
  end.

(** The text of one element in [xs.join(sep)]: empty for [undefined] and
    [null]. *)
Definition join_item (v : jsval) : option string :=
  match v with
  | None => Some ""
  | Some JNull => Some ""
  | Some j => to_text j
  end.

Fixpoint join_items (xs : list jsval) : option (list string) :=
  match xs with
  | [] => Some []
  | x :: rest =>
      match join_item x, join_items rest with
      | Some s, Some ss => Some (s :: ss)
      | _, _ => None
      end
  end.

(** [xs.join(sep)] *)
Definition join_text (sep : string) (xs : list jsval) : option string :=
  option_map (String.concat sep) (join_items xs).

(** ** Property order *)

(** The key of the element [i] of an array or a string. *)
Definition index_key (i : nat) : string := NilZero.string_of_uint (Nat.to_uint i).

(** The array index that a key is, if it is one: a canonical decimal
    numeral below 2^32 - 1. *)
Definition array_index (k : string) : option N :=
  match NilEmpty.uint_of_string k with
  | Some d =>
      let n := N.of_uint d in
      if (NilZero.string_of_uint (N.to_uint n) =? k) && (n <? 4294967295)%N
      then Some n else None
  | None => None
  end.

Definition is_index (m : string * json) : bool :=
  match array_index (fst m) with
  | Some _ => true
  | None => false
  end.

Fixpoint insert_index (m : string * json) (sorted : list (string * json))
  : list (string * json) :=
  match sorted with
  | [] => [m]
  | m' :: rest =>
      match array_index (fst m), array_index (fst m') with
      | Some i, Some i' => if (i <? i')%N then m :: sorted else m' :: insert_index m rest
      | _, _ => m :: sorted
      end
  end.

Fixpoint sort_indices (ms : list (string * json)) : list (string * json) :=
  match ms with
  | [] => []
  | m :: rest => insert_index m (sort_indices rest)
  end.

(** The own properties of an object in the order in which JavaScript lists
    them ([Object.entries], spread): the array indices in ascending order,
    then the other keys in the order of their creation.  [props] is the
    list of the properties in creation order, no key twice. *)
Definition own_property_order (props : list (string * json)) : list (string * json) :=
  sort_indices (filter is_index props) ++ filter (fun m => negb (is_index m)) props.

(** [o[k] = v] on the list of the properties of [o] in creation order: an
    existing key keeps its place and takes the new value, a new key goes to
    the end. *)
Fixpoint obj_set (k : string) (v : json) (o : list (string * json))
  : list (string * json) :=
  match o with
  | [] => [(k, v)]
  | (k', v') :: rest => if k =? k' then (k, v) :: rest else (k', v') :: obj_set k v rest
  end.

(** The properties created, in order, by defining the members [ms] one
    after the other on an object that has the properties [o]. *)
Definition define_all (ms o : list (string * json)) : list (string * json) :=
  fold_left (fun acc m => obj_set (fst m) (snd m) acc) ms o.

(** [Object.entries] of the object parsed from the members [ms]. *)
Definition entries (ms : list (string * json)) : list (string * json) :=
  own_property_order (define_all ms []).

(** [xs.map((x, i) => f(i, x))], counting from [i]. *)
Fixpoint mapi_from {A B} (i : nat) (f : nat -> A -> B) (xs : list A) : list B :=
  match xs with
  | [] => []
  | x :: rest => f i x :: mapi_from (S i) f rest
  end.

Definition mapi {A B} (f : nat -> A -> B) (xs : list A) : list B :=
  mapi_from 0 f xs.

(** The own enumerable properties that [{...v}] copies, in order: those of
    an object, the elements of an array, the characters of a string, and
    nothing for [undefined], [null], a number or a boolean. *)
Definition spread_source (v : jsval) : list (string * json) :=
  match v with
  | Some (JObj ms) => entries ms
  | Some (JArr items) => mapi (fun i x => (index_key i, x)) items
  | Some (JStr s) =>
      mapi (fun i c => (index_key i, JStr (String c ""))) (list_ascii_of_string s)
  | _ => []
  end.

(** [{...a, ...b}], as the list of its properties in creation order. *)
Definition spread (a b : jsval) : list (string * json) :=
  define_all (spread_source b) (define_all (spread_source a) []).

(** ** Data model *)

(** A candidate, [{ name, version }].  The fields hold whatever was found
    in package.json or in the output of [npm view]: a string in the expected
    case, any other JSON value or [undefined] otherwise. *)
Record PackageRef : Type := mkPackageRef { name : jsval; version : jsval }.

(** One element of the [queries] array posted to the OSV endpoint;
    [JSON.stringify] leaves out a [name] that is [undefined]. *)
Record query : Type := mkQuery {
  q_version : string;
  q_name : jsval;
  q_ecosystem : string
}.

(** The result of [fetch]: the promise rejects (network-level failure) or
    resolves to a response with a status and a body; [body = None] is a body
    that [response.json()] cannot parse. *)
Inductive fetch_result : Type :=
| FetchRejected
| Response (status : Z) (body : option json).

(** [response.ok]: the status is in the range 200-299. *)
Definition response_ok (status : Z) : bool :=
  ((200 <=? status) && (status <=? 299))%Z.

Inductive prompt : Type := ScanPrompt | InstallPrompt.

(** Which entry of a two-choice [select] the operator picks. *)
Inductive pick : Type := First | Second.

(** The child started by [spawn("npm", ["install", ...])]: the code passed
    to its [close] listener (a child killed by a signal closes with [null],
    which the listener treats like any code other than 0) and, when its
    stderr matches ['(.+?)'\s+is not in this registry], the captured package
    name. *)
Record child : Type := mkChild { close_code : Z; not_found : option string }.

(** Everything outside the process. *)
Record world : Type := mkWorld {
  (** package.json of the working directory as [JSON.parse] reads it;
      [None] when the file cannot be read or is not JSON. *)
  package_json : option json;
  (** [npm view <arg> name version --json]: what the command prints, as
      [JSON.parse] reads it; [None] when the command fails or prints no
      JSON. *)
  npm_view : string -> option json;
  (** the OSV endpoint *)
  osv : list query -> fetch_result;
  (** the operator in front of a prompt; [None]: the prompt is closed
      without an answer and [select] rejects *)
  operator : prompt -> option pick;
  (** does the shell command [npm uninstall ...] succeed *)
  npm_uninstall : string -> bool;
  (** the npm install child process *)
  npm_install : list string -> child
}.

(** ** Effects *)

Inductive error : Type :=
| ReadError
| NetworkError
| HttpError (status : Z)
| SyntaxError
| TypeError
| ExecError
| PromptClosed.

Inductive badge : Type := BgRedWhiteBold | Red | Yellow | Blue | White.

(** Spinner texts. *)
Inductive msg : Type :=
| Preparing
| PreparingPackageList
| ReadingPackageJson
| FetchingVersions (n : nat)
| FetchingLatestVersions (n : nat)
| NoPackagesFound
| PreparedList (n : nat)
| PackageListPrepared
| CheckingVulns
| ApiError
| FoundVulns (n : nat)
| NoKnownVulns
| Uninstalling (n : nat)
| Uninstalled (names : string)
| UninstallFailed.

(** Lines written with [console.log]; the arguments are the texts put into
    the line. *)
Inductive line : Type :=
| PackageHeader (pkg : string)
| VulnLine (b : badge) (severity : string) (summary : string)
| IdLine (id : string)
| IssueCount (pkg : string) (count : string)
| Aborting
| AbortingInstallation
| ScanComplete
| HandingOver
| InstallSuccess
| PackagesLine (names : string)
| InstallFailed
| CouldNotFind (pkg : string).

Inductive event : Type :=
| SpinnerStart (m : msg)
| SpinnerText (m : msg)
| SpinnerSucceed (m : msg)
| SpinnerFail (m : msg)
| SpinnerWarn (m : msg)
| ConsoleLog (l : line)
| ConsoleError (e : error)
| ReadManifest
| Exec (cmd : string)
| Fetch (queries : list query)
| Select (p : prompt) (answer : option string)
| Spawn (cmd : string) (args : list string).

(** How a computation ends: with a value, in [process.exit(code)], or with
    an exception. *)
Inductive outcome (A : Type) : Type :=
| Ret (a : A)
| Exit (code : Z)
| Throw (e : error).
Arguments Ret {A} a.
Arguments Exit {A} code.
Arguments Throw {A} e.

(** A computation: the effects performed, in order, and the outcome. *)
Definition M (A : Type) : Type := (list event * outcome A)%type.

Definition ret {A} (a : A) : M A := ([], Ret a).
Definition emit (e : event) : M unit := ([e], Ret tt).
Definition exit {A} (code : Z) : M A := ([], Exit code).
Definition throw {A} (e : error) : M A := ([], Throw e).

Definition bind {A B} (m : M A) (f : A -> M B) : M B :=
  match m with
  | (t, Ret a) => let (t', o) := f a in (t ++ t', o)
  | (t, Exit c) => (t, Exit c)
  | (t, Throw e) => (t, Throw e)
  end.

(** [try { m } catch (e) { h e }]; [process.exit] is not caught. *)
Definition catch {A} (m : M A) (h : error -> M A) : M A :=
  match m with
  | (t, Throw e) => let (t', o) := h e in (t ++ t', o)
  | _ => m
  end.

Declare Scope js_scope.
Delimit Scope js_scope with js.
Notation "x <- c1 ;; c2" := (bind c1 (fun x => c2))
  (at level 61, c1 at next level, right associativity) : js_scope.
Notation "c1 ;; c2" := (bind c1 (fun _ => c2))
  (at level 61, right associativity) : js_scope.
Local Open Scope js_scope.

Definition trace {A} (m : M A) : list event := fst m.
Definition result {A} (m : M A) : outcome A := snd m.

(** [xs.forEach(f)] *)
Fixpoint forEach {A} (f : A -> M unit) (xs : list A) : M unit :=
  match xs with
  | [] => ret tt
  | x :: rest => f x ;; forEach f rest
  end.

Fixpoint keep_some {A} (xs : list (option A)) : list A :=
  match xs with
  | [] => []
  | Some x :: rest => x :: keep_some rest
  | None :: rest => keep_some rest
  end.

(** [xs.map(f)] for an [f] with effects. *)
Fixpoint mapM {A B} (f : A -> M B) (xs : list A) : M (list B) :=
  match xs with
  | [] => ret []
  | x :: rest => y <- f x ;; ys <- mapM f rest ;; ret (y :: ys)
  end.

(** The conversion of a value to text where the program puts it into a
    template literal or hands it to chalk. *)
Definition toString (v : jsval) : M string :=
  match text_of v with
  | Some s => ret s
  | None => throw TypeError
  end.

(** [xs.join(sep)] *)
Definition join (sep : string) (xs : list jsval) : M string :=
  match join_text sep xs with
  | Some s => ret s
  | None => throw TypeError
  end.

(** ** Helper functions shared by the two entry points *)

(** [fs.readFile] followed by [JSON.parse]. *)
Definition read_manifest (w : world) : M json :=
  emit ReadManifest ;;
  match package_json w with
  | Some data => ret data
  | None => throw ReadError
  end.

(** [json.k] for the parsed file: a [TypeError] on [null]. *)
Definition get (json : json) (k : string) : M jsval :=
  match json with
  | JNull => throw TypeError
  | _ => ret (own json k)
  end.

(** The entries of [{ ...json.dependencies, ...json.devDependencies }] as
    candidates; [[]] when anything is thrown on the way. *)
Definition extractPkgNames (w : world) : M (list PackageRef) :=
  catch
    (json <- read_manifest w ;;
     dependencies <- get json "dependencies" ;;
     devDependencies <- get json "devDependencies" ;;
     let deps := spread dependencies devDependencies in
     ret (map (fun kv => {| name := Some (JStr (fst kv)); version := Some (snd kv) |})
              (own_property_order deps)))
    (fun _ => ret []).

Definition view_cmd (rawArg : string) : string :=
  "npm view " ++ rawArg ++ " name version --json".

(** [exec] of [npm view] followed by [JSON.parse] of its output. *)
Definition exec_view (w : world) (rawArg : string) : M json :=
  emit (Exec (view_cmd rawArg)) ;;
  match npm_view w rawArg with
  | Some info => ret info
  | None => throw ExecError
  end.

(** The callback of [pkgNames.map]: [null] when anything is thrown. *)
Definition resolve_arg (w : world) (rawArg : string) : M (option PackageRef) :=
  catch
    (info <- exec_view w rawArg ;;
     name <- get info "name" ;;
     version <- get info "version" ;;
     ret (Some {| name := name; version := version |}))
    (fun _ => ret None).

(** One [npm view] per argument, started in argument order; the arguments
    that do not resolve are dropped from the result. *)
Definition fetchPackageVersions (w : world) (pkgNames : list string)
  : M (list PackageRef) :=
  results <- mapM (resolve_arg w) pkgNames ;;
  ret (keep_some results).

(** [version.replace('^', '').replace('~', '')] on a string. *)
Definition strip_range (version : string) : string :=
  replace_first "~" (replace_first "^" version).

(** The callback of [pkgList.map]: calling [replace] on a version that is
    not a string is a [TypeError]. *)
Definition to_query (p : PackageRef) : M query :=
  match version p with
  | Some (JStr v) =>
      ret {| q_version := strip_range v; q_name := name p; q_ecosystem := "npm" |}
  | _ => throw TypeError
  end.

(** [await fetch(...)] followed by the two steps that can throw. *)
Definition fetch_json (w : world) (queries : list query) : M json :=
  emit (Fetch queries) ;;
  match osv w queries with
  | FetchRejected => throw NetworkError
  | Response status body =>
      if negb (response_ok status) then throw (HttpError status)
      else match body with
           | Some data => ret data
           | None => throw SyntaxError
           end
  end.

(** The oracle client: whatever is thrown inside the [try] becomes [null]. *)
Definition vulnsCheck (w : world) (pkgList : list PackageRef) : M json :=
  catch
    (queries <- mapM to_query pkgList ;;
     fetch_json w queries)
    (fun _ => ret JNull).

(** ** The report: shared pieces *)

(** One element of [vulnResults.results.map((r, i) => ({ ...r, originalPkg:
    packagesToCheck[i] }))]: of the spread object only [vulns] and
    [originalPkg] are read afterwards.  [packagesToCheck[i]] is [undefined]
    when [i] is past the end of the candidate list. *)
Record entry : Type := mkEntry { vulns : jsval; originalPkg : option PackageRef }.

Definition attach (packagesToCheck : list PackageRef) (i : nat) (r : json) : entry :=
  {| vulns := own r "vulns"; originalPkg := nth_error packagesToCheck i |}.

(** [results.map(...).filter(r => r.vulns)] *)
Definition foundVulns (results : list json) (packagesToCheck : list PackageRef)
  : list entry :=
  filter (fun r => truthy (vulns r)) (mapi (attach packagesToCheck) results).

(** A method of arrays ([map], [forEach]) called on a value: a [TypeError]
    unless the value is an array. *)
Definition as_array (v : jsval) : M (list json) :=
  match v with
  | Some (JArr items) => ret items
  | _ => throw TypeError
  end.

(** [v.originalPkg.name]: a [TypeError] when [originalPkg] is [undefined]. *)
Definition originalPkg_name (v : entry) : M jsval :=
  match originalPkg v with
  | Some p => ret (name p)
  | None => throw TypeError
  end.

(** [v || d] *)
Definition or_else (v : jsval) (d : json) : json :=
  match v with
  | Some j => if truthy v then j else d
  | None => d
  end.

(** [x?.k] *)
Definition opt_chain (x : jsval) (k : string) : jsval :=
  match x with
  | None => None
  | Some JNull => None
  | Some j => own j k
  end.

Definition severityColor (severity : json) : badge :=
  match severity with
  | JStr s =>
      if s =? "CRITICAL" then BgRedWhiteBold
      else if s =? "HIGH" then Red
      else if s =? "MODERATE" then Yellow
      else if s =? "LOW" then Blue
      else White
  | _ => White
  end.

(** The [close] listener of the child, the same in both files.  The names
    are joined before anything is printed, on a default install as well. *)
Definition on_close (c : child) (isDefaultInstall : bool)
  (packagesToCheck : list PackageRef) : M unit :=
  if (close_code c =? 0)%Z then
    names <- join ", " (map name packagesToCheck) ;;
    emit (ConsoleLog InstallSuccess) ;;
    if negb isDefaultInstall then emit (ConsoleLog (PackagesLine names)) else ret tt
  else
    emit (ConsoleLog InstallFailed) ;;
    match not_found c with
    | Some pkg => emit (ConsoleLog (CouldNotFind pkg))
    | None => ret tt
    end.

(** From [console.log("--- Handing over to NPM ---")] to the end of the
    [close] listener, the same in both files.  The child is taken to start;
    what it writes to its streams is forwarded as it is and is not part of
    the trace.  An exception of the listener ends the run. *)
Definition hand_over (w : world) (pkgs : list string) (isDefaultInstall : bool)
  (packagesToCheck : list PackageRef) : M unit :=
  emit (ConsoleLog HandingOver) ;;
  emit (Spawn "npm" ("install" :: pkgs)) ;;
  on_close (npm_install w pkgs) isDefaultInstall packagesToCheck.

Module Cli.

(** *** [src/unnamed/part_000] *)

Definition exec_uninstall (w : world) (cmd : string) : M unit :=
  emit (Exec cmd) ;;
  if npm_uninstall w cmd then ret tt else throw ExecError.

Definition uninstallPackages (w : world) (pkgNames : list jsval) : M unit :=
  emit (SpinnerStart (Uninstalling (List.length pkgNames))) ;;
  catch
    (names <- join " " pkgNames ;;
     exec_uninstall w ("npm uninstall " ++ names) ;;
     shown <- join ", " pkgNames ;;
     emit (SpinnerSucceed (Uninstalled shown)))
    (fun error =>
       emit (SpinnerFail UninstallFailed) ;;
       emit (ConsoleError error)).

(** The [value]s of the two choices of each prompt, in the order shown. *)
Definition choices (p : prompt) : string * string :=
  match p with
  | ScanPrompt => ("uninstall", "ignore")
  | InstallPrompt => ("abort", "ignore")
  end.

Definition select (w : world) (p : prompt) : M string :=
  match operator w p with
  | Some First => emit (Select p (Some (fst (choices p)))) ;; ret (fst (choices p))
  | Some Second => emit (Select p (Some (snd (choices p)))) ;; ret (snd (choices p))
  | None => emit (Select p None) ;; throw PromptClosed
  end.

(** The body of [v.vulns.forEach(vuln => ...)]; reading a property of
    [null] is a [TypeError], and so is the conversion to text of a value
    that has none.  chalk converts the severity it is given, the template
    literals convert the summary and the id. *)
Definition render_vuln (vuln : json) : M unit :=
  database_specific <- get vuln "database_specific" ;;
  let severity := or_else (opt_chain database_specific "severity") (JStr "UNKNOWN") in
  shown <- toString (Some severity) ;;
  summary <- toString (Some (or_else (own vuln "summary") (JStr "No summary available"))) ;;
  emit (ConsoleLog (VulnLine (severityColor severity) shown summary)) ;;
  id <- toString (own vuln "id") ;;
  emit (ConsoleLog (IdLine id)).

(** The body of [foundVulns.forEach(v => ...)]. *)
Definition render_entry (v : entry) : M unit :=
  name <- originalPkg_name v ;;
  pkg <- toString name ;;
  emit (ConsoleLog (PackageHeader pkg)) ;;
  records <- as_array (vulns v) ;;
  forEach render_vuln records.

Definition processVulnerabilityReport (w : world) (vulnResults : json)
  (packagesToCheck : list PackageRef) (isScan : bool) : M bool :=
  if negb (truthy (Some vulnResults)) || negb (truthy (own vulnResults "results")) then
    emit (SpinnerFail ApiError) ;;
    ret false
  else
    results <- as_array (own vulnResults "results") ;;
    let found := foundVulns results packagesToCheck in
    if (0 <? List.length found)%nat then
      emit (SpinnerWarn (FoundVulns (List.length found))) ;;
      forEach render_entry found ;;
      if isScan then
        action <- select w ScanPrompt ;;
        if action =? "uninstall" then
          pkgsToRemove <- mapM originalPkg_name found ;;
          uninstallPackages w pkgsToRemove ;;
          exit 0
        else ret true
      else
        action <- select w InstallPrompt ;;
        if action =? "abort" then
          emit (ConsoleLog Aborting) ;;
          exit 1
        else ret true
    else
      emit (SpinnerSucceed NoKnownVulns) ;;
      ret true.

(** The action from [spinner.succeed(... Prepared list ...)] on. *)
Definition check_and_install (w : world) (pkgs : list string) (scan : bool)
  (isDefaultInstall : bool) (packagesToCheck : list PackageRef) : M unit :=
  emit (SpinnerSucceed (PreparedList (List.length packagesToCheck))) ;;
  emit (SpinnerStart CheckingVulns) ;;
  vulnResults <- vulnsCheck w packagesToCheck ;;
  processVulnerabilityReport w vulnResults packagesToCheck scan ;;
  if scan then emit (ConsoleLog ScanComplete)
  else hand_over w pkgs isDefaultInstall packagesToCheck.

(** The action of the [install] command; [scan] is [options.scan]. *)
Definition install_action (w : world) (pkgs : list string) (scan : bool) : M unit :=
  let isDefaultInstall := (List.length pkgs =? 0)%nat in
  emit (SpinnerStart Preparing) ;;
  if scan || isDefaultInstall then
    emit (SpinnerText ReadingPackageJson) ;;
    packagesToCheck <- extractPkgNames w ;;
    if (List.length packagesToCheck =? 0)%nat then
      emit (SpinnerFail NoPackagesFound)
    else check_and_install w pkgs scan isDefaultInstall packagesToCheck
  else
    emit (SpinnerText (FetchingVersions (List.length pkgs))) ;;
    packagesToCheck <- fetchPackageVersions w pkgs ;;
    check_and_install w pkgs scan isDefaultInstall packagesToCheck.

End Cli.

(** The exit status of the process.  A run that ends without
    [process.exit] leaves [process.exitCode] unset and node exits with 0
    once the child has closed; what node does with an uncaught exception is
    outside the model. *)
Definition exit_status {A} (o : outcome A) : option Z :=
  match o with
  | Ret _ => Some 0%Z
  | Exit code => Some code
  | Throw _ => None
  end.

Module IndexJs.

(** *** [src/index.js] *)

(** [x.length] for a value [x]: the number of elements of an array, of
    characters of a string, the own property of an object, [undefined] on a
    number or a boolean, and a [TypeError] on [null] and [undefined]. *)
Definition get_length (x : jsval) : M jsval :=
  match x with
  | None => throw TypeError
  | Some JNull => throw TypeError
  | Some (JArr items) => ret (Some (JNum (Z.of_nat (List.length items))))
  | Some (JStr s) => ret (Some (JNum (Z.of_nat (String.length s))))
  | Some j => ret (own j "length")
  end.

(** The body of [foundVulns.forEach(v => ...)]: the package name and
    [v.vulns.length], each converted to text for the template literal. *)
Definition report_entry (v : entry) : M unit :=
  name <- originalPkg_name v ;;
  pkg <- toString name ;;
  n <- get_length (vulns v) ;;
  count <- toString n ;;
  emit (ConsoleLog (IssueCount pkg count)).

(** The security check phase, from [if (vulnResults && vulnResults.results)]
    to the end of its [else]. *)
Definition security_check (vulnResults : json) (packagesToCheck : list PackageRef)
  : M unit :=
  if truthy (Some vulnResults) && truthy (own vulnResults "results") then
    results <- as_array (own vulnResults "results") ;;
    let found := foundVulns results packagesToCheck in
    if (0 <? List.length found)%nat then
      emit (SpinnerWarn (FoundVulns (List.length found))) ;;
      forEach report_entry found ;;
      emit (ConsoleLog AbortingInstallation) ;;
      exit 1
    else emit (SpinnerSucceed NoKnownVulns)
  else emit (SpinnerFail ApiError).

(** The action of the [install] command.  The [error] listener of the child
    never runs, the child being taken to start. *)
Definition install_action (w : world) (pkgs : list string) : M unit :=
  let isDefaultInstall := (List.length pkgs =? 0)%nat in
  emit (SpinnerStart PreparingPackageList) ;;
  packagesToCheck <-
    (if isDefaultInstall then
       emit (SpinnerText ReadingPackageJson) ;;
       extractPkgNames w
     else
       emit (SpinnerText (FetchingLatestVersions (List.length pkgs))) ;;
       fetchPackageVersions w pkgs) ;;
  emit (SpinnerSucceed PackageListPrepared) ;;
  emit (SpinnerStart CheckingVulns) ;;
  vulnResults <- vulnsCheck w packagesToCheck ;;
  security_check vulnResults packagesToCheck ;;
  hand_over w pkgs isDefaultInstall packagesToCheck.

End IndexJs.

(** ** Sample worlds *)

Definition candidate (n v : string) : PackageRef :=
  {| name := Some (JStr n); version := Some (JStr v) |}.

Definition left_pad : PackageRef := candidate "left-pad" "^1.3.0".

Definition high_vuln : json :=
  JObj [("id", JStr "GHSA-0000");
        ("summary", JStr "Denial of service");
        ("database_specific", JObj [("severity", JStr "HIGH")])].

Definition one_flagged : json :=
  JObj [("results", JArr [JObj [("vulns", JArr [high_vuln])]])].

(** A project that declares left-pad, a registry that answers every lookup
    with left-pad 1.3.0, an oracle that flags the package, an operator who
    takes the first choice of every prompt, an npm that succeeds. *)
Definition sample_world : world :=
  {| package_json := Some (JObj [("name", JStr "demo");
                                 ("dependencies", JObj [("left-pad", JStr "^1.3.0")])]);
     npm_view := fun _ => Some (JObj [("name", JStr "left-pad"); ("version", JStr "1.3.0")]);
     osv := fun _ => Response 200 (Some one_flagged);
     operator := fun _ => Some First;
     npm_uninstall := fun _ => true;
     npm_install := fun _ => mkChild 0 None |}.

Definition with_manifest (w : world) (data : option json) : world :=
  {| package_json := data; npm_view := npm_view w; osv := osv w;
     operator := operator w; npm_uninstall := npm_uninstall w;
     npm_install := npm_install w |}.

Definition with_registry (w : world) (answer : option json) : world :=
  {| package_json := package_json w; npm_view := fun _ => answer; osv := osv w;
     operator := operator w; npm_uninstall := npm_uninstall w;
     npm_install := npm_install w |}.

Definition with_oracle (w : world) (answer : fetch_result) : world :=
  {| package_json := package_json w; npm_view := npm_view w; osv := fun _ => answer;
     operator := operator w; npm_uninstall := npm_uninstall w;
     npm_install := npm_install w |}.

Definition with_operator (w : world) (answer : option pick) : world :=
  {| package_json := package_json w; npm_view := npm_view w; osv := osv w;
     operator := fun _ => answer; npm_uninstall := npm_uninstall w;
     npm_install := npm_install w |}.

Definition with_uninstall (w : world) (succeeds : bool) : world :=
  {| package_json := package_json w; npm_view := npm_view w; osv := osv w;
     operator := operator w; npm_uninstall := fun _ => succeeds;
     npm_install := npm_install w |}.

Definition with_child (w : world) (c : child) : world :=
  {| package_json := package_json w; npm_view := npm_view w; osv := osv w;
     operator := operator w; npm_uninstall := npm_uninstall w;
     npm_install := fun _ => c |}.

(** The same project when [npm uninstall] fails. *)
Definition uninstall_fails_world : world := with_uninstall sample_world false.

Definition all_clean : json := JObj [("results", JArr [JObj []])].

(** An oracle that finds nothing and an npm install that closes with 1. *)
Definition install_fails_world : world :=
  with_child (with_oracle sample_world (Response 200 (Some all_clean))) (mkChild 1 None).

(** No network. *)
Definition offline_world : world := with_oracle sample_world FetchRejected.

Definition no_results : json := JObj [("results", JArr [])].

(** A package.json without dependencies, an oracle that answers the empty
    batch with an empty [results] array. *)
Definition empty_manifest_world : world :=
  with_manifest (with_oracle sample_world (Response 200 (Some no_results)))
                (Some (JObj [("name", JStr "demo")])).

(** An oracle whose answer is valid JSON without a [results] field. *)
Definition no_results_world : world :=
  with_oracle sample_world (Response 200 (Some (JObj []))).

(** An oracle that answers every batch with an empty [results] array. *)
Definition short_reply_world : world :=
  with_oracle sample_world (Response 200 (Some no_results)).

(** An oracle that answers with status 500, whatever the body. *)
Definition server_error_world : world :=
  with_oracle sample_world (Response 500 (Some one_flagged)).

(** An oracle that answers with status 200 and a body that is not JSON. *)
Definition garbled_world : world := with_oracle sample_world (Response 200 None).

(** The sample project with an operator who takes the second choice of
    every prompt. *)
Definition second_choice_world : world := with_operator sample_world (Some Second).

(** The sample project with an operator who closes every prompt. *)
Definition closed_prompt_world : world := with_operator sample_world None.

(** An oracle whose [results] is a string. *)
Definition bad_results_world : world :=
  with_oracle sample_world (Response 200 (Some (JObj [("results", JStr "none")]))).

(** An oracle that answers with one result more than asked, flagged. *)
Definition long_reply_world : world :=
  with_oracle sample_world
    (Response 200
       (Some (JObj [("results", JArr [JObj []; JObj [("vulns", JArr [high_vuln])]])]))).

(** A registry that knows no package, an oracle that answers the empty
    batch with an empty [results] array. *)
Definition unknown_package_world : world :=
  with_registry (with_oracle sample_world (Response 200 (Some no_results))) None.

(** A directory without package.json. *)
Definition no_manifest_world : world := with_manifest sample_world None.

(** An oracle that flags left-pad with a [vulns] that is a string. *)
Definition odd_vulns_world : world :=
  with_oracle sample_world
    (Response 200 (Some (JObj [("results", JArr [JObj [("vulns", JStr "many")]])]))).

(** An oracle that flags left-pad with a [vulns] that is an object whose
    [length] has no text. *)
Definition uncounted_world : world :=
  with_oracle sample_world
    (Response 200
       (Some (JObj [("results",
                     JArr [JObj [("vulns",
                                  JObj [("length", JObj [("toString", JNum 1)])])]])]))).

(** A package.json that declares left-pad twice, once in each group. *)
Definition two_groups_world : world :=
  with_manifest sample_world
    (Some (JObj [("dependencies",
                  JObj [("left-pad", JStr "^1.3.0"); ("chalk", JStr "^5.0.0")]);
                 ("devDependencies",
                  JObj [("ora", JStr "~8.0.0"); ("left-pad", JStr "1.0.0")])])).

(** An oracle that answers left-pad with an empty [vulns] array. *)
Definition empty_vulns : json := JObj [("results", JArr [JObj [("vulns", JArr [])]])].

Definition empty_vulns_world : world :=
  with_oracle sample_world (Response 200 (Some empty_vulns)).

(** A project that declares alpha and delta; the oracle has a record for
    alpha and an empty [vulns] array for delta. *)
Definition one_of_two : json :=
  JObj [("results", JArr [JObj [("vulns", JArr [high_vuln])]; JObj [("vulns", JArr [])]])].

Definition two_packages_world : world :=
  with_manifest (with_oracle sample_world (Response 200 (Some one_of_two)))
    (Some (JObj [("dependencies",
                  JObj [("alpha", JStr "1.0.0"); ("delta", JStr "2.0.0")])])).

(** A registry that answers a lookup with an array, as [npm view] does for a
    range that several versions match. *)
Definition range_world : world :=
  with_registry sample_world
    (Some (JArr [JObj [("name", JStr "lodash"); ("version", JStr "4.17.20")];
                 JObj [("name", JStr "lodash"); ("version", JStr "4.17.21")]])).

(** A registry whose answer has a name without text; the oracle finds
    nothing. *)
Definition odd_name_world : world :=
  with_registry (with_oracle sample_world (Response 200 (Some all_clean)))
    (Some (JObj [("name", JObj [("toString", JNum 1)]); ("version", JStr "1.0.0")])).

(** A package.json whose package names include array indices. *)
Definition numbered_world : world :=
  with_manifest sample_world
    (Some (JObj [("dependencies",
                  JObj [("b", JStr "1.0.0"); ("10", JStr "1.0.0"); ("a", JStr "1.0.0");
                        ("2", JStr "1.0.0"); ("01", JStr "1.0.0")])])).

(** ** Vocabulary of the statements *)

Definition is_log (e : event) : Prop :=
  match e with
  | ConsoleLog _ => True
  | _ => False
  end.

(** The shell commands of a trace, in order. *)
Fixpoint execs (t : list event) : list string :=
  match t with
  | [] => []
  | Exec cmd :: rest => cmd :: execs rest
  | _ :: rest => execs rest
  end.

(** The prompts of a trace with the operator's answers, in order. *)
Fixpoint selects (t : list event) : list (prompt * option string) :=
  match t with
  | [] => []
  | Select p answer :: rest => (p, answer) :: selects rest
  | _ :: rest => selects rest
  end.

(** The child processes started in a trace, in order. *)
Fixpoint spawns (t : list event) : list (string * list string) :=
  match t with
  | [] => []
  | Spawn cmd args :: rest => (cmd, args) :: spawns rest
  | _ :: rest => spawns rest
  end.

(** The batches sent to the oracle in a trace, in order. *)
Fixpoint fetches (t : list event) : list (list query) :=
  match t with
  | [] => []
  | Fetch queries :: rest => queries :: fetches rest
  | _ :: rest => fetches rest
  end.

(** The candidate that an argument resolves to, if any: the registry
    answers with JSON other than [null]. *)
Definition resolved (w : world) (rawArg : string) : option PackageRef :=
  match npm_view w rawArg with
  | None => None
  | Some JNull => None
  | Some info => Some {| name := own info "name"; version := own info "version" |}
  end.

(** The query for a candidate whose version is a string. *)
Definition query_of (p : PackageRef) : option query :=
  match version p with
  | Some (JStr v) => Some {| q_version := strip_range v; q_name := name p;
                             q_ecosystem := "npm" |}
  | _ => None
  end.

(** The batch for a candidate list all of whose versions are strings. *)
Fixpoint queries_of (C : list PackageRef) : option (list query) :=
  match C with
  | [] => Some []
  | p :: rest =>
      match query_of p, queries_of rest with
      | Some q, Some qs => Some (q :: qs)
      | _, _ => None
      end
  end.

(** What the oracle client adds to the trace: the batch, or nothing when
    there is none. *)
Definition query_trace (C : list PackageRef) : list event :=
  match queries_of C with
  | Some qs => [Fetch qs]
  | None => []
  end.

(** The candidate's name can be converted to text. *)
Definition named (p : PackageRef) : Prop := text_of (name p) <> None.

(** What [uninstallPackages] adds to the trace after the spinner start,
    for names whose texts joined with spaces are [names] and joined with
    commas are [shown]. *)
Definition uninstall_trace (w : world) (names shown : string) : list event :=
  Exec ("npm uninstall " ++ names) ::
  (if npm_uninstall w ("npm uninstall " ++ names)
   then [SpinnerSucceed (Uninstalled shown)]
   else [SpinnerFail UninstallFailed; ConsoleError ExecError]).

(** The runs of [processVulnerabilityReport] once [results] is an array
    with [found] flagged entries, [found] not empty: [t] is what the
    rendering loop printed. *)
Inductive flagged_run (w : world) (isScan : bool) (found : list entry)
  : M bool -> Prop :=
| RenderThrows t :
    Forall is_log t ->
    result (forEach Cli.render_entry found) = Throw TypeError ->
    flagged_run w isScan found
      (SpinnerWarn (FoundVulns (List.length found)) :: t, Throw TypeError)
| PromptClosedRun t p :
    Forall is_log t ->
    p = (if isScan then ScanPrompt else InstallPrompt) ->
    operator w p = None ->
    flagged_run w isScan found
      (SpinnerWarn (FoundVulns (List.length found)) :: t ++ [Select p None],
       Throw PromptClosed)
| IgnoreRun t p :
    Forall is_log t ->
    p = (if isScan then ScanPrompt else InstallPrompt) ->
    operator w p = Some Second ->
    flagged_run w isScan found
      (SpinnerWarn (FoundVulns (List.length found)) :: t ++ [Select p (Some "ignore")],
       Ret true)
| AbortRun t :
    Forall is_log t ->
    isScan = false ->
    operator w InstallPrompt = Some First ->
    flagged_run w isScan found
      (SpinnerWarn (FoundVulns (List.length found)) :: t
         ++ [Select InstallPrompt (Some "abort"); ConsoleLog Aborting],
       Exit 1%Z)
| UninstallRun t pkgNames names shown :
    Forall is_log t ->
    isScan = true ->
    operator w ScanPrompt = Some First ->
    mapM originalPkg_name found = ([], Ret pkgNames) ->
    join_text " " pkgNames = Some names ->
    join_text ", " pkgNames = Some shown ->
    flagged_run w isScan found
      (SpinnerWarn (FoundVulns (List.length found)) :: t
         ++ Select ScanPrompt (Some "uninstall")
         :: SpinnerStart (Uninstalling (List.length pkgNames))
         :: uninstall_trace w names shown,
       Exit 0%Z).

(** [C] is the candidate list with which the action of
    [src/unnamed/part_000] reaches the security check: the manifest entries
    (not empty, or the action has stopped) in scan mode and on a default
    install, the resolved arguments otherwise. *)
Definition candidates (w : world) (pkgs : list string) (scan : bool)
  (C : list PackageRef) : Prop :=
  if scan || (List.length pkgs =? 0)%nat
  then result (extractPkgNames w) = Ret C /\ C <> []
  else result (fetchPackageVersions w pkgs) = Ret C.

(** [C] is the candidate list of the action of [src/index.js]: the
    manifest entries on a default install, empty or not, the resolved
    arguments otherwise. *)
Definition index_candidates (w : world) (pkgs : list string)
  (C : list PackageRef) : Prop :=
  if (List.length pkgs =? 0)%nat
  then result (extractPkgNames w) = Ret C
  else result (fetchPackageVersions w pkgs) = Ret C.

(** A member that is absent or a string. *)
Definition text_or_absent (v : jsval) : bool :=
  match v with
  | None => true
  | Some (JStr _) => true
  | Some _ => false
  end.

(** A vulnerability record as the OSV endpoint sends it: an object whose
    [id] and [summary], where present, are strings, and whose
    [database_specific], where present, is an object with a [severity] that
    is a string where present. *)
Definition osv_record (vuln : json) : bool :=
  match vuln with
  | JObj _ =>
      text_or_absent (own vuln "id") && text_or_absent (own vuln "summary") &&
      match own vuln "database_specific" with
      | None => true
      | Some (JObj d) => text_or_absent (assoc "severity" d)
      | Some _ => false
      end
  | _ => false
  end.

(** An element of [results] as the OSV endpoint sends it: no [vulns] field,
    or a [vulns] array of such records. *)
Definition osv_shaped (r : json) : bool :=
  match own r "vulns" with
  | None => true
  | Some (JArr items) => forallb osv_record items
  | Some _ => false
  end.

(** If the [vulns] of the result is an object, its [length] member has a
    text. *)
Definition counted (r : json) : Prop :=
  forall ms, own r "vulns" = Some (JObj ms) -> text_of (assoc "length" ms) <> None.

(** The two ways the candidate list is built when the action goes on to
    the security check: [pre] is the trace up to that point. *)
Inductive prepared (w : world) (pkgs : list string) (scan : bool)
  : list PackageRef -> list event -> Prop :=
| FromManifest C :
    scan || (List.length pkgs =? 0)%nat = true ->
    result (extractPkgNames w) = Ret C ->
    C <> [] ->
    prepared w pkgs scan C
      [SpinnerStart Preparing; SpinnerText ReadingPackageJson; ReadManifest]
| FromRegistry C :
    scan = false ->
    pkgs <> [] ->
    result (fetchPackageVersions w pkgs) = Ret C ->
    prepared w pkgs scan C
      (SpinnerStart Preparing :: SpinnerText (FetchingVersions (List.length pkgs))
         :: map (fun rawArg => Exec (view_cmd rawArg)) pkgs).

(** What the action does once [processVulnerabilityReport] has ended with
    outcome [o]. *)
Definition after_report (w : world) (pkgs : list string) (scan : bool)
  (C : list PackageRef) (o : outcome bool) : M unit :=
  match o with
  | Ret _ =>
      if scan then emit (ConsoleLog ScanComplete)
      else hand_over w pkgs (List.length pkgs =? 0)%nat C
  | Exit code => exit code
  | Throw e => throw e
  end.

(** How a run that has handed over to npm ends: it returns, unless the
    child closes with 0 and the [close] listener, joining the names of the
    candidates, meets one that has no text. *)
Definition closes (w : world) (pkgs : list string) (C : list PackageRef)
  (o : outcome unit) : Prop :=
  (o = Ret tt /\
   ((close_code (npm_install w pkgs) <> 0)%Z \/ Forall named C)) \/
  (o = Throw TypeError /\
   close_code (npm_install w pkgs) = 0%Z /\ exists p, In p C /\ ~ named p).

(** The positions of [results] whose [vulns] is truthy, in increasing
    order. *)
Definition flagged_positions (results : list json) : list nat :=
  filter (fun i => truthy (own (nth i results JNull) "vulns"))
         (seq 0 (List.length results)).

(** Does the character occur in the string. *)
Fixpoint occurs (c : ascii) (s : string) : bool :=
  match s with
  | EmptyString => false
  | String c' s' => Ascii.eqb c c' || occurs c s'
  end.

(** [removed_first c s s']: [s'] is [s] without its first [c], or [s]
    itself when [c] does not occur in [s]. *)
Inductive removed_first (c : ascii) : string -> string -> Prop :=
| NotThere s : occurs c s = false -> removed_first c s s
| There a b : occurs c a = false -> removed_first c (a ++ String c b) (a ++ b).

(** The stripping as the specification words it: only a qualifier in
    leading position is removed. *)
Definition spec_strip_leading (version : string) : string :=
  match version with
  | String c rest =>
      if Ascii.eqb c "^" || Ascii.eqb c "~" then rest else version
  | EmptyString => version
  end.

(** How a run [m] of the action of [src/unnamed/part_000] ends, by what
    happened at the prompt. *)
Inductive ending (w : world) (pkgs : list string) (scan : bool) (m : M unit) : Prop :=
| NoPrompt :
    selects (trace m) = [] ->
    result m = Ret tt \/ (result m = Throw TypeError /\ spawns (trace m) = []) \/
    (result m = Throw TypeError /\ close_code (npm_install w pkgs) = 0%Z) ->
    ending w pkgs scan m
| PromptClosedEnd p :
    selects (trace m) = [(p, None)] ->
    spawns (trace m) = [] ->
    result m = Throw PromptClosed ->
    ending w pkgs scan m
| IgnoreEnd p :
    selects (trace m) = [(p, Some "ignore")] ->
    result m = Ret tt \/
    (scan = false /\ result m = Throw TypeError /\
     close_code (npm_install w pkgs) = 0%Z) ->
    ending w pkgs scan m
| AbortEnd :
    scan = false ->
    selects (trace m) = [(InstallPrompt, Some "abort")] ->
    spawns (trace m) = [] ->
    result m = Exit 1%Z ->
    ending w pkgs scan m
| UninstallEnd C vr rs pkgNames names shown :
    scan = true ->
    selects (trace m) = [(ScanPrompt, Some "uninstall")] ->
    spawns (trace m) = [] ->
    result m = Exit 0%Z ->
    result (extractPkgNames w) = Ret C ->
    result (vulnsCheck w C) = Ret vr ->
    own vr "results" = Some (JArr rs) ->
    mapM originalPkg_name (foundVulns rs C) = ([], Ret pkgNames) ->
    join_text " " pkgNames = Some names ->
    join_text ", " pkgNames = Some shown ->
    execs (trace m) = [("npm uninstall " ++ names)%string] ->
    (npm_uninstall w ("npm uninstall " ++ names)%string = false ->
     In (SpinnerFail UninstallFailed) (trace m) /\
     In (ConsoleError ExecError) (trace m)) ->
    ending w pkgs scan m.

(** A computation of the report: it only prints, it does not end the
    process, and what it throws is a [TypeError]. *)
Definition quiet {A} (m : M A) : Prop :=
  Forall is_log (trace m) /\
  (forall c, result m <> Exit c) /\
  (forall e, result m = Throw e -> e = TypeError).

(** ** The monad *)

Lemma bind_ret_l {A B} (a : A) (f : A -> M B) : bind (ret a) f = f a.
Proof. unfold bind, ret. destruct (f a); reflexivity. Qed.

Lemma bind_pure {A B} (a : A) (f : A -> M B) : bind ([], Ret a) f = f a.
Proof. apply bind_ret_l. Qed.

Lemma bind_emit {B} (e : event) (m : M B) :
  bind (emit e) (fun _ => m) = (e :: trace m, result m).
Proof. destruct m; reflexivity. Qed.

Lemma bind_throw {A B} (e : error) (f : A -> M B) : bind (throw e) f = throw e.
Proof. reflexivity. Qed.

Lemma bind_run {A B} (m : M A) (f : A -> M B) t a :
  m = (t, Ret a) -> bind m f = (t ++ trace (f a), result (f a)).
Proof. intros ->. simpl. destruct (f a); reflexivity. Qed.

Lemma quiet_ret {A} (a : A) : quiet (ret a).
Proof. unfold quiet. simpl. repeat split; [constructor | discriminate | discriminate]. Qed.

Lemma quiet_throw {A} : quiet (@throw A TypeError).
Proof. unfold quiet. simpl. repeat split; [constructor | discriminate | congruence]. Qed.

Lemma quiet_log l : quiet (emit (ConsoleLog l)).
Proof.
  unfold quiet. simpl. repeat split; [repeat constructor | discriminate | discriminate].
Qed.

Lemma quiet_bind {A B} (m : M A) (f : A -> M B) :
  quiet m -> (forall a, quiet (f a)) -> quiet (bind m f).
Proof.
  destruct m as [t [a|c|e]]; intros (Hl & Hx & He) Hf; cbn [trace result fst snd] in *.
  - specialize (Hf a). unfold quiet, bind. destruct (f a) as [t' o].
    destruct Hf as (Hl' & Hx' & He'). cbn [trace result fst snd] in *.
    split; [apply Forall_app; auto | auto].
  - exfalso. apply (Hx c). reflexivity.
  - unfold quiet. cbn [bind trace result fst snd].
    repeat split; [assumption | discriminate |].
    intros e0 [= <-]. apply He. reflexivity.
Qed.

Lemma quiet_forEach {A} (f : A -> M unit) (xs : list A) :
  (forall x, quiet (f x)) -> quiet (forEach f xs).
Proof.
  intros Hf. induction xs as [|x rest IH]; cbn [forEach].
  - apply quiet_ret.
  - apply quiet_bind; [apply Hf | intros _; exact IH].
Qed.

Lemma quiet_toString v : quiet (toString v).
Proof. unfold toString. destruct (text_of v); [apply quiet_ret | apply quiet_throw]. Qed.

Lemma quiet_get j k : quiet (get j k).
Proof. destruct j; first [apply quiet_ret | apply quiet_throw]. Qed.

Lemma quiet_as_array v : quiet (as_array v).
Proof. destruct v as [[]|]; first [apply quiet_ret | apply quiet_throw]. Qed.

Lemma quiet_originalPkg_name v : quiet (originalPkg_name v).
Proof.
  unfold originalPkg_name. destruct (originalPkg v); [apply quiet_ret | apply quiet_throw].
Qed.

Lemma quiet_get_length v : quiet (IndexJs.get_length v).
Proof. destruct v as [[]|]; first [apply quiet_ret | apply quiet_throw]. Qed.

(** Decomposing a computation of the report. *)
Ltac quiet_step :=
  first [ apply quiet_ret | apply quiet_throw | apply quiet_log
        | apply quiet_toString | apply quiet_get | apply quiet_as_array
        | apply quiet_originalPkg_name | apply quiet_get_length
        | apply quiet_bind; [|intros ?] ].

Lemma quiet_render_vuln vuln : quiet (Cli.render_vuln vuln).
Proof. unfold Cli.render_vuln. repeat quiet_step. Qed.

Lemma quiet_render_entry v : quiet (Cli.render_entry v).
Proof.
  unfold Cli.render_entry. repeat quiet_step.
  apply quiet_forEach, quiet_render_vuln.
Qed.

Lemma quiet_report_entry v : quiet (IndexJs.report_entry v).
Proof. unfold IndexJs.report_entry. repeat quiet_step. Qed.

Lemma forEach_ret_inv {A} (f : A -> M unit) (xs : list A) :
  result (forEach f xs) = Ret tt -> forall x, In x xs -> result (f x) = Ret tt.
Proof.
  induction xs as [|y rest IH]; intros H x Hin; [destruct Hin|].
  cbn [forEach] in H. unfold result in *.
  destruct (f y) as [t [[]|c|e]] eqn:Ey; simpl in H; try discriminate.
  destruct (forEach f rest) as [t' o]; simpl in *.
  destruct Hin as [<- | Hin]; [rewrite Ey; reflexivity | apply IH; assumption].
Qed.

Lemma forEach_ret {A} (f : A -> M unit) (xs : list A) :
  (forall x, In x xs -> result (f x) = Ret tt) -> result (forEach f xs) = Ret tt.
Proof.
  induction xs as [|x rest IH]; intros H; [reflexivity|].
  cbn [forEach]. pose proof (H x (in_eq _ _)) as Hx. unfold result in *.
  destruct (f x) as [t o]; simpl in Hx; subst o. simpl.
  destruct (forEach f rest) as [t' o'] eqn:E. simpl.
  apply IH. intros y Hy. apply H. right. exact Hy.
Qed.

Lemma forEach_not_ret {A} (f : A -> M unit) (xs : list A) (x : A) :
  In x xs -> result (f x) <> Ret tt -> result (forEach f xs) <> Ret tt.
Proof.
  intros Hin Hx H. apply Hx. apply (forEach_ret_inv f xs H x Hin).
Qed.

(** A quiet computation that does not return dies of a [TypeError]. *)
Lemma quiet_throws {A} (m : M A) :
  quiet m -> (forall a, result m <> Ret a) -> result m = Throw TypeError.
Proof.
  intros (_ & Hx & He) Hr. destruct (result m) as [a|c|e] eqn:E.
  - exfalso. apply (Hr a). reflexivity.
  - exfalso. apply (Hx c). reflexivity.
  - rewrite (He e eq_refl). reflexivity.
Qed.

Lemma quiet_cases {A} (m : M A) :
  quiet m ->
  exists t, Forall is_log t /\
            ((exists a, m = (t, Ret a)) \/ m = (t, Throw TypeError)).
Proof.
  destruct m as [t [a|c|e]]; intros (Hl & Hx & He); cbn [trace result fst snd] in *;
    exists t; split; auto.
  - left. exists a. reflexivity.
  - exfalso. apply (Hx c). reflexivity.
  - right. rewrite (He e eq_refl). reflexivity.
Qed.

(** ** Conversions to text *)

Lemma toString_run v s : text_of v = Some s -> toString v = ret s.
Proof. unfold toString. intros ->. reflexivity. Qed.

Lemma toString_throws v : text_of v = None -> toString v = throw TypeError.
Proof. unfold toString. intros ->. reflexivity. Qed.

Lemma toString_ret_inv v : (exists s, result (toString v) = Ret s) -> text_of v <> None.
Proof. unfold toString. destruct (text_of v); [discriminate | intros [s H]; discriminate H]. Qed.

Lemma join_item_text v : join_item v = None <-> text_of v = None.
Proof. destruct v as [[]|]; simpl; split; intros H; try discriminate H; exact H. Qed.

Lemma join_items_some xs :
  Forall (fun v => text_of v <> None) xs -> exists ss, join_items xs = Some ss.
Proof.
  induction 1 as [|v rest Hv _ (ss & IH)]; cbn [join_items]; [eauto|].
  destruct (join_item v) as [s|] eqn:E; [|apply join_item_text in E; contradiction].
  rewrite IH. eauto.
Qed.

Lemma join_items_none xs :
  join_items xs = None -> exists v, In v xs /\ text_of v = None.
Proof.
  induction xs as [|v rest IH]; cbn [join_items]; [discriminate|].
  destruct (join_item v) as [s|] eqn:E.
  - destruct (join_items rest) as [ss|]; [discriminate|].
    intros _. destruct (IH eq_refl) as (x & Hin & Hx). exists x. split; [right|]; assumption.
  - intros _. exists v. split; [left; reflexivity | apply join_item_text; exact E].
Qed.

Lemma join_text_some sep xs :
  Forall (fun v => text_of v <> None) xs -> exists s, join_text sep xs = Some s.
Proof.
  intros H. destruct (join_items_some xs H) as (ss & E).
  unfold join_text. rewrite E. simpl. eauto.
Qed.

Lemma join_text_none sep xs :
  join_text sep xs = None -> exists v, In v xs /\ text_of v = None.
Proof.
  unfold join_text. destruct (join_items xs) eqn:E; [discriminate|].
  intros _. apply join_items_none. exact E.
Qed.

Lemma join_text_sep sep sep' xs s :
  join_text sep xs = Some s -> exists s', join_text sep' xs = Some s'.
Proof.
  unfold join_text. destruct (join_items xs); [|discriminate]. simpl. eauto.
Qed.

(** ** The report of [src/unnamed/part_000] *)

Lemma render_entry_ret_inv v :
  result (Cli.render_entry v) = Ret tt ->
  exists p, originalPkg v = Some p /\ named p.
Proof.
  unfold Cli.render_entry, originalPkg_name, named.
  destruct (originalPkg v) as [p|]; [|discriminate].
  rewrite bind_ret_l. intros H. exists p. split; [reflexivity|].
  intros E. rewrite (toString_throws _ E) in H. discriminate H.
Qed.

Lemma mapM_names_run found :
  (forall v, In v found -> exists p, originalPkg v = Some p) ->
  mapM originalPkg_name found
  = ([], Ret (map (fun v => match originalPkg v with
                            | Some p => name p
                            | None => None
                            end) found)).
Proof.
  induction found as [|v rest IH]; intros H; [reflexivity|].
  cbn [mapM map]. destruct (H v (in_eq _ _)) as (p & Hp).
  unfold originalPkg_name at 1. rewrite Hp, bind_ret_l.
  rewrite IH by (intros x Hx; apply H; right; exact Hx). reflexivity.
Qed.

(** When the rendering loop completes, every flagged entry has its
    package and the package's name has a text: the names can be collected
    and joined. *)
Lemma rendered_names found :
  result (forEach Cli.render_entry found) = Ret tt ->
  exists pkgNames names shown,
    mapM originalPkg_name found = ([], Ret pkgNames) /\
    join_text " " pkgNames = Some names /\
    join_text ", " pkgNames = Some shown.
Proof.
  intros H.
  pose proof (forEach_ret_inv _ _ H) as Hall.
  assert (Hp : forall v, In v found -> exists p, originalPkg v = Some p).
  { intros v Hv. destruct (render_entry_ret_inv v (Hall v Hv)) as (p & Hp & _). eauto. }
  eexists.
  assert (Ht : Forall (fun n => text_of n <> None)
                      (map (fun v => match originalPkg v with
                                     | Some p => name p
                                     | None => None
                                     end) found)).
  { apply Forall_forall. intros n Hn. apply in_map_iff in Hn as (v & <- & Hv).
    destruct (render_entry_ret_inv v (Hall v Hv)) as (p & -> & Hnamed). exact Hnamed. }
  destruct (join_text_some " " _ Ht) as (names & Hn).
  destruct (join_text_some ", " _ Ht) as (shown & Hs).
  exists names, shown. split; [apply mapM_names_run; exact Hp|]. split; assumption.
Qed.

Lemma uninstallPackages_run w pkgNames names shown :
  join_text " " pkgNames = Some names ->
  join_text ", " pkgNames = Some shown ->
  Cli.uninstallPackages w pkgNames =
  (SpinnerStart (Uninstalling (List.length pkgNames)) :: uninstall_trace w names shown,
   Ret tt).
Proof.
  intros Hn Hs.
  unfold Cli.uninstallPackages, Cli.exec_uninstall, uninstall_trace, join.
  rewrite Hn, Hs. rewrite bind_emit, bind_ret_l, bind_emit.
  destruct (npm_uninstall w ("npm uninstall " ++ names)); reflexivity.
Qed.

Lemma flagged_cases w isScan found :
  flagged_run w isScan found
    (emit (SpinnerWarn (FoundVulns (List.length found))) ;;
     forEach Cli.render_entry found ;;
     if isScan then
       action <- Cli.select w ScanPrompt ;;
       if action =? "uninstall" then
         pkgsToRemove <- mapM originalPkg_name found ;;
         Cli.uninstallPackages w pkgsToRemove ;;
         exit 0
       else ret true
     else
       action <- Cli.select w InstallPrompt ;;
       if action =? "abort" then
         emit (ConsoleLog Aborting) ;;
         exit 1
       else ret true).
Proof.
  pose proof (rendered_names found) as Hnames.
  destruct (quiet_cases _ (quiet_forEach _ found quiet_render_entry))
    as (t & Hlog & [([] & Ef) | Ef]); rewrite Ef in *; cbn [result snd] in Hnames.
  - destruct (Hnames eq_refl) as (pkgNames & names & shown & Hn & Hj & Hs). clear Hnames.
    destruct isScan; unfold Cli.select.
    + destruct (operator w ScanPrompt) as [[]|] eqn:Eo; simpl.
      * rewrite Hn. simpl. rewrite (uninstallPackages_run w pkgNames names shown Hj Hs).
        simpl. rewrite app_nil_r.
        apply (UninstallRun w true found t pkgNames names shown); auto.
      * apply (IgnoreRun w true found t ScanPrompt); auto.
      * apply (PromptClosedRun w true found t ScanPrompt); auto.
    + destruct (operator w InstallPrompt) as [[]|] eqn:Eo; simpl.
      * apply AbortRun; auto.
      * apply (IgnoreRun w false found t InstallPrompt); auto.
      * apply (PromptClosedRun w false found t InstallPrompt); auto.
  - simpl. apply RenderThrows; [assumption | rewrite Ef; reflexivity].
Qed.

(** The four ways [processVulnerabilityReport] can go. *)
Lemma report_cases w vr C isScan :
  let m := Cli.processVulnerabilityReport w vr C isScan in
  (truthy (Some vr) && truthy (own vr "results") = false /\
   m = ([SpinnerFail ApiError], Ret false))
  \/ (truthy (own vr "results") = true /\
      (forall rs, own vr "results" <> Some (JArr rs)) /\
      m = ([], Throw TypeError))
  \/ (exists rs, own vr "results" = Some (JArr rs) /\ foundVulns rs C = [] /\
      m = ([SpinnerSucceed NoKnownVulns], Ret true))
  \/ (exists rs, own vr "results" = Some (JArr rs) /\ foundVulns rs C <> [] /\
      flagged_run w isScan (foundVulns rs C) m).
Proof.
  intros m. subst m. unfold Cli.processVulnerabilityReport.
  destruct (truthy (Some vr)) eqn:Hvr; simpl negb; cbv beta iota;
    [|left; split; reflexivity].
  destruct (truthy (own vr "results")) eqn:Hres; simpl negb; simpl orb; cbv iota;
    [|left; split; reflexivity].
  right.
  destruct (own vr "results") as [[| | | |rs|]|] eqn:Eres;
    try (left; split; [reflexivity|]; split; [discriminate | reflexivity]).
  right. unfold as_array. rewrite bind_ret_l. cbv zeta.
  destruct (foundVulns rs C) as [|v found] eqn:Ef.
  - left. exists rs. auto.
  - right. exists rs. split; [reflexivity|]. split; [rewrite Ef; discriminate|].
    rewrite Ef.
    change (0 <? List.length (v :: found))%nat with true. cbv iota.
    apply flagged_cases.
Qed.

(** ** The preparation phase and the oracle client always return *)

Lemma extractPkgNames_run w :
  exists C, extractPkgNames w = ([ReadManifest], Ret C).
Proof.
  unfold extractPkgNames, read_manifest.
  destruct (package_json w) as [[]|]; simpl; eauto.
Qed.

Lemma resolve_arg_run w rawArg :
  resolve_arg w rawArg = ([Exec (view_cmd rawArg)], Ret (resolved w rawArg)).
Proof.
  unfold resolve_arg, exec_view, resolved.
  destruct (npm_view w rawArg) as [[]|]; reflexivity.
Qed.

Lemma mapM_resolve_run w pkgs :
  mapM (resolve_arg w) pkgs
  = (map (fun rawArg => Exec (view_cmd rawArg)) pkgs, Ret (map (resolved w) pkgs)).
Proof.
  induction pkgs as [|a rest IH]; cbn [mapM map]; [reflexivity|].
  rewrite resolve_arg_run, IH. simpl. rewrite app_nil_r. reflexivity.
Qed.

Lemma fetchPackageVersions_run w pkgs :
  fetchPackageVersions w pkgs
  = (map (fun rawArg => Exec (view_cmd rawArg)) pkgs,
     Ret (keep_some (map (resolved w) pkgs))).
Proof.
  unfold fetchPackageVersions. rewrite mapM_resolve_run. simpl.
  rewrite app_nil_r. reflexivity.
Qed.

Lemma to_query_run p :
  to_query p = match query_of p with
               | Some q => ([], Ret q)
               | None => ([], Throw TypeError)
               end.
Proof. unfold to_query, query_of. destruct (version p) as [[]|]; reflexivity. Qed.

Lemma mapM_to_query C :
  mapM to_query C = match queries_of C with
                    | Some qs => ([], Ret qs)
                    | None => ([], Throw TypeError)
                    end.
Proof.
  induction C as [|p rest IH]; cbn [mapM queries_of]; [reflexivity|].
  rewrite to_query_run. destruct (query_of p) as [q|]; [|reflexivity].
  rewrite bind_pure, IH. destruct (queries_of rest); reflexivity.
Qed.

Lemma fetch_json_run w qs :
  exists o, fetch_json w qs = ([Fetch qs], o) /\ forall c, o <> Exit c.
Proof.
  unfold fetch_json.
  destruct (osv w qs) as [|status [data|]]; simpl;
    try destruct (response_ok status); simpl; eexists; split; try reflexivity; discriminate.
Qed.

(** The oracle client never throws; it sends the batch when there is one
    and returns [null] without sending anything when there is none. *)
Lemma vulnsCheck_run w C :
  exists vr, vulnsCheck w C = (query_trace C, Ret vr) /\
             (queries_of C = None -> vr = JNull).
Proof.
  unfold vulnsCheck, query_trace. rewrite mapM_to_query.
  destruct (queries_of C) as [qs|].
  - rewrite bind_pure. destruct (fetch_json_run w qs) as (o & -> & Hx).
    destruct o as [vr|c|e]; simpl.
    + exists vr. split; [reflexivity | discriminate].
    + exfalso. apply (Hx c). reflexivity.
    + exists JNull. split; [reflexivity | discriminate].
  - exists JNull. split; reflexivity.
Qed.

Lemma check_and_install_run w pkgs scan C vr t o :
  result (vulnsCheck w C) = Ret vr ->
  Cli.processVulnerabilityReport w vr C scan = (t, o) ->
  Cli.check_and_install w pkgs scan (List.length pkgs =? 0)%nat C
  = (SpinnerSucceed (PreparedList (List.length C)) :: SpinnerStart CheckingVulns
       :: query_trace C ++ t ++ trace (after_report w pkgs scan C o),
     result (after_report w pkgs scan C o)).
Proof.
  intros Hvr Hrep. unfold Cli.check_and_install.
  destruct (vulnsCheck_run w C) as (vr' & Hrun & _). rewrite Hrun in *.
  simpl in Hvr. injection Hvr as ->.
  rewrite !bind_emit. f_equal.
  - cbn [trace fst]. do 2 f_equal.
    rewrite (bind_run _ _ (query_trace C) vr eq_refl). cbn [trace fst]. f_equal.
    rewrite Hrep. destruct o as [b|c|e]; simpl; try rewrite app_nil_r; try reflexivity.
    destruct scan; [reflexivity|].
    destruct (hand_over w pkgs (List.length pkgs =? 0)%nat C); reflexivity.
  - cbn [result snd].
    rewrite (bind_run _ _ (query_trace C) vr eq_refl). cbn [result snd].
    rewrite Hrep. destruct o as [b|c|e]; simpl; try reflexivity.
    destruct scan; [reflexivity|].
    destruct (hand_over w pkgs (List.length pkgs =? 0)%nat C); reflexivity.
Qed.

(** The action either stops on an empty manifest or goes through the
    security check. *)
Lemma install_action_cases w pkgs scan :
  (scan || (List.length pkgs =? 0)%nat = true /\
   result (extractPkgNames w) = Ret [] /\
   Cli.install_action w pkgs scan
   = ([SpinnerStart Preparing; SpinnerText ReadingPackageJson; ReadManifest;
       SpinnerFail NoPackagesFound], Ret tt))
  \/ (exists C pre vr t o,
        prepared w pkgs scan C pre /\
        result (vulnsCheck w C) = Ret vr /\
        Cli.processVulnerabilityReport w vr C scan = (t, o) /\
        Cli.install_action w pkgs scan
        = (pre ++ SpinnerSucceed (PreparedList (List.length C))
             :: SpinnerStart CheckingVulns
             :: query_trace C ++ t ++ trace (after_report w pkgs scan C o),
           result (after_report w pkgs scan C o))).
Proof.
  unfold Cli.install_action. cbv zeta.
  destruct (scan || (List.length pkgs =? 0)%nat) eqn:Hmode.
  - destruct (extractPkgNames_run w) as (C & HC). rewrite HC.
    destruct C as [|p C'].
    + left. repeat split; reflexivity.
    + right.
      destruct (vulnsCheck_run w (p :: C')) as (vr & Hvr & _).
      destruct (Cli.processVulnerabilityReport w vr (p :: C') scan) as [t o] eqn:Hrep.
      exists (p :: C'), [SpinnerStart Preparing; SpinnerText ReadingPackageJson; ReadManifest],
        vr, t, o.
      split; [|split; [rewrite Hvr; reflexivity|split; [exact Hrep|]]].
      * apply FromManifest; [exact Hmode | rewrite HC; reflexivity | discriminate].
      * simpl.
        rewrite (check_and_install_run w pkgs scan (p :: C') vr t o)
          by (first [exact Hrep | rewrite Hvr; reflexivity]).
        reflexivity.
  - right. apply orb_false_iff in Hmode as [-> Hpk].
    rewrite fetchPackageVersions_run.
    set (C := keep_some (map (resolved w) pkgs)).
    destruct (vulnsCheck_run w C) as (vr & Hvr & _).
    destruct (Cli.processVulnerabilityReport w vr C false) as [t o] eqn:Hrep.
    exists C, (SpinnerStart Preparing :: SpinnerText (FetchingVersions (List.length pkgs))
                 :: map (fun rawArg => Exec (view_cmd rawArg)) pkgs), vr, t, o.
    split; [|split; [rewrite Hvr; reflexivity|split; [exact Hrep|]]].
    + apply FromRegistry; [reflexivity | | rewrite fetchPackageVersions_run; reflexivity].
      intros ->. discriminate.
    + simpl.
      rewrite (check_and_install_run w pkgs false C vr t o)
        by (first [exact Hrep | rewrite Hvr; reflexivity]).
      reflexivity.
Qed.

(** ** Projections of traces *)

Lemma execs_app t1 t2 : execs (t1 ++ t2) = execs t1 ++ execs t2.
Proof.
  induction t1 as [|e t1 IH]; simpl; [reflexivity|].
  destruct e; simpl; rewrite IH; reflexivity.
Qed.

Lemma selects_app t1 t2 : selects (t1 ++ t2) = selects t1 ++ selects t2.
Proof.
  induction t1 as [|e t1 IH]; simpl; [reflexivity|].
  destruct e; simpl; rewrite IH; reflexivity.
Qed.

Lemma spawns_app t1 t2 : spawns (t1 ++ t2) = spawns t1 ++ spawns t2.
Proof.
  induction t1 as [|e t1 IH]; simpl; [reflexivity|].
  destruct e; simpl; rewrite IH; reflexivity.
Qed.

Lemma fetches_app t1 t2 : fetches (t1 ++ t2) = fetches t1 ++ fetches t2.
Proof.
  induction t1 as [|e t1 IH]; simpl; [reflexivity|].
  destruct e; simpl; rewrite IH; reflexivity.
Qed.

Lemma In_select p a t : In (Select p a) t <-> In (p, a) (selects t).
Proof.
  induction t as [|e t IH]; simpl; [tauto|].
  destruct e; simpl; rewrite <- IH;
    try (split; [intros [H|H]; [discriminate H | exact H] | auto]; fail).
  split; intros [H|H]; auto; left; congruence.
Qed.

Lemma In_spawn cmd args t : In (Spawn cmd args) t <-> In (cmd, args) (spawns t).
Proof.
  induction t as [|e t IH]; simpl; [tauto|].
  destruct e; simpl; rewrite <- IH;
    try (split; [intros [H|H]; [discriminate H | exact H] | auto]; fail).
  split; intros [H|H]; auto; left; congruence.
Qed.

Lemma In_exec cmd t : In (Exec cmd) t <-> In cmd (execs t).
Proof.
  induction t as [|e t IH]; simpl; [tauto|].
  destruct e; simpl; rewrite <- IH;
    try (split; [intros [H|H]; [discriminate H | exact H] | auto]; fail).
  split; intros [H|H]; auto; left; congruence.
Qed.

Lemma In_fetch qs t : In (Fetch qs) t <-> In qs (fetches t).
Proof.
  induction t as [|e t IH]; simpl; [tauto|].
  destruct e; simpl; rewrite <- IH;
    try (split; [intros [H|H]; [discriminate H | exact H] | auto]; fail).
  split; intros [H|H]; auto; left; congruence.
Qed.

Lemma logs_project t :
  Forall is_log t ->
  execs t = [] /\ selects t = [] /\ spawns t = [] /\ fetches t = [].
Proof.
  induction 1 as [|e t He _ IH]; simpl; [auto|].
  destruct e; simpl in He; try contradiction. exact IH.
Qed.

Lemma views_project pkgs :
  let t := map (fun rawArg => Exec (view_cmd rawArg)) pkgs in
  selects t = [] /\ spawns t = [] /\ fetches t = [] /\ execs t = map view_cmd pkgs.
Proof.
  induction pkgs as [|a rest IH]; simpl; auto.
  destruct IH as (-> & -> & -> & ->). auto.
Qed.

Lemma query_trace_project C :
  execs (query_trace C) = [] /\ selects (query_trace C) = [] /\
  spawns (query_trace C) = [] /\ List.length (fetches (query_trace C)) <= 1.
Proof. unfold query_trace. destruct (queries_of C); simpl; auto. Qed.

Lemma prepared_project w pkgs scan C pre :
  prepared w pkgs scan C pre ->
  selects pre = [] /\ spawns pre = [] /\ fetches pre = [] /\
  execs pre = (if scan then [] else map view_cmd pkgs).
Proof.
  intros [C' Hmode _ _ | C' -> _ _]; simpl.
  - repeat split. destruct scan; [reflexivity|].
    simpl in Hmode. destruct pkgs; [reflexivity | discriminate].
  - destruct (views_project pkgs) as (-> & -> & -> & ->). auto.
Qed.

(** ** Handing over to npm *)

Lemma quiet_join sep xs : quiet (join sep xs).
Proof. unfold join. destruct (join_text sep xs); [apply quiet_ret | apply quiet_throw]. Qed.

Lemma quiet_on_close c d C : quiet (on_close c d C).
Proof.
  unfold on_close. destruct (close_code c =? 0)%Z.
  - apply quiet_bind; [apply quiet_join | intros names].
    apply quiet_bind; [apply quiet_log | intros _].
    destruct (negb d); [apply quiet_log | apply quiet_ret].
  - apply quiet_bind; [apply quiet_log | intros _].
    destruct (not_found c); [apply quiet_log | apply quiet_ret].
Qed.

Lemma named_dec p : {named p} + {~ named p}.
Proof.
  unfold named. destruct (text_of (name p)); [left; discriminate | right; auto].
Qed.

Lemma on_close_closes w pkgs d C :
  closes w pkgs C (result (on_close (npm_install w pkgs) d C)).
Proof.
  unfold closes, on_close, join.
  destruct (close_code (npm_install w pkgs) =? 0)%Z eqn:Ec.
  - apply Z.eqb_eq in Ec.
    destruct (join_text ", " (map name C)) as [names|] eqn:Ej.
    + left. split.
      * rewrite bind_ret_l, bind_emit. cbn [result snd].
        destruct (negb d); reflexivity.
      * right. apply Forall_forall. intros p Hp Hnone.
        unfold join_text in Ej. destruct (join_items (map name C)) as [ss|] eqn:Ei;
          [|discriminate].
        clear Ej. revert ss Ei. induction C as [|q rest IH]; [destruct Hp|].
        cbn [map join_items]. intros ss Ei.
        destruct (join_item (name q)) eqn:Eq; [|discriminate].
        destruct (join_items (map name rest)) eqn:Er; [|discriminate].
        destruct Hp as [-> | Hp].
        -- apply join_item_text in Hnone. congruence.
        -- apply (IH Hp l eq_refl).
    + right. split; [reflexivity|]. split; [exact Ec|].
      destruct (join_text_none _ _ Ej) as (v & Hin & Hv).
      apply in_map_iff in Hin as (p & <- & Hp). exists p. split; [exact Hp|].
      intros Hn. apply Hn. exact Hv.
  - left. apply Z.eqb_neq in Ec. split; [|left; exact Ec].
    rewrite bind_emit. cbn [result snd].
    destruct (not_found (npm_install w pkgs)); reflexivity.
Qed.

Lemma hand_over_shape w pkgs d C :
  exists rest,
    hand_over w pkgs d C
    = (ConsoleLog HandingOver :: Spawn "npm" ("install" :: pkgs) :: rest,
       result (on_close (npm_install w pkgs) d C))
    /\ Forall is_log rest.
Proof.
  unfold hand_over. rewrite !bind_emit. cbn [trace result fst snd].
  exists (trace (on_close (npm_install w pkgs) d C)). split; [reflexivity|].
  apply quiet_on_close.
Qed.

Lemma hand_over_project w pkgs d C :
  let m := hand_over w pkgs d C in
  execs (trace m) = [] /\ selects (trace m) = [] /\
  spawns (trace m) = [("npm", "install" :: pkgs)] /\ fetches (trace m) = [] /\
  closes w pkgs C (result m).
Proof.
  destruct (hand_over_shape w pkgs d C) as (rest & -> & Hlog).
  destruct (logs_project _ Hlog) as (He & Hs & Hp & Hf).
  cbn [trace result fst snd execs selects spawns fetches].
  rewrite He, Hs, Hp, Hf. repeat split. apply on_close_closes.
Qed.

(** Normalising the projections of a composed trace. *)
Ltac project :=
  repeat (rewrite ?execs_app, ?selects_app, ?spawns_app, ?fetches_app;
          cbn [execs selects spawns fetches app trace result fst snd]).

(** Membership in a composed trace, by search. *)
Ltac find_in :=
  first [ assumption
        | apply in_eq
        | apply in_cons; find_in
        | apply in_or_app; left; find_in
        | apply in_or_app; right; find_in ].

Lemma closes_result w pkgs C o :
  closes w pkgs C o ->
  o = Ret tt \/ (o = Throw TypeError /\ close_code (npm_install w pkgs) = 0%Z).
Proof. intros [[-> _] | (-> & Hc & _)]; auto. Qed.

Lemma after_report_project w pkgs scan C o :
  let m := after_report w pkgs scan C o in
  execs (trace m) = [] /\ selects (trace m) = [] /\ fetches (trace m) = [] /\
  (forall b, o = Ret b ->
     if scan then m = ([ConsoleLog ScanComplete], Ret tt)
     else spawns (trace m) = [("npm", "install" :: pkgs)] /\ closes w pkgs C (result m)) /\
  (forall c, o = Exit c -> result m = Exit c /\ spawns (trace m) = []) /\
  (forall e, o = Throw e -> result m = Throw e /\ spawns (trace m) = []).
Proof.
  destruct (hand_over_project w pkgs (List.length pkgs =? 0)%nat C)
    as (He & Hs & Hp & Hf & Hr).
  destruct o as [b|c|e]; simpl.
  - destruct scan; simpl; rewrite ?He, ?Hs, ?Hf; repeat split; auto; try discriminate.
  - repeat split; auto; try discriminate; congruence.
  - repeat split; auto; try discriminate; congruence.
Qed.

Lemma uninstall_trace_project w names shown :
  execs (uninstall_trace w names shown) = [("npm uninstall " ++ names)%string] /\
  selects (uninstall_trace w names shown) = [] /\
  spawns (uninstall_trace w names shown) = [] /\
  fetches (uninstall_trace w names shown) = [] /\
  (npm_uninstall w ("npm uninstall " ++ names)%string = false ->
   In (SpinnerFail UninstallFailed) (uninstall_trace w names shown) /\
   In (ConsoleError ExecError) (uninstall_trace w names shown)).
Proof.
  unfold uninstall_trace.
  destruct (npm_uninstall w ("npm uninstall " ++ names)); simpl; repeat split;
    auto; discriminate.
Qed.

Lemma after_report_returns w pkgs scan C b :
  let m := after_report w pkgs scan C (Ret b) in
  result m = Ret tt \/
  (scan = false /\ result m = Throw TypeError /\
   close_code (npm_install w pkgs) = 0%Z).
Proof.
  destruct (after_report_project w pkgs scan C (Ret b)) as (_ & _ & _ & HaR & _).
  specialize (HaR b eq_refl). cbv zeta. destruct scan.
  - rewrite HaR. left. reflexivity.
  - destruct HaR as [_ Hc]. apply closes_result in Hc as [Hr | [Hr Hc]]; auto.
Qed.

(** Every run of the action ends in one of the five ways of [ending]. *)
Lemma install_action_ending w pkgs scan :
  ending w pkgs scan (Cli.install_action w pkgs scan).
Proof.
  destruct (install_action_cases w pkgs scan)
    as [(_ & _ & Hrun) | (C & pre & vr & t & o & Hpre & Hvr & Hrep & Hrun)];
    rewrite Hrun; clear Hrun.
  - apply NoPrompt; simpl; auto.
  - destruct (prepared_project _ _ _ _ _ Hpre) as (Hps & Hpp & _ & Hpe).
    destruct (query_trace_project C) as (Hqe & Hqs & Hqp & _).
    destruct (after_report_project w pkgs scan C o) as (Hae & Has & _ & _ & HaE & HaT).
    pose proof (report_cases w vr C scan) as Hcases. cbv zeta in Hcases.
    rewrite Hrep in Hcases.
    destruct Hcases as [(_ & Ht) | [(_ & _ & Ht) | [(rs & _ & _ & Ht) | (rs & Hrs & _ & Hfl)]]].
    + injection Ht as -> ->. apply NoPrompt; project; rewrite ?Hps, ?Hqs, ?Has; auto.
      destruct (after_report_returns w pkgs scan C false) as [Hr | (_ & Hr & Hc)]; auto.
    + injection Ht as -> ->.
      apply NoPrompt; project; rewrite ?Hps, ?Hpp, ?Hqs, ?Hqp, ?Has; auto;
        try (right; left; destruct (HaT TypeError eq_refl) as [-> ->]; auto).
    + injection Ht as -> ->. apply NoPrompt; project; rewrite ?Hps, ?Hqs, ?Has; auto.
      destruct (after_report_returns w pkgs scan C true) as [Hr | (_ & Hr & Hc)]; auto.
    + inversion Hfl as [t' Hlog _ | t' p Hlog Hpeq Hop | t' p Hlog Hpeq Hop
                        | t' Hlog Hscan Hop | t' pkgNames names shown Hlog Hscan Hop Hn Hj Hsh];
        subst t o; destruct (logs_project _ Hlog) as (He & Hs & Hp & _).
      * destruct (HaT TypeError eq_refl) as [Hr Hsp].
        apply NoPrompt; project; rewrite ?Hps, ?Hpp, ?Hqs, ?Hqp, ?Has, ?Hs, ?Hp, ?Hsp; auto.
      * destruct (HaT PromptClosed eq_refl) as [Hr Hsp].
        apply (PromptClosedEnd _ _ _ _ p); project;
          rewrite ?Hps, ?Hpp, ?Hqs, ?Hqp, ?Has, ?Hs, ?Hp, ?Hsp; auto.
      * apply (IgnoreEnd _ _ _ _ p); project; rewrite ?Hps, ?Hqs, ?Has, ?Hs; auto.
        apply (after_report_returns w pkgs scan C true).
      * destruct (HaE 1%Z eq_refl) as [Hr Hsp].
        apply AbortEnd; project; rewrite ?Hps, ?Hpp, ?Hqs, ?Hqp, ?Has, ?Hs, ?Hp, ?Hsp; auto.
      * destruct (HaE 0%Z eq_refl) as [Hr Hsp].
        destruct (uninstall_trace_project w names shown) as (Hue & Hus & Hup & _ & Huf).
        assert (HC : result (extractPkgNames w) = Ret C).
        { inversion Hpre; subst; [assumption | congruence]. }
        apply (UninstallEnd _ _ _ _ C vr rs pkgNames names shown); auto; project;
          rewrite ?Hps, ?Hpp, ?Hqs, ?Hqp, ?Hqe, ?Has, ?Hae, ?Hs, ?Hp, ?He, ?Hsp,
            ?Hue, ?Hus, ?Hup, ?Hpe; subst scan; auto.
        intros Hfail. destruct (Huf Hfail) as [H1 H2].
        split; find_in.
Qed.

(** ** The flagged list *)

Lemma In_mapi_from {A B} (f : nat -> A -> B) (xs : list A) (k : nat) (y : B) :
  In y (mapi_from k f xs) <-> exists i x, nth_error xs i = Some x /\ y = f (k + i) x.
Proof.
  revert k. induction xs as [|x rest IH]; intros k; simpl.
  - split; [tauto|]. intros (i & x & H & _). destruct i; discriminate.
  - rewrite IH. split.
    + intros [<- | (i & x' & Hi & ->)].
      * exists 0, x. rewrite Nat.add_0_r. auto.
      * exists (S i), x'. rewrite Nat.add_succ_r. auto.
    + intros ([|i] & x' & Hi & ->); simpl in Hi.
      * injection Hi as ->. left. rewrite Nat.add_0_r. reflexivity.
      * right. exists i, x'. rewrite Nat.add_succ_r. auto.
Qed.

(** An entry is flagged exactly when it comes from a position of
    [results] whose [vulns] is truthy; it is paired with the candidate at
    the same position, whatever the two lengths. *)
Lemma In_foundVulns rs C v :
  In v (foundVulns rs C) <->
  exists i r, nth_error rs i = Some r /\ truthy (own r "vulns") = true /\
              v = attach C i r.
Proof.
  unfold foundVulns, mapi. rewrite filter_In, In_mapi_from. split.
  - intros ((i & r & Hi & ->) & Ht). exists i, r. auto.
  - intros (i & r & Hi & Ht & ->). split; [exists i, r; auto | exact Ht].
Qed.

Lemma mapM_names found pkgNames :
  mapM originalPkg_name found = ([], Ret pkgNames) ->
  forall n, In n pkgNames <->
            exists v p, In v found /\ originalPkg v = Some p /\ name p = n.
Proof.
  revert pkgNames. induction found as [|v rest IH]; intros names H n.
  - simpl in H. injection H as <-. simpl. split; [tauto|].
    intros (? & ? & [] & _).
  - cbn [mapM] in H. unfold originalPkg_name at 1 in H.
    destruct (originalPkg v) as [p|] eqn:Ep; [|discriminate].
    rewrite bind_ret_l in H.
    destruct (mapM originalPkg_name rest) as [t [names'|c|e]] eqn:Er;
      simpl in H; try discriminate.
    injection H as Ht <-. rewrite app_nil_r in Ht. subst t. specialize (IH names' eq_refl n).
    simpl. rewrite IH. split.
    + intros [<- | (v' & p' & Hin & Hp & Hn)]; [exists v, p | exists v', p']; auto.
    + intros (v' & p' & [<- | Hin] & Hp & Hn).
      * left. congruence.
      * right. exists v', p'. auto.
Qed.

(** The names handed to [uninstallPackages] are the names of the
    candidates at the flagged positions. *)
Lemma flagged_names rs C pkgNames :
  mapM originalPkg_name (foundVulns rs C) = ([], Ret pkgNames) ->
  forall n, In n pkgNames <->
            exists i r p, nth_error rs i = Some r /\
                          truthy (own r "vulns") = true /\
                          nth_error C i = Some p /\ name p = n.
Proof.
  intros H n. rewrite (mapM_names _ _ H). split.
  - intros (v & p & Hin & Hp & Hn). apply In_foundVulns in Hin as (i & r & Hi & Ht & ->).
    exists i, r, p. auto.
  - intros (i & r & p & Hi & Ht & Hp & Hn). exists (attach C i r), p.
    split; [apply In_foundVulns; exists i, r; auto | auto].
Qed.

Lemma no_spawns {A} (m : M A) :
  spawns (trace m) = [] -> forall cmd args, ~ In (Spawn cmd args) (trace m).
Proof. intros E cmd args H. apply In_spawn in H. rewrite E in H. exact H. Qed.

(** ** Reaching the prompt *)

Lemma own_some_truthy vr k x : own vr k = Some x -> truthy (Some vr) = true.
Proof. destruct vr; simpl; try discriminate. reflexivity. Qed.

Lemma text_or_absent_text v : text_or_absent v = true -> text_of v <> None.
Proof. destruct v as [[]|]; simpl; intros H; discriminate. Qed.

Lemma or_else_text v s :
  text_or_absent v = true -> text_of (Some (or_else v (JStr s))) <> None.
Proof.
  destruct v as [[| | |x| |]|]; simpl; intros H; try discriminate.
  destruct (negb (x =? "")); discriminate.
Qed.

(** A record in the shape the OSV endpoint sends is rendered without
    exception. *)
Lemma render_vuln_ret vuln :
  osv_record vuln = true -> result (Cli.render_vuln vuln) = Ret tt.
Proof.
  unfold osv_record. destruct vuln as [| | | | |ms]; try discriminate.
  intros H. apply andb_prop in H as [H Hd]. apply andb_prop in H as [Hid Hsum].
  unfold Cli.render_vuln. cbn [get]. rewrite bind_ret_l. cbv zeta.
  set (severity := or_else (opt_chain (own (JObj ms) "database_specific") "severity")
                           (JStr "UNKNOWN")).
  assert (Hsev : text_of (Some severity) <> None).
  { unfold severity. destruct (own (JObj ms) "database_specific") as [[| | | | |d]|];
      try discriminate.
    apply or_else_text. exact Hd. }
  destruct (text_of (Some severity)) as [s1|] eqn:E1; [|contradiction].
  rewrite (toString_run _ _ E1), bind_ret_l.
  pose proof (or_else_text _ "No summary available" Hsum) as Hs.
  destruct (text_of (Some (or_else (own (JObj ms) "summary") (JStr "No summary available"))))
    as [s2|] eqn:E2; [|contradiction].
  rewrite (toString_run _ _ E2), bind_ret_l, bind_emit.
  pose proof (text_or_absent_text _ Hid) as Hi.
  destruct (text_of (own (JObj ms) "id")) as [s3|] eqn:E3; [|contradiction].
  rewrite (toString_run _ _ E3), bind_ret_l. reflexivity.
Qed.

(** An answer in the shape the OSV endpoint sends, no longer than the
    candidate list, for candidates whose names have a text, is rendered
    without exception. *)
Lemma render_ret rs C :
  List.length rs <= List.length C -> forallb osv_shaped rs = true ->
  Forall named C ->
  result (forEach Cli.render_entry (foundVulns rs C)) = Ret tt.
Proof.
  intros Hlen Hshape Hnamed. apply forEach_ret. intros v Hv.
  apply In_foundVulns in Hv as (i & r & Hi & Ht & ->).
  assert (Hlt : i < List.length C).
  { apply Nat.lt_le_trans with (List.length rs); [|exact Hlen].
    apply nth_error_Some. congruence. }
  destruct (nth_error C i) as [p|] eqn:Ep; [|apply nth_error_None in Ep; lia].
  rewrite forallb_forall in Hshape.
  specialize (Hshape r (nth_error_In _ _ Hi)). unfold osv_shaped in Hshape.
  rewrite Forall_forall in Hnamed. specialize (Hnamed p (nth_error_In _ _ Ep)).
  unfold named in Hnamed.
  unfold Cli.render_entry, originalPkg_name, attach. cbn [originalPkg vulns].
  rewrite Ep, bind_ret_l.
  destruct (text_of (name p)) as [s|] eqn:Es; [|contradiction].
  rewrite (toString_run _ _ Es), bind_ret_l, bind_emit. cbn [result snd].
  destruct (own r "vulns") as [[| | | |items|]|]; try discriminate.
  cbn [as_array]. rewrite bind_ret_l. apply forEach_ret.
  intros vuln Hin. apply render_vuln_ret.
  rewrite forallb_forall in Hshape. apply Hshape. exact Hin.
Qed.

Lemma candidates_prepared w pkgs scan C C' pre :
  candidates w pkgs scan C -> prepared w pkgs scan C' pre -> C' = C.
Proof.
  unfold candidates. intros Hcand Hpre.
  inversion Hpre as [C0 Hmode HC Hne | C0 Hscan Hpk HC]; subst.
  - rewrite Hmode in Hcand. destruct Hcand as [HC' _]. congruence.
  - destruct pkgs; [contradiction|]. simpl in Hcand. congruence.
Qed.

(** A run that reaches the security check, in terms of its report. *)
Lemma run_of_candidates w pkgs scan C vr :
  candidates w pkgs scan C ->
  result (vulnsCheck w C) = Ret vr ->
  exists pre,
    prepared w pkgs scan C pre /\
    Cli.install_action w pkgs scan
    = (pre ++ SpinnerSucceed (PreparedList (List.length C))
         :: SpinnerStart CheckingVulns
         :: query_trace C ++ trace (Cli.processVulnerabilityReport w vr C scan)
         ++ trace (after_report w pkgs scan C
                     (result (Cli.processVulnerabilityReport w vr C scan))),
       result (after_report w pkgs scan C
                 (result (Cli.processVulnerabilityReport w vr C scan)))).
Proof.
  intros Hcand Hvr.
  destruct (install_action_cases w pkgs scan)
    as [(Hmode & Hempty & _) | (C' & pre & vr' & t & o & Hpre & Hvr' & Hrep & Hrun)].
  - unfold candidates in Hcand. rewrite Hmode in Hcand. destruct Hcand as [HC Hne].
    rewrite Hempty in HC. injection HC as <-. contradiction.
  - pose proof (candidates_prepared _ _ _ _ _ _ Hcand Hpre) as ->.
    rewrite Hvr in Hvr'. injection Hvr' as <-.
    exists pre. split; [exact Hpre|]. rewrite Hrep. exact Hrun.
Qed.

(** The run of the action on a candidate list with a flagged entry. *)
Lemma run_flagged w pkgs scan C vr rs :
  candidates w pkgs scan C ->
  result (vulnsCheck w C) = Ret vr ->
  own vr "results" = Some (JArr rs) ->
  foundVulns rs C <> [] ->
  exists pre t o,
    prepared w pkgs scan C pre /\
    flagged_run w scan (foundVulns rs C) (t, o) /\
    Cli.install_action w pkgs scan
    = (pre ++ SpinnerSucceed (PreparedList (List.length C))
         :: SpinnerStart CheckingVulns
         :: query_trace C ++ t ++ trace (after_report w pkgs scan C o),
       result (after_report w pkgs scan C o)).
Proof.
  intros Hcand Hvr Hrs Hfound.
  destruct (run_of_candidates w pkgs scan C vr Hcand Hvr) as (pre & Hpre & Hrun).
  destruct (Cli.processVulnerabilityReport w vr C scan) as [t o] eqn:Hrep.
  exists pre, t, o. split; [exact Hpre|]. split; [|exact Hrun].
  pose proof (report_cases w vr C scan) as Hcases. cbv zeta in Hcases.
  rewrite Hrep, Hrs, (own_some_truthy _ _ _ Hrs) in Hcases.
  destruct Hcases as [(Hf & _) | [(_ & Hna & _) | [(rs' & Hrs' & He & _) | (rs' & Hrs' & _ & Hfl)]]].
  - discriminate Hf.
  - exfalso. apply (Hna rs). reflexivity.
  - injection Hrs' as <-. contradiction.
  - injection Hrs' as <-. exact Hfl.
Qed.

(** When the rendering loop completes and the operator takes the first
    choice, the prompt of the mode is in the trace with that answer. *)
Lemma first_choice_selected w pkgs scan C vr rs :
  candidates w pkgs scan C ->
  result (vulnsCheck w C) = Ret vr ->
  own vr "results" = Some (JArr rs) ->
  foundVulns rs C <> [] ->
  result (forEach Cli.render_entry (foundVulns rs C)) = Ret tt ->
  operator w (if scan then ScanPrompt else InstallPrompt) = Some First ->
  In (Select (if scan then ScanPrompt else InstallPrompt)
             (Some (if scan then "uninstall" else "abort")))
     (trace (Cli.install_action w pkgs scan)).
Proof.
  intros Hcand Hvr Hrs Hfound Hrender Hop.
  destruct (run_flagged _ _ _ _ _ _ Hcand Hvr Hrs Hfound)
    as (pre & t & o & _ & Hfl & ->).
  cbn [trace fst].
  inversion Hfl as [t' Hlog Hthrow | t' p Hlog Hpeq Hop' | t' p Hlog Hpeq Hop'
                    | t' Hlog Hscan Hop' | t' pkgNames names shown Hlog Hscan Hop' Hn Hj Hsh];
    subst.
  - rewrite Hrender in Hthrow. discriminate.
  - rewrite Hop in Hop'. discriminate.
  - rewrite Hop in Hop'. discriminate.
  - find_in.
  - find_in.
Qed.

(** ** The runs of [src/index.js] *)

Lemma report_ret rs C :
  List.length rs <= List.length C -> Forall named C -> Forall counted rs ->
  result (forEach IndexJs.report_entry (foundVulns rs C)) = Ret tt.
Proof.
  intros Hlen Hnamed Hcounted. apply forEach_ret. intros v Hv.
  apply In_foundVulns in Hv as (i & r & Hi & Ht & ->).
  assert (Hlt : i < List.length C).
  { apply Nat.lt_le_trans with (List.length rs); [|exact Hlen].
    apply nth_error_Some. congruence. }
  destruct (nth_error C i) as [p|] eqn:Ep; [|apply nth_error_None in Ep; lia].
  rewrite Forall_forall in Hnamed. specialize (Hnamed p (nth_error_In _ _ Ep)).
  rewrite Forall_forall in Hcounted. specialize (Hcounted r (nth_error_In _ _ Hi)).
  unfold named in Hnamed. unfold counted in Hcounted.
  unfold IndexJs.report_entry, originalPkg_name, attach. cbn [originalPkg vulns].
  rewrite Ep, bind_ret_l.
  destruct (text_of (name p)) as [s|] eqn:Es; [|contradiction].
  rewrite (toString_run _ _ Es), bind_ret_l.
  destruct (own r "vulns") as [[| | | | |ms]|] eqn:Ev; try discriminate;
    cbn [IndexJs.get_length]; rewrite bind_ret_l; try reflexivity.
  cbn [own]. specialize (Hcounted ms eq_refl).
  destruct (text_of (assoc "length" ms)) as [n|] eqn:En; [|contradiction].
  rewrite (toString_run _ _ En), bind_ret_l. reflexivity.
Qed.

(** The four ways the security check of [src/index.js] can go. *)
Lemma security_check_cases vr C :
  let m := IndexJs.security_check vr C in
  (truthy (Some vr) && truthy (own vr "results") = false /\
   m = ([SpinnerFail ApiError], Ret tt))
  \/ (truthy (own vr "results") = true /\
      (forall rs, own vr "results" <> Some (JArr rs)) /\
      m = ([], Throw TypeError))
  \/ (exists rs, own vr "results" = Some (JArr rs) /\ foundVulns rs C = [] /\
      m = ([SpinnerSucceed NoKnownVulns], Ret tt))
  \/ (exists rs t, own vr "results" = Some (JArr rs) /\ foundVulns rs C <> [] /\
      Forall is_log t /\
      ((result (forEach IndexJs.report_entry (foundVulns rs C)) = Ret tt /\
        m = (SpinnerWarn (FoundVulns (List.length (foundVulns rs C))) :: t
               ++ [ConsoleLog AbortingInstallation], Exit 1%Z))
       \/ (result (forEach IndexJs.report_entry (foundVulns rs C)) = Throw TypeError /\
           m = (SpinnerWarn (FoundVulns (List.length (foundVulns rs C))) :: t,
                Throw TypeError)))).
Proof.
  intros m. subst m. unfold IndexJs.security_check.
  destruct (truthy (Some vr)) eqn:Hvr; cbn [andb]; [|left; split; reflexivity].
  destruct (truthy (own vr "results")) eqn:Hres; [|left; split; reflexivity].
  right.
  destruct (own vr "results") as [[| | | |rs|]|] eqn:Eres;
    try (left; split; [reflexivity|]; split; [discriminate | reflexivity]).
  right. unfold as_array. rewrite bind_ret_l. cbv zeta.
  destruct (foundVulns rs C) as [|v found] eqn:Ef.
  - left. exists rs. auto.
  - right.
    change (0 <? List.length (v :: found))%nat with true. cbv iota.
    destruct (quiet_cases _ (quiet_forEach _ (v :: found) quiet_report_entry))
      as (t & Hlog & [([] & Efe) | Efe]); exists rs, t; rewrite Ef, Efe;
      (split; [reflexivity|]); (split; [discriminate|]); (split; [exact Hlog|]).
    + left. split; reflexivity.
    + right. split; reflexivity.
Qed.

(** What the action of [src/index.js] does after the security check has
    ended with outcome [o]. *)
Lemma index_js_run w pkgs :
  exists C pre vr t o,
    index_candidates w pkgs C /\
    selects pre = [] /\ spawns pre = [] /\ List.length (fetches pre) <= 1 /\
    result (vulnsCheck w C) = Ret vr /\
    IndexJs.security_check vr C = (t, o) /\
    IndexJs.install_action w pkgs
    = match o with
      | Ret _ =>
          (pre ++ t ++ trace (hand_over w pkgs (List.length pkgs =? 0)%nat C),
           result (hand_over w pkgs (List.length pkgs =? 0)%nat C))
      | Exit c => (pre ++ t, Exit c)
      | Throw e => (pre ++ t, Throw e)
      end.
Proof.
  unfold IndexJs.install_action, index_candidates. cbv zeta.
  set (d := (List.length pkgs =? 0)%nat).
  assert (Hprep : exists C tp,
             (if d then emit (SpinnerText ReadingPackageJson) ;; extractPkgNames w
              else emit (SpinnerText (FetchingLatestVersions (List.length pkgs))) ;;
                   fetchPackageVersions w pkgs) = (tp, Ret C) /\
             (if d then result (extractPkgNames w) = Ret C
              else result (fetchPackageVersions w pkgs) = Ret C) /\
             selects tp = [] /\ spawns tp = [] /\ fetches tp = []).
  { destruct d.
    - destruct (extractPkgNames_run w) as (C & HC). exists C. rewrite HC.
      eexists. split; [reflexivity|]. auto.
    - rewrite fetchPackageVersions_run. eexists. eexists. split; [reflexivity|].
      split; [reflexivity|]. destruct (views_project pkgs) as (Hs & Hp & Hf & _).
      cbn [selects spawns fetches]. auto. }
  destruct Hprep as (C & tp & Hprep & Hcand & Hps & Hpp & Hpf).
  rewrite Hprep.
  destruct (vulnsCheck_run w C) as (vr & Hvr & _).
  destruct (IndexJs.security_check vr C) as [t o] eqn:Hsc.
  destruct (query_trace_project C) as (_ & Hqs & Hqp & Hqf).
  exists C,
    (SpinnerStart PreparingPackageList :: tp
       ++ SpinnerSucceed PackageListPrepared :: SpinnerStart CheckingVulns :: query_trace C),
    vr, t, o.
  split; [exact Hcand|].
  split; [project; rewrite Hps, Hqs; reflexivity|].
  split; [project; rewrite Hpp, Hqp; reflexivity|].
  split; [project; rewrite Hpf; exact Hqf|].
  split; [rewrite Hvr; reflexivity|]. split; [exact Hsc|].
  rewrite bind_emit. rewrite (bind_run _ _ tp C eq_refl), !bind_emit.
  rewrite (bind_run _ _ (query_trace C) vr Hvr). rewrite Hsc.
  cbn [trace result fst snd].
  destruct o as [[]|c|e]; cbn [bind trace result fst snd].
  - destruct (hand_over w pkgs d C) as [th oh]. cbn [trace result fst snd].
    f_equal. simpl. rewrite <- !app_assoc. simpl. reflexivity.
  - f_equal. simpl. rewrite <- !app_assoc. simpl. reflexivity.
  - f_equal. simpl. rewrite <- !app_assoc. simpl. reflexivity.
Qed.

Lemma security_check_project vr C :
  selects (trace (IndexJs.security_check vr C)) = [] /\
  spawns (trace (IndexJs.security_check vr C)) = [] /\
  fetches (trace (IndexJs.security_check vr C)) = [] /\
  execs (trace (IndexJs.security_check vr C)) = [].
Proof.
  pose proof (security_check_cases vr C) as H. cbv zeta in H.
  destruct H as [(_ & ->) | [(_ & _ & ->) | [(rs & _ & _ & ->)
                 | (rs & t & _ & _ & Hlog & [(_ & ->) | (_ & ->)])]]];
    try (repeat split; reflexivity);
    destruct (logs_project _ Hlog) as (He & Hs & Hp & Hf); project;
    rewrite ?Hs, ?Hp, ?Hf, ?He; repeat split; reflexivity.
Qed.

Lemma index_candidates_unique w pkgs C C' :
  index_candidates w pkgs C -> index_candidates w pkgs C' -> C' = C.
Proof.
  unfold index_candidates. destruct (List.length pkgs =? 0)%nat; congruence.
Qed.

(** The run of [src/index.js] on its candidate list, in terms of its
    security check. *)
Lemma index_js_run_of_candidates w pkgs C vr :
  index_candidates w pkgs C ->
  result (vulnsCheck w C) = Ret vr ->
  exists pre,
    selects pre = [] /\ spawns pre = [] /\
    IndexJs.install_action w pkgs
    = match result (IndexJs.security_check vr C) with
      | Ret _ =>
          (pre ++ trace (IndexJs.security_check vr C)
             ++ trace (hand_over w pkgs (List.length pkgs =? 0)%nat C),
           result (hand_over w pkgs (List.length pkgs =? 0)%nat C))
      | Exit c => (pre ++ trace (IndexJs.security_check vr C), Exit c)
      | Throw e => (pre ++ trace (IndexJs.security_check vr C), Throw e)
      end.
Proof.
  intros Hcand Hvr.
  destruct (index_js_run w pkgs)
    as (C' & pre & vr' & t & o & Hcand' & Hps & Hpp & _ & Hvr' & Hsc & Hrun).
  pose proof (index_candidates_unique _ _ _ _ Hcand Hcand') as ->.
  rewrite Hvr in Hvr'. injection Hvr' as <-.
  exists pre. rewrite Hsc. auto.
Qed.

(** A run of [src/index.js] either hands over to npm, or ends before any
    child is started, in [process.exit(1)] or with a [TypeError]. *)
Lemma index_js_ending w pkgs :
  (spawns (trace (IndexJs.install_action w pkgs)) = [("npm", "install" :: pkgs)] /\
   (result (IndexJs.install_action w pkgs) = Ret tt \/
    (result (IndexJs.install_action w pkgs) = Throw TypeError /\
     close_code (npm_install w pkgs) = 0%Z))) \/
  (spawns (trace (IndexJs.install_action w pkgs)) = [] /\
   (result (IndexJs.install_action w pkgs) = Exit 1%Z \/
    result (IndexJs.install_action w pkgs) = Throw TypeError)).
Proof.
  destruct (index_js_run w pkgs)
    as (C & pre & vr & t & o & _ & _ & Hpp & _ & _ & Hsc & ->).
  destruct (security_check_project vr C) as (_ & Hsp & _). rewrite Hsc in Hsp.
  cbn [trace fst] in Hsp.
  pose proof (security_check_cases vr C) as H. cbv zeta in H. rewrite Hsc in H.
  destruct o as [[]|c|e].
  - left.
    destruct (hand_over_project w pkgs (List.length pkgs =? 0)%nat C)
      as (_ & _ & Hhp & _ & Hc).
    project. rewrite Hpp, Hsp, Hhp. split; [reflexivity|].
    apply closes_result in Hc. exact Hc.
  - right. project. rewrite Hpp, Hsp. split; [reflexivity|]. left.
    destruct H as [(_ & [=]) | [(_ & _ & [=]) | [(rs & _ & _ & [=])
                   | (rs & t' & _ & _ & _ & [(_ & [= _ <-]) | (_ & [=])])]]].
    reflexivity.
  - right. project. rewrite Hpp, Hsp. split; [reflexivity|]. right.
    destruct H as [(_ & [=]) | [(_ & _ & [= _ <-]) | [(rs & _ & _ & [=])
                   | (rs & t' & _ & _ & _ & [(_ & [=]) | (_ & [= _ <-])])]]];
      reflexivity.
Qed.

(** [src/index.js] ends in [process.exit(1)] only after its own abort
    message. *)
Lemma index_js_exit w pkgs :
  result (IndexJs.install_action w pkgs) = Exit 1%Z ->
  In (ConsoleLog AbortingInstallation) (trace (IndexJs.install_action w pkgs)).
Proof.
  destruct (index_js_run w pkgs)
    as (C & pre & vr & t & o & _ & _ & _ & _ & _ & Hsc & ->).
  pose proof (security_check_cases vr C) as H. cbv zeta in H. rewrite Hsc in H.
  destruct o as [[]|c|e]; cbn [result snd trace fst].
  - destruct (hand_over_project w pkgs (List.length pkgs =? 0)%nat C)
      as (_ & _ & _ & _ & Hc).
    apply closes_result in Hc as [-> | [-> _]]; discriminate.
  - intros _.
    destruct H as [(_ & [=]) | [(_ & _ & [=]) | [(rs & _ & _ & [=])
                   | (rs & t' & _ & _ & _ & [(_ & [= -> _]) | (_ & [=])])]]].
    find_in.
  - discriminate.
Qed.

(** In [src/index.js] a flagged entry ends the run before npm is started. *)
Lemma index_js_abort w pkgs C vr rs :
  index_candidates w pkgs C ->
  result (vulnsCheck w C) = Ret vr ->
  own vr "results" = Some (JArr rs) ->
  foundVulns rs C <> [] ->
  (forall cmd args, ~ In (Spawn cmd args) (trace (IndexJs.install_action w pkgs))) /\
  (result (IndexJs.install_action w pkgs) = Exit 1%Z \/
   result (IndexJs.install_action w pkgs) = Throw TypeError) /\
  (result (forEach IndexJs.report_entry (foundVulns rs C)) = Ret tt ->
   result (IndexJs.install_action w pkgs) = Exit 1%Z) /\
  (result (forEach IndexJs.report_entry (foundVulns rs C)) <> Ret tt ->
   result (IndexJs.install_action w pkgs) = Throw TypeError).
Proof.
  intros Hcand Hvr Hrs Hfound.
  destruct (index_js_run_of_candidates w pkgs C vr Hcand Hvr) as (pre & _ & Hpp & Hrun).
  destruct (security_check_project vr C) as (_ & Hsp & _).
  pose proof (security_check_cases vr C) as H. cbv zeta in H.
  rewrite Hrs, (own_some_truthy _ _ _ Hrs) in H.
  destruct H as [(Hf & _) | [(_ & Hna & _) | [(rs' & Hrs' & He & _)
                 | (rs' & t' & Hrs' & _ & _ & Hend)]]].
  - discriminate Hf.
  - exfalso. apply (Hna rs). reflexivity.
  - injection Hrs' as <-. contradiction.
  - injection Hrs' as <-.
    destruct Hend as [(Hret & Hsc) | (Hthrow & Hsc)];
      rewrite Hsc in Hrun, Hsp; cbn [trace result fst snd] in Hrun, Hsp;
      (split; [apply no_spawns; rewrite Hrun; cbn [trace fst];
               rewrite spawns_app, Hpp, Hsp; reflexivity|]);
      rewrite Hrun; cbn [result snd].
    + split; [left; reflexivity|]. split; [reflexivity|].
      intros Hn. contradiction.
    + split; [right; reflexivity|]. split; [|reflexivity].
      intros Hr. rewrite Hr in Hthrow. discriminate.
Qed.

(** ** Abort, uninstall, and what the process returns *)

(** C1: in install mode, once the operator answers "abort" at the prompt
    shown for confirmed vulnerabilities, the process ends in
    [process.exit(1)] and no child process is ever started: npm install is
    not reached.  In terms of the inputs: for every candidate list and every
    oracle response with a flagged entry, if "abort" is what the operator
    answers, npm install is not reached; and when the response has the shape
    the oracle sends and is no longer than the candidate list, and the names
    of the candidates have a text, the prompt is reached and the process
    ends in [process.exit(1)].  The CLI of [src/index.js] has no prompt and
    aborts by itself: with a flagged entry npm install is not reached, and
    the process ends in [process.exit(1)] when the response is no longer
    than the candidate list and the names and counts it prints have a
    text. *)
Theorem abort_never_installs w pkgs :
  (forall scan,
     In (Select InstallPrompt (Some "abort")) (trace (Cli.install_action w pkgs scan)) ->
     result (Cli.install_action w pkgs scan) = Exit 1%Z /\
     forall cmd args, ~ In (Spawn cmd args) (trace (Cli.install_action w pkgs scan))) /\
  (forall C vr rs,
     candidates w pkgs false C ->
     result (vulnsCheck w C) = Ret vr ->
     own vr "results" = Some (JArr rs) ->
     foundVulns rs C <> [] ->
     operator w InstallPrompt = Some First ->
     (forall cmd args, ~ In (Spawn cmd args) (trace (Cli.install_action w pkgs false))) /\
     (List.length rs <= List.length C -> forallb osv_shaped rs = true ->
      Forall named C ->
      In (Select InstallPrompt (Some "abort")) (trace (Cli.install_action w pkgs false)) /\
      result (Cli.install_action w pkgs false) = Exit 1%Z)) /\
  (forall C vr rs,
     index_candidates w pkgs C ->
     result (vulnsCheck w C) = Ret vr ->
     own vr "results" = Some (JArr rs) ->
     foundVulns rs C <> [] ->
     (forall cmd args, ~ In (Spawn cmd args) (trace (IndexJs.install_action w pkgs))) /\
     (List.length rs <= List.length C -> Forall named C -> Forall counted rs ->
      result (IndexJs.install_action w pkgs) = Exit 1%Z)).
Proof.
  assert (Hevent : forall scan,
     In (Select InstallPrompt (Some "abort")) (trace (Cli.install_action w pkgs scan)) ->
     result (Cli.install_action w pkgs scan) = Exit 1%Z /\
     forall cmd args, ~ In (Spawn cmd args) (trace (Cli.install_action w pkgs scan))).
  { intros scan Hsel. apply In_select in Hsel.
    destruct (install_action_ending w pkgs scan)
      as [Hs _ | p Hs _ _ | p Hs _ | _ Hs Hp Hr
          | C vr rs pkgNames names shown _ Hs _ _ _ _ _ _ _ _ _ _];
      rewrite Hs in Hsel; simpl in Hsel;
      try contradiction; try (destruct Hsel as [H|[]]; discriminate H).
    split; [exact Hr | apply no_spawns; exact Hp]. }
  split; [exact Hevent|]. split.
  - intros C vr rs Hcand Hvr Hrs Hfound Hop. split.
    + destruct (run_flagged _ _ _ _ _ _ Hcand Hvr Hrs Hfound)
        as (pre & t & o & Hpre & Hfl & Hrun).
      apply no_spawns. rewrite Hrun.
      destruct (prepared_project _ _ _ _ _ Hpre) as (_ & Hpp & _).
      destruct (query_trace_project C) as (_ & _ & Hqp & _).
      destruct (after_report_project w pkgs false C o) as (_ & _ & _ & _ & HaE & HaT).
      inversion Hfl as [t' Hlog _ | t' p Hlog Hpeq Hop' | t' p Hlog Hpeq Hop'
                        | t' Hlog Hscan Hop'
                        | t' pkgNames names shown Hlog Hscan Hop' Hn Hj Hsh]; subst;
        try (rewrite Hop in Hop'; discriminate); try discriminate;
        destruct (logs_project _ Hlog) as (_ & _ & Hlp & _); project;
        rewrite Hpp, Hqp, Hlp; cbn [spawns app].
      * apply (HaT TypeError). reflexivity.
      * apply (HaE 1%Z). reflexivity.
    + intros Hlen Hshape Hnamed.
      pose proof (first_choice_selected w pkgs false C vr rs Hcand Hvr Hrs Hfound
                    (render_ret rs C Hlen Hshape Hnamed) Hop) as Hsel.
      split; [exact Hsel | apply (Hevent false Hsel)].
  - intros C vr rs Hcand Hvr Hrs Hfound.
    destruct (index_js_abort w pkgs C vr rs Hcand Hvr Hrs Hfound) as (Hno & _ & Hexit & _).
    split; [exact Hno|].
    intros Hlen Hnamed Hcounted. apply Hexit. apply report_ret; assumption.
Qed.

(** The sample project, default install, first choice at the prompt: the
    three parts of the statement at work. *)
Lemma abort_never_installs_witness :
  (In (Select InstallPrompt (Some "abort"))
      (trace (Cli.install_action sample_world [] false)) /\
   result (Cli.install_action sample_world [] false) = Exit 1%Z /\
   forall cmd args,
     ~ In (Spawn cmd args) (trace (Cli.install_action sample_world [] false))) /\
  (candidates sample_world [] false [left_pad] /\
   foundVulns [JObj [("vulns", JArr [high_vuln])]] [left_pad] <> [] /\
   forallb osv_shaped [JObj [("vulns", JArr [high_vuln])]] = true /\
   Forall named [left_pad] /\
   In (Select InstallPrompt (Some "abort"))
      (trace (Cli.install_action sample_world [] false)) /\
   result (Cli.install_action sample_world [] false) = Exit 1%Z) /\
  (index_candidates sample_world [] [left_pad] /\
   Forall counted [JObj [("vulns", JArr [high_vuln])]] /\
   result (IndexJs.install_action sample_world []) = Exit 1%Z).
Proof.
  assert (H : In (Select InstallPrompt (Some "abort"))
                 (trace (Cli.install_action sample_world [] false))).
  { apply In_select. vm_compute. left. reflexivity. }
  assert (Hcand : candidates sample_world [] false [left_pad]).
  { split; [reflexivity | discriminate]. }
  assert (Hfound : foundVulns [JObj [("vulns", JArr [high_vuln])]] [left_pad] <> []).
  { discriminate. }
  assert (Hshape : forallb osv_shaped [JObj [("vulns", JArr [high_vuln])]] = true).
  { reflexivity. }
  assert (Hnamed : Forall named [left_pad]).
  { constructor; [discriminate | constructor]. }
  assert (Hcounted : Forall counted [JObj [("vulns", JArr [high_vuln])]]).
  { constructor; [intros ms E; discriminate E | constructor]. }
  assert (Hindex : index_candidates sample_world [] [left_pad]).
  { reflexivity. }
  split; [|split].
  - split; [exact H|].
    apply (proj1 (abort_never_installs sample_world []) false H).
  - split; [exact Hcand|]. split; [exact Hfound|]. split; [exact Hshape|].
    split; [exact Hnamed|].
    apply (proj2 (proj1 (proj2 (abort_never_installs sample_world []))
                    [left_pad] one_flagged [JObj [("vulns", JArr [high_vuln])]]
                    Hcand eq_refl eq_refl Hfound eq_refl)
                 (le_n 1) Hshape Hnamed).
  - split; [exact Hindex|]. split; [exact Hcounted|].
    apply (proj2 (proj2 (proj2 (abort_never_installs sample_world []))
                    [left_pad] one_flagged [JObj [("vulns", JArr [high_vuln])]]
                    Hindex eq_refl eq_refl Hfound)
                 (le_n 1) Hnamed Hcounted).
Defined.

(** C10: in scan mode, when the operator answers "uninstall" and the
    [npm uninstall] command fails, the error is caught inside
    [uninstallPackages]: it is only shown (the spinner fails, the error goes
    to [console.error]) and the process still ends in [process.exit(0)]. *)
Theorem uninstall_failure_swallowed w pkgs scan cmd :
  In (Select ScanPrompt (Some "uninstall")) (trace (Cli.install_action w pkgs scan)) ->
  In (Exec cmd) (trace (Cli.install_action w pkgs scan)) ->
  npm_uninstall w cmd = false ->
  result (Cli.install_action w pkgs scan) = Exit 0%Z /\
  exit_status (result (Cli.install_action w pkgs scan)) = Some 0%Z /\
  In (SpinnerFail UninstallFailed) (trace (Cli.install_action w pkgs scan)) /\
  In (ConsoleError ExecError) (trace (Cli.install_action w pkgs scan)).
Proof.
  intros Hsel Hexec Hfail. apply In_select in Hsel. apply In_exec in Hexec.
  destruct (install_action_ending w pkgs scan)
    as [Hs _ | p Hs _ _ | p Hs _ | _ Hs _ _
        | C vr rs pkgNames names shown _ Hs _ Hr _ _ _ _ _ _ He Hmsg];
    rewrite Hs in Hsel; simpl in Hsel;
    try contradiction; try (destruct Hsel as [H|[]]; discriminate H).
  rewrite He in Hexec. destruct Hexec as [<- | []].
  destruct (Hmsg Hfail) as [H1 H2]. rewrite Hr. auto.
Qed.

(** The sample project scanned when [npm uninstall] fails. *)
Lemma uninstall_failure_swallowed_witness :
  result (Cli.install_action uninstall_fails_world [] true) = Exit 0%Z /\
  exit_status (result (Cli.install_action uninstall_fails_world [] true)) = Some 0%Z /\
  In (SpinnerFail UninstallFailed) (trace (Cli.install_action uninstall_fails_world [] true)) /\
  In (ConsoleError ExecError) (trace (Cli.install_action uninstall_fails_world [] true)).
Proof.
  apply (uninstall_failure_swallowed uninstall_fails_world [] true "npm uninstall left-pad").
  - apply In_select. vm_compute. left. reflexivity.
  - apply In_exec. vm_compute. left. reflexivity.
  - reflexivity.
Defined.

Lemma closes_returns w pkgs C o :
  closes w pkgs C o ->
  Forall named C \/ close_code (npm_install w pkgs) <> 0%Z -> o = Ret tt.
Proof.
  intros [[-> _] | (-> & Hc & p & Hp & Hn)] Hok; [reflexivity|].
  exfalso. destruct Hok as [Hall | Hne]; [|contradiction].
  rewrite Forall_forall in Hall. apply Hn, Hall, Hp.
Qed.

(** C4: in install mode, when the oracle client returns [null] for the
    candidate list, the failure report is printed and the action goes
    straight on to [npm install] with the original arguments: no prompt is
    shown anywhere in the run, and nothing but [console.log] lines follows
    the start of npm.  The run then ends as every run that has handed over
    to npm ends: it returns, unless the child closes with 0 and a candidate
    has a name without text, on which the [close] listener throws. *)
Theorem oracle_failure_fails_open w pkgs C :
  candidates w pkgs false C ->
  result (vulnsCheck w C) = Ret JNull ->
  (exists before rest,
     trace (Cli.install_action w pkgs false)
     = before ++ SpinnerFail ApiError :: ConsoleLog HandingOver
         :: Spawn "npm" ("install" :: pkgs) :: rest /\
     Forall is_log rest) /\
  (forall p answer, ~ In (Select p answer) (trace (Cli.install_action w pkgs false))) /\
  closes w pkgs C (result (Cli.install_action w pkgs false)) /\
  (Forall named C \/ close_code (npm_install w pkgs) <> 0%Z ->
   result (Cli.install_action w pkgs false) = Ret tt).
Proof.
  intros Hcand Hnull.
  destruct (run_of_candidates w pkgs false C JNull Hcand Hnull) as (pre & Hpre & Hrun).
  change (Cli.processVulnerabilityReport w JNull C false)
    with (@pair (list event) (outcome bool) [SpinnerFail ApiError] (Ret false)) in Hrun.
  cbn [trace result fst snd after_report] in Hrun.
  destruct (prepared_project _ _ _ _ _ Hpre) as (Hps & _).
  destruct (query_trace_project C) as (_ & Hqs & _).
  destruct (hand_over_shape w pkgs (List.length pkgs =? 0)%nat C) as (rest & Hho & Hlog).
  destruct (logs_project _ Hlog) as (_ & Hls & _).
  assert (Hcl : closes w pkgs C (result (Cli.install_action w pkgs false))).
  { rewrite Hrun. cbn [result snd]. apply hand_over_project. }
  rewrite Hho in Hrun. cbn [trace result fst snd] in Hrun.
  split; [|split; [|split]].
  - rewrite Hrun. cbn [trace fst].
    exists (pre ++ SpinnerSucceed (PreparedList (List.length C)) :: SpinnerStart CheckingVulns
                :: query_trace C), rest.
    split; [|exact Hlog].
    rewrite <- app_assoc. reflexivity.
  - intros p answer H. apply In_select in H. rewrite Hrun in H. revert H.
    project. rewrite Hps, Hqs, Hls. intros [].
  - exact Hcl.
  - apply (closes_returns _ _ _ _ Hcl).
Qed.

(** [install left-pad] without network. *)
Lemma oracle_failure_fails_open_witness :
  (exists before rest,
     trace (Cli.install_action offline_world ["left-pad"] false)
     = before ++ SpinnerFail ApiError :: ConsoleLog HandingOver
         :: Spawn "npm" ["install"; "left-pad"] :: rest /\
     Forall is_log rest) /\
  (forall p answer,
     ~ In (Select p answer) (trace (Cli.install_action offline_world ["left-pad"] false))) /\
  result (Cli.install_action offline_world ["left-pad"] false) = Ret tt.
Proof.
  destruct (oracle_failure_fails_open offline_world ["left-pad"]
              [candidate "left-pad" "1.3.0"] eq_refl eq_refl) as (Ht & Hs & _ & Hr).
  split; [exact Ht|]. split; [exact Hs|].
  apply Hr. left. constructor; [discriminate | constructor].
Defined.

(** A run of [src/unnamed/part_000] in which npm was started returns,
    unless the [close] listener throws, which takes a child that closed
    with 0. *)
Lemma spawned_run w pkgs scan cmd args :
  In (Spawn cmd args) (trace (Cli.install_action w pkgs scan)) ->
  result (Cli.install_action w pkgs scan) = Ret tt \/
  (result (Cli.install_action w pkgs scan) = Throw TypeError /\
   close_code (npm_install w pkgs) = 0%Z).
Proof.
  intros H. apply In_spawn in H.
  destruct (install_action_ending w pkgs scan)
    as [_ [Hr | [[_ Hp] | Hr]] | p _ Hp _ | p _ [Hr | (_ & Hr)] | _ _ Hp _
        | C vr rs pkgNames names shown _ _ Hp _ _ _ _ _ _ _ _ _];
    auto; rewrite Hp in H; destruct H.
Qed.

(** C6, amended: the exit status is 1 when the operator aborts at the
    install prompt, and 0 when the run returns, which it does on a clean
    report and after "ignore"; and a run in which npm install was started
    and the child closes with a code other than 0 returns all the same, with
    status 0: the failed installation is only printed.  In
    [src/unnamed/part_000] the run ends in [process.exit(1)] exactly when the
    operator has answered "abort", and in [process.exit(0)] exactly when the
    operator has answered "uninstall".  [src/index.js] has no prompt: its
    status is 1 when a position is flagged, the run ending in
    [process.exit(1)] after its own abort message without npm having been
    started; and there too a failed installation leaves the status at 0. *)
Theorem exit_status_of_run w pkgs :
  (forall scan,
     (In (Select InstallPrompt (Some "abort")) (trace (Cli.install_action w pkgs scan)) <->
      result (Cli.install_action w pkgs scan) = Exit 1%Z) /\
     (In (Select ScanPrompt (Some "uninstall")) (trace (Cli.install_action w pkgs scan)) <->
      result (Cli.install_action w pkgs scan) = Exit 0%Z) /\
     (forall p,
        In (Select p (Some "ignore")) (trace (Cli.install_action w pkgs scan)) ->
        exit_status (result (Cli.install_action w pkgs scan)) = Some 0%Z \/
        result (Cli.install_action w pkgs scan) = Throw TypeError) /\
     (result (Cli.install_action w pkgs scan) = Ret tt \/
      result (Cli.install_action w pkgs scan) = Exit 0%Z \/
      result (Cli.install_action w pkgs scan) = Exit 1%Z \/
      exists e, result (Cli.install_action w pkgs scan) = Throw e) /\
     (forall cmd args,
        In (Spawn cmd args) (trace (Cli.install_action w pkgs scan)) ->
        close_code (npm_install w pkgs) <> 0%Z ->
        result (Cli.install_action w pkgs scan) = Ret tt /\
        exit_status (result (Cli.install_action w pkgs scan)) = Some 0%Z)) /\
  (result (IndexJs.install_action w pkgs) = Ret tt \/
   result (IndexJs.install_action w pkgs) = Exit 1%Z \/
   result (IndexJs.install_action w pkgs) = Throw TypeError) /\
  (result (IndexJs.install_action w pkgs) = Exit 1%Z ->
   In (ConsoleLog AbortingInstallation) (trace (IndexJs.install_action w pkgs)) /\
   spawns (trace (IndexJs.install_action w pkgs)) = []) /\
  (forall cmd args,
     In (Spawn cmd args) (trace (IndexJs.install_action w pkgs)) ->
     close_code (npm_install w pkgs) <> 0%Z ->
     result (IndexJs.install_action w pkgs) = Ret tt /\
     exit_status (result (IndexJs.install_action w pkgs)) = Some 0%Z) /\
  (forall C vr rs,
     index_candidates w pkgs C ->
     result (vulnsCheck w C) = Ret vr ->
     own vr "results" = Some (JArr rs) ->
     foundVulns rs C <> [] ->
     (result (IndexJs.install_action w pkgs) = Exit 1%Z \/
      result (IndexJs.install_action w pkgs) = Throw TypeError) /\
     (List.length rs <= List.length C -> Forall named C -> Forall counted rs ->
      exit_status (result (IndexJs.install_action w pkgs)) = Some 1%Z)).
Proof.
  split; [intros scan|].
  - split; [|split; [|split; [|split]]].
    + rewrite In_select.
      destruct (install_action_ending w pkgs scan)
        as [Hs [Hr | [[Hr _] | [Hr _]]] | p Hs _ Hr | p Hs [Hr | (_ & Hr & _)] | _ Hs _ Hr
            | C vr rs pkgNames names shown _ Hs _ Hr _ _ _ _ _ _ _ _];
        rewrite Hs, Hr; simpl; split; try discriminate; try tauto;
        intros [H|[]]; discriminate H.
    + rewrite In_select.
      destruct (install_action_ending w pkgs scan)
        as [Hs [Hr | [[Hr _] | [Hr _]]] | p Hs _ Hr | p Hs [Hr | (_ & Hr & _)] | _ Hs _ Hr
            | C vr rs pkgNames names shown _ Hs _ Hr _ _ _ _ _ _ _ _];
        rewrite Hs, Hr; simpl; split; try discriminate; try tauto;
        intros [H|[]]; discriminate H.
    + intros p. rewrite In_select.
      destruct (install_action_ending w pkgs scan)
        as [Hs _ | p' Hs _ _ | p' Hs [Hr | (_ & Hr & _)] | _ Hs _ _
            | C vr rs pkgNames names shown _ Hs _ _ _ _ _ _ _ _ _ _];
        rewrite Hs; simpl; try tauto;
        try (intros [H|[]]; discriminate H);
        intros _; rewrite Hr; auto.
    + destruct (install_action_ending w pkgs scan)
        as [Hs [Hr | [[Hr _] | [Hr _]]] | p Hs _ Hr | p Hs [Hr | (_ & Hr & _)] | _ Hs _ Hr
            | C vr rs pkgNames names shown _ Hs _ Hr _ _ _ _ _ _ _ _];
        rewrite Hr; eauto 6.
    + intros cmd args H Hne.
      destruct (spawned_run w pkgs scan cmd args H) as [Hr | [_ Hc]];
        [rewrite Hr; split; reflexivity | contradiction].
  - pose proof (index_js_exit w pkgs) as Hexit.
    assert (Hflagged : forall C vr rs,
               index_candidates w pkgs C ->
               result (vulnsCheck w C) = Ret vr ->
               own vr "results" = Some (JArr rs) ->
               foundVulns rs C <> [] ->
               (result (IndexJs.install_action w pkgs) = Exit 1%Z \/
                result (IndexJs.install_action w pkgs) = Throw TypeError) /\
               (List.length rs <= List.length C -> Forall named C -> Forall counted rs ->
                exit_status (result (IndexJs.install_action w pkgs)) = Some 1%Z)).
    { intros C vr rs Hcand Hvr Hrs Hfound.
      destruct (index_js_abort w pkgs C vr rs Hcand Hvr Hrs Hfound) as (_ & Hor & Hret & _).
      split; [exact Hor|]. intros Hlen Hnamed Hcounted.
      rewrite Hret; [reflexivity|]. apply report_ret; assumption. }
    destruct (index_js_ending w pkgs) as [[Hp [Hr | [Hr Hc]]] | [Hp [Hr | Hr]]];
      (split; [|split; [|split; [|exact Hflagged]]]); rewrite ?Hr;
      solve [ auto
            | discriminate
            | intros _; split; [apply Hexit; exact Hr | exact Hp]
            | intros cmd args H Hne;
              first [ split; reflexivity
                    | contradiction
                    | apply In_spawn in H; rewrite Hp in H; destruct H ] ].
Qed.

(** An installation that fails after a clean report, in both files, and
    the sample project aborted, by the operator and by [src/index.js]. *)
Lemma exit_status_of_run_witness :
  (In (Spawn "npm" ["install"; "left-pad"])
      (trace (Cli.install_action install_fails_world ["left-pad"] false)) /\
   close_code (npm_install install_fails_world ["left-pad"]) <> 0%Z /\
   result (Cli.install_action install_fails_world ["left-pad"] false) = Ret tt /\
   exit_status (result (Cli.install_action install_fails_world ["left-pad"] false))
   = Some 0%Z) /\
  (In (Spawn "npm" ["install"; "left-pad"])
      (trace (IndexJs.install_action install_fails_world ["left-pad"])) /\
   result (IndexJs.install_action install_fails_world ["left-pad"]) = Ret tt) /\
  (In (Select InstallPrompt (Some "abort"))
      (trace (Cli.install_action sample_world [] false)) /\
   result (Cli.install_action sample_world [] false) = Exit 1%Z) /\
  exit_status (result (IndexJs.install_action sample_world [])) = Some 1%Z.
Proof.
  assert (H : In (Spawn "npm" ["install"; "left-pad"])
                 (trace (Cli.install_action install_fails_world ["left-pad"] false))).
  { apply In_spawn. vm_compute. left. reflexivity. }
  assert (Hi : In (Spawn "npm" ["install"; "left-pad"])
                  (trace (IndexJs.install_action install_fails_world ["left-pad"]))).
  { apply In_spawn. vm_compute. left. reflexivity. }
  assert (Hne : close_code (npm_install install_fails_world ["left-pad"]) <> 0%Z).
  { discriminate. }
  assert (Ha : In (Select InstallPrompt (Some "abort"))
                  (trace (Cli.install_action sample_world [] false))).
  { apply In_select. vm_compute. left. reflexivity. }
  split; [|split; [|split]].
  - split; [exact H|]. split; [exact Hne|].
    apply (proj2 (proj2 (proj2 (proj2
             (proj1 (exit_status_of_run install_fails_world ["left-pad"]) false))))
             "npm" ["install"; "left-pad"] H Hne).
  - split; [exact Hi|].
    apply (proj1 (proj2 (proj2 (proj2 (exit_status_of_run install_fails_world ["left-pad"]))))
             "npm" ["install"; "left-pad"] Hi Hne).
  - split; [exact Ha|].
    apply (proj1 (proj1 (exit_status_of_run sample_world []) false)). exact Ha.
  - assert (Hfound : foundVulns [JObj [("vulns", JArr [high_vuln])]] [left_pad] <> []).
    { discriminate. }
    apply (proj2 (proj2 (proj2 (proj2 (proj2 (exit_status_of_run sample_world []))))
                    [left_pad] one_flagged [JObj [("vulns", JArr [high_vuln])]]
                    eq_refl eq_refl eq_refl Hfound)).
    + apply le_n.
    + constructor; [discriminate | constructor].
    + constructor; [intros ms E; discriminate E | constructor].
Defined.

(** C6, as stated, fails: an installation whose child closes with code 1
    is reported as failed and the process still exits with status 0. *)
Lemma failed_install_exits_zero :
  In (Spawn "npm" ["install"; "left-pad"])
     (trace (Cli.install_action install_fails_world ["left-pad"] false)) /\
  close_code (npm_install install_fails_world ["left-pad"]) = 1%Z /\
  In (ConsoleLog InstallFailed)
     (trace (Cli.install_action install_fails_world ["left-pad"] false)) /\
  exit_status (result (Cli.install_action install_fails_world ["left-pad"] false))
  = Some 0%Z /\
  exit_status (result (Cli.install_action install_fails_world ["left-pad"] false))
  <> Some 1%Z /\
  In (ConsoleLog InstallFailed)
     (trace (IndexJs.install_action install_fails_world ["left-pad"])) /\
  exit_status (result (IndexJs.install_action install_fails_world ["left-pad"]))
  = Some 0%Z.
Proof.
  vm_compute. repeat split; auto 20; discriminate.
Qed.

(** ** The oracle client and the failure path *)

Lemma vulnsCheck_sends w C qs :
  queries_of C = Some qs ->
  vulnsCheck w C = catch (fetch_json w qs) (fun _ => ret JNull).
Proof.
  intros Hq. unfold vulnsCheck. rewrite mapM_to_query, Hq, bind_pure. reflexivity.
Qed.

(** C5, amended: once the batch is built, [vulnsCheck] returns [null]
    when [fetch] rejects, when the status is outside 200-299 and when the
    body is not JSON; a JSON body that comes with a 2xx status is returned
    as it is, with or without a [results] field.  The missing field is
    caught one step later: [processVulnerabilityReport] takes its failure
    path on it. *)
Theorem vulnsCheck_null_cases w C qs :
  queries_of C = Some qs ->
  (osv w qs = FetchRejected ->
   result (vulnsCheck w C) = Ret JNull) /\
  (forall status body,
     osv w qs = Response status body ->
     (status < 200 \/ 299 < status)%Z ->
     result (vulnsCheck w C) = Ret JNull) /\
  (forall status,
     osv w qs = Response status None ->
     result (vulnsCheck w C) = Ret JNull) /\
  (forall status data,
     osv w qs = Response status (Some data) ->
     (200 <= status <= 299)%Z ->
     result (vulnsCheck w C) = Ret data) /\
  (forall data isScan,
     own data "results" = None ->
     Cli.processVulnerabilityReport w data C isScan
     = ([SpinnerFail ApiError], Ret false)).
Proof.
  intros Hq. rewrite (vulnsCheck_sends w C qs Hq).
  unfold fetch_json, response_ok. repeat split.
  - intros ->. reflexivity.
  - intros status body -> Hst.
    replace ((200 <=? status)%Z && (status <=? 299)%Z) with false
      by (symmetry; apply andb_false_iff; destruct Hst;
          [left; apply Z.leb_gt | right; apply Z.leb_gt]; assumption).
    reflexivity.
  - intros status ->.
    destruct ((200 <=? status)%Z && (status <=? 299)%Z); reflexivity.
  - intros status data -> [Hlo Hhi].
    apply Z.leb_le in Hlo. apply Z.leb_le in Hhi. rewrite Hlo, Hhi. reflexivity.
  - intros data isScan Hres. unfold Cli.processVulnerabilityReport.
    rewrite Hres. simpl truthy at 2. rewrite orb_true_r. reflexivity.
Qed.

(** No network, status 500, a body that is not JSON, and a body without
    [results]. *)
Lemma vulnsCheck_null_cases_witness :
  result (vulnsCheck offline_world [left_pad]) = Ret JNull /\
  result (vulnsCheck server_error_world [left_pad]) = Ret JNull /\
  result (vulnsCheck garbled_world [left_pad]) = Ret JNull /\
  result (vulnsCheck no_results_world [left_pad]) = Ret (JObj []) /\
  Cli.processVulnerabilityReport no_results_world (JObj []) [left_pad] false
  = ([SpinnerFail ApiError], Ret false).
Proof.
  assert (Hq : queries_of [left_pad] = Some [mkQuery "1.3.0" (Some (JStr "left-pad")) "npm"]).
  { reflexivity. }
  split; [|split; [|split; [|split]]].
  - apply (proj1 (vulnsCheck_null_cases offline_world [left_pad] _ Hq)). reflexivity.
  - apply (proj1 (proj2 (vulnsCheck_null_cases server_error_world [left_pad] _ Hq))
             500%Z (Some one_flagged)); [reflexivity | right; reflexivity].
  - apply (proj1 (proj2 (proj2 (vulnsCheck_null_cases garbled_world [left_pad] _ Hq)))
             200%Z). reflexivity.
  - apply (proj1 (proj2 (proj2 (proj2
             (vulnsCheck_null_cases no_results_world [left_pad] _ Hq))))
             200%Z (JObj [])); [reflexivity | split; discriminate].
  - apply (proj2 (proj2 (proj2 (proj2
             (vulnsCheck_null_cases no_results_world [left_pad] _ Hq))))).
    reflexivity.
Defined.

(** C5, as stated, fails: a 200 response whose body is [{}] has no
    [results] array, and [vulnsCheck] returns that object, not [null]. *)
Lemma missing_results_not_null :
  osv no_results_world [mkQuery "1.3.0" (Some (JStr "left-pad")) "npm"]
  = Response 200 (Some (JObj [])) /\
  own (JObj []) "results" = None /\
  vulnsCheck no_results_world [left_pad]
  = ([Fetch [mkQuery "1.3.0" (Some (JStr "left-pad")) "npm"]], Ret (JObj [])) /\
  result (vulnsCheck no_results_world [left_pad]) <> Ret JNull.
Proof. repeat split; discriminate. Qed.

(** C8, amended: no length is ever compared.  [processVulnerabilityReport],
    and the security check of [src/index.js] as well, takes its failure
    path exactly when the response or its [results] field is falsy, whatever
    the candidate list; and when [results] is an array it
    is zipped with the candidate list position by position, whatever the
    two lengths: position [i] of [results] goes with [packagesToCheck[i]],
    which is [undefined] past the end of the candidate list. *)
Theorem report_ignores_lengths w vr C isScan :
  (Cli.processVulnerabilityReport w vr C isScan = ([SpinnerFail ApiError], Ret false)
   <-> truthy (Some vr) && truthy (own vr "results") = false) /\
  (IndexJs.security_check vr C = ([SpinnerFail ApiError], Ret tt)
   <-> truthy (Some vr) && truthy (own vr "results") = false) /\
  (forall rs v,
     own vr "results" = Some (JArr rs) ->
     (In v (foundVulns rs C) <->
      exists i r, nth_error rs i = Some r /\ truthy (own r "vulns") = true /\
                  v = {| vulns := own r "vulns"; originalPkg := nth_error C i |})).
Proof.
  split; [|split].
  - pose proof (report_cases w vr C isScan) as Hcases. cbv zeta in Hcases.
    destruct Hcases as [(Hf & Ht) | [(Hres & _ & Ht) | [(rs & Hrs & _ & Ht) | (rs & Hrs & _ & Hfl)]]].
    + rewrite Ht, Hf. tauto.
    + rewrite Ht, Hres.
      destruct (own vr "results") as [x|] eqn:E; [|discriminate].
      rewrite (own_some_truthy _ _ _ E). split; discriminate.
    + rewrite Ht, Hrs, (own_some_truthy _ _ _ Hrs). split; discriminate.
    + rewrite Hrs, (own_some_truthy _ _ _ Hrs).
      split; [|discriminate]. intros Heq. rewrite Heq in Hfl. inversion Hfl.
  - pose proof (security_check_cases vr C) as Hcases. cbv zeta in Hcases.
    destruct Hcases as [(Hf & Ht) | [(Hres & _ & Ht) | [(rs & Hrs & _ & Ht)
                       | (rs & t & Hrs & _ & _ & [(_ & Ht) | (_ & Ht)])]]];
      rewrite Ht.
    + rewrite Hf. tauto.
    + rewrite Hres.
      destruct (own vr "results") as [x|] eqn:E; [|discriminate].
      rewrite (own_some_truthy _ _ _ E). split; discriminate.
    + rewrite Hrs, (own_some_truthy _ _ _ Hrs). split; discriminate.
    + rewrite Hrs, (own_some_truthy _ _ _ Hrs). split; discriminate.
    + rewrite Hrs, (own_some_truthy _ _ _ Hrs). split; discriminate.
  - intros rs v _. apply In_foundVulns.
Qed.

(** C8, as stated, fails: one candidate and an empty [results] array is a
    length mismatch; the oracle client hands it on and the run reports "No
    known vulnerabilities found", never the API failure, and installs. *)
Lemma length_mismatch_reported_clean :
  result (vulnsCheck short_reply_world [left_pad]) = Ret (JObj [("results", JArr [])]) /\
  List.length (@nil json) <> List.length [left_pad] /\
  Cli.processVulnerabilityReport short_reply_world (JObj [("results", JArr [])])
    [left_pad] false
  = ([SpinnerSucceed NoKnownVulns], Ret true) /\
  In (SpinnerSucceed NoKnownVulns)
     (trace (Cli.install_action short_reply_world [] false)) /\
  ~ In (SpinnerFail ApiError) (trace (Cli.install_action short_reply_world [] false)) /\
  In (Spawn "npm" ["install"]) (trace (Cli.install_action short_reply_world [] false)).
Proof.
  vm_compute. repeat split; auto 20; try discriminate.
  intros H. repeat (destruct H as [H|H]; [discriminate H|]). exact H.
Qed.

(** ** Positions of the flagged list *)

Lemma mapi_from_seq {A B} (f : nat -> A -> B) (d : A) (xs : list A) (k : nat) :
  mapi_from k f xs
  = map (fun i => f i (nth (i - k) xs d)) (seq k (List.length xs)).
Proof.
  revert k. induction xs as [|x rest IH]; intros k; simpl; [reflexivity|].
  rewrite Nat.sub_diag. f_equal. rewrite IH. apply map_ext_in.
  intros i Hi. apply in_seq in Hi.
  replace (i - k) with (S (i - S k)) by lia. reflexivity.
Qed.

Lemma filter_map_comm {A B} (g : A -> B) (P : B -> bool) (xs : list A) :
  filter P (map g xs) = map g (filter (fun x => P (g x)) xs).
Proof.
  induction xs as [|x rest IH]; simpl; [reflexivity|].
  destruct (P (g x)); simpl; rewrite IH; reflexivity.
Qed.

Lemma foundVulns_positions rs C :
  foundVulns rs C = map (fun i => attach C i (nth i rs JNull)) (flagged_positions rs).
Proof.
  unfold foundVulns, flagged_positions, mapi.
  rewrite (mapi_from_seq _ JNull), filter_map_comm.
  erewrite map_ext; [|intros i; rewrite Nat.sub_0_r; reflexivity].
  f_equal. apply filter_ext. intros i. rewrite Nat.sub_0_r. reflexivity.
Qed.

Lemma In_flagged_positions rs i :
  In i (flagged_positions rs) <->
  exists r, nth_error rs i = Some r /\ truthy (own r "vulns") = true.
Proof.
  unfold flagged_positions. rewrite filter_In, in_seq. split.
  - intros [[_ Hlt] Ht]. exists (nth i rs JNull). split; [|exact Ht].
    apply nth_error_nth'. exact Hlt.
  - intros (r & Hi & Ht). split.
    + split; [lia|]. simpl. apply nth_error_Some. congruence.
    + rewrite (nth_error_nth _ _ _ Hi). exact Ht.
Qed.

(** C2 fails on the code: a result whose [vulns] is the empty array is
    truthy for [filter(r => r.vulns)], so its position is flagged.  On the
    sample project the run of [src/unnamed/part_000] announces
    vulnerabilities in one package, prints the package header with no
    record under it and asks the operator; [src/index.js] reports "0
    issue(s)" and aborts; a scan uninstalls the package on request. *)
Lemma empty_vulns_flagged :
  List.length [JObj [("vulns", JArr [])]] = List.length [left_pad] /\
  own (JObj [("vulns", JArr [])]) "vulns" = Some (JArr []) /\
  flagged_positions [JObj [("vulns", JArr [])]] = [0] /\
  foundVulns [JObj [("vulns", JArr [])]] [left_pad]
  = [{| vulns := Some (JArr []); originalPkg := Some left_pad |}] /\
  Cli.install_action empty_vulns_world [] false
  = ([SpinnerStart Preparing; SpinnerText ReadingPackageJson; ReadManifest;
      SpinnerSucceed (PreparedList 1); SpinnerStart CheckingVulns;
      Fetch [mkQuery "1.3.0" (Some (JStr "left-pad")) "npm"];
      SpinnerWarn (FoundVulns 1); ConsoleLog (PackageHeader "left-pad");
      Select InstallPrompt (Some "abort"); ConsoleLog Aborting],
     Exit 1%Z) /\
  IndexJs.install_action empty_vulns_world []
  = ([SpinnerStart PreparingPackageList; SpinnerText ReadingPackageJson; ReadManifest;
      SpinnerSucceed PackageListPrepared; SpinnerStart CheckingVulns;
      Fetch [mkQuery "1.3.0" (Some (JStr "left-pad")) "npm"];
      SpinnerWarn (FoundVulns 1); ConsoleLog (IssueCount "left-pad" "0");
      ConsoleLog AbortingInstallation],
     Exit 1%Z) /\
  execs (trace (Cli.install_action empty_vulns_world [] true)) = ["npm uninstall left-pad"].
Proof. repeat split. Qed.

(** C3 fails on the code: in a scan of a project that declares alpha and
    delta, with a vulnerability record for alpha and an empty [vulns] array
    for delta, the operator's "uninstall" removes both packages: the command
    run is [npm uninstall alpha delta]. *)
Lemma clean_package_uninstalled :
  result (extractPkgNames two_packages_world)
  = Ret [candidate "alpha" "1.0.0"; candidate "delta" "2.0.0"] /\
  result (vulnsCheck two_packages_world
            [candidate "alpha" "1.0.0"; candidate "delta" "2.0.0"])
  = Ret (JObj [("results", JArr [JObj [("vulns", JArr [high_vuln])];
                                 JObj [("vulns", JArr [])]])]) /\
  In (Select ScanPrompt (Some "uninstall"))
     (trace (Cli.install_action two_packages_world [] true)) /\
  execs (trace (Cli.install_action two_packages_world [] true))
  = ["npm uninstall alpha delta"] /\
  result (Cli.install_action two_packages_world [] true) = Exit 0%Z.
Proof. vm_compute. repeat split. auto 20. Qed.

(** ** The empty manifest *)




(** ** Stripping the range qualifier *)

Lemma replace_first_char c s :
  replace_first (String c "") s
  = match s with
    | EmptyString => EmptyString
    | String c' s' =>
        if Ascii.eqb c c' then s' else String c' (replace_first (String c "") s')
    end.
Proof.
  destruct s as [|c' s']; [reflexivity|].
  cbn [replace_first prefix].
  destruct (ascii_dec c c') as [->|Hne].
  - rewrite Ascii.eqb_refl.
    replace (prefix "" s') with true by (destruct s'; reflexivity).
    reflexivity.
  - apply Ascii.eqb_neq in Hne. rewrite Hne. reflexivity.
Qed.

Lemma replace_first_head c s : replace_first (String c "") (String c s) = s.
Proof. rewrite replace_first_char, Ascii.eqb_refl. reflexivity. Qed.

Lemma replace_first_skip c c' s :
  Ascii.eqb c c' = false ->
  replace_first (String c "") (String c' s) = String c' (replace_first (String c "") s).
Proof. intros H. rewrite replace_first_char, H. reflexivity. Qed.

Lemma replace_first_absent c s :
  occurs c s = false -> replace_first (String c "") s = s.
Proof.
  induction s as [|c' s' IH]; intros H; rewrite replace_first_char; [reflexivity|].
  simpl in H. apply orb_false_iff in H as [Hc Hs].
  rewrite Hc, (IH Hs). reflexivity.
Qed.

Lemma replace_first_removed c s : removed_first c s (replace_first (String c "") s).
Proof.
  induction s as [|c' s' IH]; rewrite replace_first_char.
  - apply NotThere. reflexivity.
  - destruct (Ascii.eqb c c') eqn:Ec.
    + apply Ascii.eqb_eq in Ec as <-. apply (There c "" s'). reflexivity.
    + remember (replace_first (String c "") s') as r eqn:Er. clear Er.
      destruct IH as [s Hs | a b Ha].
      * apply NotThere. simpl. rewrite Ec, Hs. reflexivity.
      * apply (There c (String c' a) b). simpl. rewrite Ec, Ha. reflexivity.
Qed.

(** C9, amended: for a candidate whose version is a string, the version
    sent is that string without its first [^] (wherever it is) and then
    without its first [~] (wherever it is).  So a version with neither
    character is sent unchanged, and a version that starts with one
    qualifier and has no other [^] or [~] is sent without it, as the
    specification says. *)
Theorem version_sent p v :
  version p = Some (JStr v) ->
  exists q,
    to_query p = ret q /\
    (exists mid,
       removed_first "^" v mid /\
       removed_first "~" mid (q_version q)) /\
    (occurs "^" v = false -> occurs "~" v = false ->
     q_version q = v) /\
    (forall c rest,
       v = String c rest -> c = "^"%char \/ c = "~"%char ->
       occurs "^" rest = false -> occurs "~" rest = false ->
       q_version q = rest /\
       q_version q = spec_strip_leading v).
Proof.
  intros Hv. unfold to_query. rewrite Hv. eexists. split; [reflexivity|].
  unfold strip_range. cbn [q_version]. split; [|split].
  - exists (replace_first "^" v). split; apply replace_first_removed.
  - intros Hc Ht. rewrite (replace_first_absent _ _ Hc). apply replace_first_absent, Ht.
  - intros c rest -> Hc Hcaret Htilde.
    assert (Hsent : replace_first "~" (replace_first "^" (String c rest)) = rest).
    { destruct Hc as [-> | ->].
      - rewrite replace_first_head. apply replace_first_absent, Htilde.
      - rewrite (replace_first_skip "^" "~") by reflexivity.
        rewrite (replace_first_absent _ _ Hcaret). apply replace_first_head. }
    split; [exact Hsent|]. rewrite Hsent.
    destruct Hc as [-> | ->]; reflexivity.
Qed.

(** A caret range and a plain version. *)
Lemma version_sent_witness :
  (exists q, to_query left_pad = ret q /\ q_version q = "1.3.0" /\
             q_version q = spec_strip_leading "^1.3.0") /\
  (exists q, to_query (candidate "left-pad" "1.3.0") = ret q /\ q_version q = "1.3.0").
Proof.
  split.
  - destruct (version_sent left_pad "^1.3.0" eq_refl) as (q & Hq & _ & _ & Hlead).
    exists q. split; [exact Hq|].
    apply (Hlead "^"%char "1.3.0");
      [reflexivity | left; reflexivity | reflexivity | reflexivity].
  - destruct (version_sent (candidate "left-pad" "1.3.0") "1.3.0" eq_refl)
      as (q & Hq & _ & Hplain & _).
    exists q. split; [exact Hq|]. apply Hplain; reflexivity.
Defined.

(** C9, as stated, fails: a caret that is not in leading position is
    removed as well. *)
Lemma inner_caret_removed :
  to_query (candidate "left-pad" "1.0.0 || ^2.0.0")
  = ret (mkQuery "1.0.0 || 2.0.0" (Some (JStr "left-pad")) "npm") /\
  spec_strip_leading "1.0.0 || ^2.0.0" = "1.0.0 || ^2.0.0" /\
  strip_range "1.0.0 || ^2.0.0" <> spec_strip_leading "1.0.0 || ^2.0.0".
Proof. repeat split. discriminate. Qed.

(** ** Runs of the sample worlds *)

Example strip_caret : strip_range "^1.3.0" = "1.3.0".
Proof. reflexivity. Qed.

Example strip_tilde : strip_range "~1.3.0" = "1.3.0".
Proof. reflexivity. Qed.

Example strip_only_first : strip_range "^1.0.0 || ^2.0.0" = "1.0.0 || ^2.0.0".
Proof. reflexivity. Qed.

Example sample_install_aborts :
  Cli.install_action sample_world [] false
  = ([SpinnerStart Preparing; SpinnerText ReadingPackageJson; ReadManifest;
      SpinnerSucceed (PreparedList 1); SpinnerStart CheckingVulns;
      Fetch [mkQuery "1.3.0" (Some (JStr "left-pad")) "npm"];
      SpinnerWarn (FoundVulns 1); ConsoleLog (PackageHeader "left-pad");
      ConsoleLog (VulnLine Red "HIGH" "Denial of service");
      ConsoleLog (IdLine "GHSA-0000");
      Select InstallPrompt (Some "abort"); ConsoleLog Aborting],
     Exit 1%Z).
Proof. reflexivity. Qed.

Example sample_scan_uninstalls :
  execs (trace (Cli.install_action sample_world [] true)) = ["npm uninstall left-pad"]
  /\ result (Cli.install_action sample_world [] true) = Exit 0%Z.
Proof. split; reflexivity. Qed.

Example empty_manifest_index_js :
  IndexJs.install_action empty_manifest_world []
  = ([SpinnerStart PreparingPackageList; SpinnerText ReadingPackageJson;
      ReadManifest; SpinnerSucceed PackageListPrepared; SpinnerStart CheckingVulns;
      Fetch []; SpinnerSucceed NoKnownVulns; ConsoleLog HandingOver;
      Spawn "npm" ["install"]; ConsoleLog InstallSuccess], Ret tt).
Proof. reflexivity. Qed.

Example offline_install_goes_on :
  Cli.install_action offline_world ["left-pad"] false
  = ([SpinnerStart Preparing; SpinnerText (FetchingVersions 1);
      Exec "npm view left-pad name version --json";
      SpinnerSucceed (PreparedList 1); SpinnerStart CheckingVulns;
      Fetch [mkQuery "1.3.0" (Some (JStr "left-pad")) "npm"]; SpinnerFail ApiError;
      ConsoleLog HandingOver; Spawn "npm" ["install"; "left-pad"];
      ConsoleLog InstallSuccess; ConsoleLog (PackagesLine "left-pad")], Ret tt).
Proof. reflexivity. Qed.

Example sample_index_js_aborts :
  result (IndexJs.install_action sample_world []) = Exit 1%Z
  /\ spawns (trace (IndexJs.install_action sample_world [])) = [].
Proof. split; reflexivity. Qed.

(** [install lodash@^4.17.20]: the registry answers the range with an
    array, the candidate has neither name nor version, the oracle client
    returns [null] without a request, and npm installs. *)
Example range_argument_unchecked :
  Cli.install_action range_world ["lodash@^4.17.20"] false
  = ([SpinnerStart Preparing; SpinnerText (FetchingVersions 1);
      Exec "npm view lodash@^4.17.20 name version --json";
      SpinnerSucceed (PreparedList 1); SpinnerStart CheckingVulns;
      SpinnerFail ApiError;
      ConsoleLog HandingOver; Spawn "npm" ["install"; "lodash@^4.17.20"];
      ConsoleLog InstallSuccess; ConsoleLog (PackagesLine "")], Ret tt).
Proof. reflexivity. Qed.

(** Array indices come first among the candidates of a manifest. *)
Example numbered_candidates :
  result (extractPkgNames numbered_world)
  = Ret [candidate "2" "1.0.0"; candidate "10" "1.0.0"; candidate "b" "1.0.0";
         candidate "a" "1.0.0"; candidate "01" "1.0.0"].
Proof. reflexivity. Qed.

(** * Further properties of the code *)

(** ** The version resolver *)

Lemma In_keep_some {A} (xs : list (option A)) (x : A) :
  In x (keep_some xs) <-> In (Some x) xs.
Proof.
  induction xs as [|[y|] rest IH]; simpl; [tauto| |].
  - rewrite IH. split; intros [H|H]; auto; left; congruence.
  - rewrite IH. split; [auto | intros [H|H]; [discriminate H | exact H]].
Qed.

Lemma keep_some_length {A} (xs : list (option A)) :
  List.length (keep_some xs) <= List.length xs.
Proof. induction xs as [|[y|] rest IH]; simpl; lia. Qed.

Lemma keep_some_all {A} (xs : list (option A)) :
  (forall x, In x xs -> x <> None) -> List.length (keep_some xs) = List.length xs.
Proof.
  induction xs as [|[y|] rest IH]; simpl; intros H; [reflexivity| |].
  - f_equal. apply IH. intros x Hx. apply H. right. exact Hx.
  - exfalso. apply (H None); auto.
Qed.

Lemma keep_some_app {A} (xs ys : list (option A)) :
  keep_some (xs ++ ys) = keep_some xs ++ keep_some ys.
Proof.
  induction xs as [|[y|] rest IH]; simpl; [reflexivity| |]; rewrite IH; reflexivity.
Qed.

Lemma resolved_some w rawArg p :
  resolved w rawArg = Some p <->
  exists info, npm_view w rawArg = Some info /\ info <> JNull /\
               p = {| name := own info "name"; version := own info "version" |}.
Proof.
  unfold resolved. destruct (npm_view w rawArg) as [info|].
  - destruct info; split;
      try (intros [= <-]; eexists; split; [reflexivity|]; split; [discriminate | reflexivity]);
      try (intros (info & [= <-] & Hn & ->); reflexivity);
      try discriminate.
    intros (info & [= <-] & Hn & _). contradiction.
  - split; [discriminate | intros (info & H & _); discriminate H].
Qed.

(** X1: [fetchPackageVersions] never throws, whatever npm answers.  It runs
    one [npm view] per argument, in argument order; its result holds, in
    that order, one candidate for every argument whose lookup prints JSON
    other than [null], made of the [name] and the [version] of what was
    printed, be they there or not; so it is never longer than the argument
    list and as long when every argument resolves; and the result for two
    argument lists put end to end is the two results put end to end: an
    argument that fails shifts the later candidates, it does not leave a
    hole. *)
Theorem fetchPackageVersions_drops_failures w pkgs :
  exists C,
    fetchPackageVersions w pkgs
    = (map (fun rawArg => Exec (view_cmd rawArg)) pkgs, Ret C) /\
    List.length C <= List.length pkgs /\
    (forall p,
       In p C <->
       exists rawArg info,
         In rawArg pkgs /\ npm_view w rawArg = Some info /\ info <> JNull /\
         p = {| name := own info "name"; version := own info "version" |}) /\
    ((forall rawArg, In rawArg pkgs ->
        exists info, npm_view w rawArg = Some info /\ info <> JNull) ->
     List.length C = List.length pkgs) /\
    (forall pkgs1 pkgs2 C1 C2,
       pkgs = pkgs1 ++ pkgs2 ->
       result (fetchPackageVersions w pkgs1) = Ret C1 ->
       result (fetchPackageVersions w pkgs2) = Ret C2 ->
       C = C1 ++ C2).
Proof.
  exists (keep_some (map (resolved w) pkgs)).
  split; [apply fetchPackageVersions_run|].
  split; [rewrite <- (length_map (resolved w) pkgs); apply keep_some_length|].
  split; [|split].
  - intros p. rewrite In_keep_some, in_map_iff. split.
    + intros (a & Ha & Hin). apply resolved_some in Ha as (info & H1 & H2 & H3).
      exists a, info. auto.
    + intros (a & info & Hin & H1 & H2 & H3). exists a. split; [|exact Hin].
      apply resolved_some. exists info. auto.
  - intros Hall. rewrite <- (length_map (resolved w) pkgs). apply keep_some_all.
    intros x Hx. apply in_map_iff in Hx as (a & <- & Hin).
    destruct (Hall a Hin) as (info & H1 & H2).
    intros Hnone.
    assert (Hs : resolved w a = Some {| name := own info "name";
                                        version := own info "version" |}).
    { apply resolved_some. exists info. auto. }
    congruence.
  - intros pkgs1 pkgs2 C1 C2 -> H1 H2.
    rewrite fetchPackageVersions_run in H1, H2. simpl in H1, H2.
    injection H1 as <-. injection H2 as <-.
    rewrite map_app. apply keep_some_app.
Qed.

(** ** The manifest reader *)

Lemma assoc_In_all k ms :
  NoDup (map fst ms) -> forall v, In (k, v) ms <-> assoc k ms = Some v.
Proof.
  induction ms as [|[k0 v0] rest IH]; simpl; intros H v.
  - split; [intros [] | discriminate].
  - inversion H as [|x l Hnotin Hrest]; subst. specialize (IH Hrest).
    destruct (assoc k rest) as [v'|] eqn:Ea.
    + assert (Hin : In (k, v') rest) by (apply IH; reflexivity).
      split.
      * intros [[= -> ->] | Hin'].
        -- exfalso. apply Hnotin. apply in_map_iff. exists (k, v'). auto.
        -- apply IH in Hin'. exact Hin'.
      * intros [= ->]. right. exact Hin.
    + destruct (k =? k0) eqn:E.
      * apply String.eqb_eq in E as ->. split.
        -- intros [[= ->] | Hin]; [reflexivity|]. apply IH in Hin. discriminate.
        -- intros [= ->]. left. reflexivity.
      * split; [|discriminate].
        intros [[= <- _] | Hin]; [rewrite String.eqb_refl in E; discriminate|].
        apply IH in Hin. discriminate.
Qed.

Lemma assoc_In k v ms :
  NoDup (map fst ms) -> (In (k, v) ms <-> assoc k ms = Some v).
Proof. intros H. apply assoc_In_all. exact H. Qed.

Lemma assoc_key k v ms : assoc k ms = Some v -> In k (map fst ms).
Proof.
  revert v. induction ms as [|[k0 v0] rest IH]; intros v; simpl; [discriminate|].
  destruct (assoc k rest) as [v'|] eqn:Ea.
  - intros _. right. apply (IH v'). reflexivity.
  - destruct (k =? k0) eqn:E; [|discriminate].
    apply String.eqb_eq in E as ->. auto.
Qed.

Lemma assoc_app k a b :
  assoc k (a ++ b)
  = match assoc k b with
    | Some v => Some v
    | None => assoc k a
    end.
Proof.
  induction a as [|[k0 v0] rest IH]; simpl.
  - destruct (assoc k b); reflexivity.
  - rewrite IH. destruct (assoc k b); reflexivity.
Qed.

Lemma keys_obj_set k v o k' :
  In k' (map fst (obj_set k v o)) <-> k' = k \/ In k' (map fst o).
Proof.
  induction o as [|[k0 v0] rest IH]; simpl.
  - split; intros [H|H]; auto.
  - destruct (k =? k0) eqn:E; simpl.
    + apply String.eqb_eq in E as <-. intuition congruence.
    + rewrite IH. intuition congruence.
Qed.

Lemma NoDup_obj_set k v o :
  NoDup (map fst o) -> NoDup (map fst (obj_set k v o)).
Proof.
  induction o as [|[k0 v0] rest IH]; simpl; intros H.
  - constructor; [intros [] | constructor].
  - inversion H as [|x l Hnotin Hrest]; subst.
    destruct (k =? k0) eqn:E; simpl.
    + apply String.eqb_eq in E as <-. constructor; assumption.
    + constructor; [|apply IH; exact Hrest].
      rewrite keys_obj_set. intros [-> | Hin]; [|contradiction].
      rewrite String.eqb_refl in E. discriminate.
Qed.

Lemma assoc_obj_set k v o k' :
  NoDup (map fst o) ->
  assoc k' (obj_set k v o) = if k' =? k then Some v else assoc k' o.
Proof.
  induction o as [|[k0 v0] rest IH]; simpl; intros H.
  - destruct (k' =? k); reflexivity.
  - inversion H as [|x l Hnotin Hrest]; subst. specialize (IH Hrest).
    destruct (k =? k0) eqn:E; simpl.
    + apply String.eqb_eq in E as <-.
      destruct (assoc k' rest) as [v'|] eqn:Ea.
      * destruct (k' =? k) eqn:E'; [|reflexivity].
        apply String.eqb_eq in E' as ->. exfalso. apply Hnotin.
        apply (assoc_key _ _ _ Ea).
      * destruct (k' =? k); reflexivity.
    + rewrite IH. destruct (k' =? k) eqn:E'.
      * reflexivity.
      * destruct (assoc k' rest); reflexivity.
Qed.

Lemma NoDup_define_all ms o :
  NoDup (map fst o) -> NoDup (map fst (define_all ms o)).
Proof.
  unfold define_all. revert o. induction ms as [|[k v] rest IH]; intros o H; simpl.
  - exact H.
  - apply IH. apply NoDup_obj_set. exact H.
Qed.

Lemma assoc_define_all ms o k :
  NoDup (map fst o) ->
  assoc k (define_all ms o)
  = match assoc k ms with
    | Some v => Some v
    | None => assoc k o
    end.
Proof.
  unfold define_all. revert o. induction ms as [|[k0 v0] rest IH]; intros o H; simpl.
  - reflexivity.
  - rewrite IH by (apply NoDup_obj_set; exact H).
    destruct (assoc k rest); [reflexivity|].
    rewrite assoc_obj_set by exact H. destruct (k =? k0); reflexivity.
Qed.

Lemma insert_index_perm m l : Permutation (insert_index m l) (m :: l).
Proof.
  induction l as [|m' rest IH]; simpl; [reflexivity|].
  destruct (array_index (fst m)); [|reflexivity].
  destruct (array_index (fst m')); [|reflexivity].
  destruct (_ <? _)%N; [reflexivity|].
  rewrite IH. apply perm_swap.
Qed.

Lemma sort_indices_perm l : Permutation (sort_indices l) l.
Proof.
  induction l as [|m rest IH]; simpl; [reflexivity|].
  rewrite insert_index_perm. constructor. exact IH.
Qed.

Lemma filter_split_perm {A} (f : A -> bool) (l : list A) :
  Permutation (filter f l ++ filter (fun x => negb (f x)) l) l.
Proof.
  induction l as [|x rest IH]; simpl; [reflexivity|].
  destruct (f x); simpl.
  - constructor. exact IH.
  - rewrite <- Permutation_middle. constructor. exact IH.
Qed.

(** JavaScript lists every property once, whatever the order. *)
Lemma own_property_order_perm props : Permutation (own_property_order props) props.
Proof.
  unfold own_property_order. rewrite sort_indices_perm. apply filter_split_perm.
Qed.

Lemma NoDup_entries ms : NoDup (map fst (entries ms)).
Proof.
  unfold entries.
  apply (Permutation_NoDup (l := map fst (define_all ms []))).
  - apply Permutation_map. symmetry. apply own_property_order_perm.
  - apply NoDup_define_all. constructor.
Qed.

Lemma assoc_perm k a b :
  Permutation a b -> NoDup (map fst a) -> assoc k a = assoc k b.
Proof.
  intros Hp Ha.
  assert (Hb : NoDup (map fst b)).
  { apply (Permutation_NoDup (l := map fst a)); [apply Permutation_map; exact Hp | exact Ha]. }
  destruct (assoc k a) as [v|] eqn:Ea.
  - symmetry. apply (assoc_In k v b Hb).
    apply (Permutation_in _ Hp). apply (assoc_In k v a Ha). exact Ea.
  - destruct (assoc k b) as [v|] eqn:Eb; [|reflexivity].
    apply (assoc_In k v b Hb) in Eb.
    apply (Permutation_in _ (Permutation_sym Hp)) in Eb.
    apply (assoc_In k v a Ha) in Eb. congruence.
Qed.

(** Listing the properties of the parsed object keeps the value of each
    key. *)
Lemma assoc_entries k ms : assoc k (entries ms) = assoc k ms.
Proof.
  unfold entries.
  rewrite (assoc_perm k _ (define_all ms [])).
  - rewrite assoc_define_all by constructor. destruct (assoc k ms); reflexivity.
  - apply own_property_order_perm.
  - apply (Permutation_NoDup (l := map fst (define_all ms []))).
    + apply Permutation_map. symmetry. apply own_property_order_perm.
    + apply NoDup_define_all. constructor.
Qed.

Lemma In_manifest_candidates p props :
  In p (map (fun kv => {| name := Some (JStr (fst kv)); version := Some (snd kv) |}) props)
  <-> exists n v, p = {| name := Some (JStr n); version := Some v |} /\ In (n, v) props.
Proof.
  rewrite in_map_iff. split.
  - intros ([n v] & <- & Hin). exists n, v. auto.
  - intros (n & v & -> & Hin). exists (n, v). auto.
Qed.

(** X2: [extractPkgNames] never throws and reads package.json once.  When
    the file cannot be read or parsed, or holds [null], the candidate list
    is empty.  Otherwise no name occurs twice in the candidate list, every
    name is a string, and a package is a candidate with the value of its
    last declaration, the [devDependencies] coming after the
    [dependencies]: a package declared in both groups is checked with its
    development version only.  The version is whatever JSON value the
    declaration holds. *)
Theorem extractPkgNames_merge w :
  (package_json w = None \/ package_json w = Some JNull ->
   extractPkgNames w = ([ReadManifest], Ret [])) /\
  (forall json,
     package_json w = Some json ->
     exists C,
       extractPkgNames w = ([ReadManifest], Ret C) /\
       NoDup (map name C) /\
       (forall p,
          In p C <->
          exists n v,
            p = {| name := Some (JStr n); version := Some v |} /\
            assoc n (spread_source (own json "dependencies")
                       ++ spread_source (own json "devDependencies")) = Some v) /\
       (forall dependencies devDependencies,
          own json "dependencies" = Some (JObj dependencies) ->
          own json "devDependencies" = Some (JObj devDependencies) ->
          forall n v,
            In {| name := Some (JStr n); version := Some v |} C <->
            match assoc n devDependencies with
            | Some v' => v' = v
            | None => assoc n dependencies = Some v
            end)).
Proof.
  split.
  - unfold extractPkgNames, read_manifest. intros [-> | ->]; reflexivity.
  - intros json Hjson.
    set (a := spread_source (own json "dependencies")).
    set (b := spread_source (own json "devDependencies")).
    set (deps := spread (own json "dependencies") (own json "devDependencies")).
    set (C := map (fun kv => {| name := Some (JStr (fst kv)); version := Some (snd kv) |})
                  (own_property_order deps)).
    assert (Hrun : extractPkgNames w = ([ReadManifest], Ret C)).
    { unfold extractPkgNames, read_manifest. rewrite Hjson.
      destruct json; try reflexivity. }
    assert (Hnd : NoDup (map fst deps)).
    { apply NoDup_define_all, NoDup_define_all. constructor. }
    assert (Hnd' : NoDup (map fst (own_property_order deps))).
    { apply (Permutation_NoDup (l := map fst deps)); [|exact Hnd].
      apply Permutation_map. symmetry. apply own_property_order_perm. }
    assert (Hin : forall n v, In (n, v) (own_property_order deps)
                              <-> assoc n (a ++ b) = Some v).
    { intros n v. rewrite (assoc_In n v _ Hnd').
      rewrite (assoc_perm n _ deps (own_property_order_perm deps) Hnd').
      unfold deps, spread. fold a b.
      rewrite assoc_define_all by (apply NoDup_define_all; constructor).
      rewrite assoc_define_all by constructor.
      rewrite assoc_app. destruct (assoc n b); [tauto|].
      destruct (assoc n a); simpl; tauto. }
    exists C. split; [exact Hrun|]. split; [|split].
    + unfold C. rewrite map_map. cbn [name].
      clear -Hnd'. induction (own_property_order deps) as [|[k v] rest IH];
        simpl in *; [constructor|].
      inversion Hnd' as [|x l Hnotin Hrest]; subst.
      constructor; [|apply IH; exact Hrest].
      intros H. apply in_map_iff in H as ([k' v'] & [= ->] & Hin').
      apply Hnotin. apply in_map_iff. exists (k, v'). auto.
    + intros p. unfold C. rewrite In_manifest_candidates.
      split; intros (n & v & -> & H); exists n, v; (split; [reflexivity|]);
        apply Hin; exact H.
    + intros dependencies devDependencies Ha Hb n v.
      unfold C. rewrite In_manifest_candidates. split.
      * intros (n' & v' & [= <- <-] & H). apply Hin in H. revert H.
        rewrite assoc_app. unfold a, b. rewrite Ha, Hb. cbn [spread_source].
        rewrite !assoc_entries.
        destruct (assoc n devDependencies); [intros [= ->]; reflexivity | auto].
      * intros H. exists n, v. split; [reflexivity|]. apply Hin.
        rewrite assoc_app. unfold a, b. rewrite Ha, Hb. cbn [spread_source].
        rewrite !assoc_entries.
        destruct (assoc n devDependencies); [congruence | exact H].
Qed.

(** A package.json with left-pad in both groups. *)
Example two_groups_candidates :
  result (extractPkgNames two_groups_world)
  = Ret [candidate "left-pad" "1.0.0"; candidate "chalk" "^5.0.0";
         candidate "ora" "~8.0.0"].
Proof. reflexivity. Qed.

(** The project that declares left-pad in both groups. *)
Lemma extractPkgNames_merge_witness :
  exists C,
    extractPkgNames two_groups_world = ([ReadManifest], Ret C) /\
    NoDup (map name C) /\
    In (candidate "left-pad" "1.0.0") C /\
    ~ In (candidate "left-pad" "^1.3.0") C.
Proof.
  destruct (proj2 (extractPkgNames_merge two_groups_world) _ eq_refl)
    as (C & HC & Hnd & _ & Hin).
  exists C. split; [exact HC|]. split; [exact Hnd|].
  specialize (Hin [("left-pad", JStr "^1.3.0"); ("chalk", JStr "^5.0.0")]
                  [("ora", JStr "~8.0.0"); ("left-pad", JStr "1.0.0")]
                  eq_refl eq_refl).
  split.
  - apply Hin. reflexivity.
  - intros H. apply Hin in H. discriminate H.
Defined.

(** ** The oracle client's request *)

Lemma queries_of_length C qs : queries_of C = Some qs -> List.length qs = List.length C.
Proof.
  revert qs. induction C as [|p rest IH]; intros qs; cbn [queries_of].
  - intros [= <-]. reflexivity.
  - destruct (query_of p) as [q|]; [|discriminate].
    destruct (queries_of rest) as [qs'|]; [|discriminate].
    intros [= <-]. simpl. f_equal. apply IH. reflexivity.
Qed.

Lemma queries_of_nth C qs i p :
  queries_of C = Some qs -> nth_error C i = Some p ->
  exists q, nth_error qs i = Some q /\ query_of p = Some q.
Proof.
  revert qs i. induction C as [|p0 rest IH]; intros qs i; cbn [queries_of].
  - intros _ H. destruct i; discriminate H.
  - destruct (query_of p0) as [q0|] eqn:E0; [|discriminate].
    destruct (queries_of rest) as [qs'|]; [|discriminate].
    intros [= <-] Hi. destruct i as [|i]; simpl in Hi.
    + injection Hi as <-. exists q0. auto.
    + apply (IH qs' i eq_refl Hi).
Qed.

Lemma queries_of_none C :
  queries_of C = None <-> exists p, In p C /\ forall v, version p <> Some (JStr v).
Proof.
  induction C as [|p rest IH]; cbn [queries_of].
  - split; [discriminate | intros (p & [] & _)].
  - unfold query_of at 1. destruct (version p) as [[| | |v| |]|] eqn:Ev;
      try (split; [intros _; exists p; split; [left; reflexivity | intros v; rewrite Ev; discriminate]
                  | reflexivity]).
    destruct (queries_of rest) as [qs|].
    + split; [discriminate|]. intros (p' & [<- | Hin] & Hv).
      * exfalso. apply (Hv v Ev).
      * assert (H : Some qs = None) by (apply IH; exists p'; auto).
        discriminate H.
    + split; [|reflexivity]. intros _.
      destruct (proj1 IH eq_refl) as (p' & Hin & Hv). exists p'. split; [right|]; assumption.
Qed.

(** X3: [vulnsCheck] never throws or exits.  When the version of every
    candidate is a string it sends exactly one batch, with one query per
    candidate at the same position, carrying the candidate's name, the
    ecosystem "npm" and the stripped version.  When the version of some
    candidate is not a string (a number, an object, a missing one) no
    request is sent and the result is [null].  The result depends on the
    candidates only through the batch: two candidate lists that differ only
    in what the stripping removes get the same answer. *)
Theorem vulnsCheck_request w C :
  (exists vr, vulnsCheck w C = (query_trace C, Ret vr)) /\
  (forall qs,
     queries_of C = Some qs ->
     trace (vulnsCheck w C) = [Fetch qs] /\
     List.length qs = List.length C /\
     (forall i p,
        nth_error C i = Some p ->
        exists q v,
          nth_error qs i = Some q /\ version p = Some (JStr v) /\
          q_version q = strip_range v /\ q_name q = name p /\ q_ecosystem q = "npm")) /\
  ((exists p, In p C /\ forall v, version p <> Some (JStr v)) ->
   vulnsCheck w C = ([], Ret JNull)) /\
  (forall C', queries_of C' = queries_of C -> vulnsCheck w C' = vulnsCheck w C).
Proof.
  split; [|split; [|split]].
  - destruct (vulnsCheck_run w C) as (vr & Hrun & _). eauto.
  - intros qs Hq. destruct (vulnsCheck_run w C) as (vr & Hrun & _).
    rewrite Hrun. unfold query_trace. rewrite Hq.
    split; [reflexivity|]. split; [apply queries_of_length; exact Hq|].
    intros i p Hi. destruct (queries_of_nth C qs i p Hq Hi) as (q & Hn & Hqo).
    unfold query_of in Hqo. destruct (version p) as [[| | |v| |]|]; try discriminate.
    injection Hqo as <-. eexists. exists v. split; [exact Hn|]. auto.
  - intros Hbad. apply queries_of_none in Hbad.
    destruct (vulnsCheck_run w C) as (vr & Hrun & Hnull).
    rewrite Hrun, (Hnull Hbad). unfold query_trace. rewrite Hbad. reflexivity.
  - intros C' Heq. unfold vulnsCheck. rewrite !mapM_to_query, Heq. reflexivity.
Qed.

(** The caret range, the tilde range and the plain version of left-pad;
    and a candidate without version. *)
Lemma vulnsCheck_request_witness :
  vulnsCheck sample_world [candidate "left-pad" "~1.3.0"]
  = vulnsCheck sample_world [left_pad] /\
  vulnsCheck sample_world [candidate "left-pad" "1.3.0"]
  = vulnsCheck sample_world [left_pad] /\
  vulnsCheck sample_world [left_pad; {| name := None; version := None |}]
  = ([], Ret JNull).
Proof.
  split; [|split].
  - apply (proj2 (proj2 (proj2 (vulnsCheck_request sample_world [left_pad])))).
    reflexivity.
  - apply (proj2 (proj2 (proj2 (vulnsCheck_request sample_world [left_pad])))).
    reflexivity.
  - apply (proj1 (proj2 (proj2 (vulnsCheck_request sample_world
                                  [left_pad; {| name := None; version := None |}])))).
    exists {| name := None; version := None |}.
    split; [right; left; reflexivity | discriminate].
Defined.

(** ** The rendering of one record *)





(** ** The number in the warning *)

(** X5: the number of packages announced by "Found vulnerabilities in N
    packages!" is the number of positions of [results] whose [vulns] is
    truthy.  It never exceeds the length of [results], and it does not depend
    on the candidate list: a result past the end of the candidate list is
    counted as well. *)
Theorem flagged_count rs C :
  List.length (foundVulns rs C) = List.length (flagged_positions rs) /\
  List.length (foundVulns rs C) <= List.length rs /\
  (forall C', List.length (foundVulns rs C') = List.length (foundVulns rs C)) /\
  (foundVulns rs C <> [] ->
   forall w isScan,
     exists rest,
       trace (Cli.processVulnerabilityReport w (JObj [("results", JArr rs)]) C isScan)
       = SpinnerWarn (FoundVulns (List.length (flagged_positions rs))) :: rest).
Proof.
  assert (Hlen : forall C0, List.length (foundVulns rs C0)
                            = List.length (flagged_positions rs)).
  { intros C0. rewrite foundVulns_positions. apply length_map. }
  split; [apply Hlen|]. split; [|split].
  - rewrite Hlen. unfold flagged_positions.
    pose proof (filter_length_le
                  (fun i => truthy (own (nth i rs JNull) "vulns"))
                  (seq 0 (List.length rs))) as Hle.
    rewrite length_seq in Hle. exact Hle.
  - intros C'. rewrite !Hlen. reflexivity.
  - intros Hne w isScan.
    pose proof (report_cases w (JObj [("results", JArr rs)]) C isScan) as H.
    cbv zeta in H.
    destruct H as [(Hf & _) | [(_ & Hna & _) | [(rs' & [= <-] & He & _)
                   | (rs' & [= <-] & _ & Hfl)]]].
    + discriminate Hf.
    + exfalso. apply (Hna rs). reflexivity.
    + contradiction.
    + rewrite <- (Hlen C).
      inversion Hfl; subst; cbn [trace fst]; eexists; reflexivity.
Qed.

(** ** The order of the effects of a run *)

(** What the trace of [processVulnerabilityReport] can hold. *)
Lemma report_project w vr C isScan :
  spawns (trace (Cli.processVulnerabilityReport w vr C isScan)) = [] /\
  fetches (trace (Cli.processVulnerabilityReport w vr C isScan)) = [] /\
  List.length (selects (trace (Cli.processVulnerabilityReport w vr C isScan))) <= 1 /\
  (forall cmd,
     In cmd (execs (trace (Cli.processVulnerabilityReport w vr C isScan))) ->
     isScan = true /\ exists names, cmd = ("npm uninstall " ++ names)%string).
Proof.
  pose proof (report_cases w vr C isScan) as H. cbv zeta in H.
  destruct H as [(_ & ->) | [(_ & _ & ->) | [(rs & _ & _ & ->) | (rs & _ & _ & Hfl)]]].
  - simpl. split; [|split; [|split]]; auto. intros cmd [].
  - simpl. split; [|split; [|split]]; auto. intros cmd [].
  - simpl. split; [|split; [|split]]; auto. intros cmd [].
  - inversion Hfl as [t Hlog _ | t p Hlog _ _ | t p Hlog _ _
                      | t Hlog _ _ | t pkgNames names shown Hlog Hscan _ _ _ _];
      destruct (logs_project _ Hlog) as (He & Hs & Hp & Hf);
      project; rewrite ?He, ?Hs, ?Hp, ?Hf; cbn [app List.length].
    + split; [|split; [|split]]; auto. intros cmd [].
    + split; [|split; [|split]]; auto. intros cmd [].
    + split; [|split; [|split]]; auto. intros cmd [].
    + split; [|split; [|split]]; auto. intros cmd [].
    + destruct (uninstall_trace_project w names shown) as (Hue & Hus & Hup & Huf & _).
      rewrite Hue, Hus, Hup, Huf.
      split; [|split; [|split]]; auto.
      intros cmd [<- | []]. split; [exact Hscan | exists names; reflexivity].
Qed.

(** The report that returns has printed the API failure or the clean
    report, or the operator has answered "ignore". *)
Lemma report_returns w vr C isScan t b :
  Cli.processVulnerabilityReport w vr C isScan = (t, Ret b) ->
  In (SpinnerFail ApiError) t \/ In (SpinnerSucceed NoKnownVulns) t \/
  In (Select (if isScan then ScanPrompt else InstallPrompt) (Some "ignore")) t.
Proof.
  intros Hrep.
  pose proof (report_cases w vr C isScan) as H. cbv zeta in H. rewrite Hrep in H.
  destruct H as [(_ & [= -> _]) | [(_ & _ & [=]) | [(rs & _ & _ & [= -> _])
                 | (rs & _ & _ & Hfl)]]].
  - left. left. reflexivity.
  - right. left. left. reflexivity.
  - inversion Hfl as [t' Hlog _ | t' p Hlog _ _ | t' p Hlog -> _
                      | t' Hlog _ _ | t' pkgNames names shown Hlog Hscan _ _ _ _].
    right. right. find_in.
Qed.

(** The projections of a run that goes through the security check, from
    those of the report. *)
Lemma run_projections w pkgs scan C pre t o :
  prepared w pkgs scan C pre ->
  let run := (pre ++ SpinnerSucceed (PreparedList (List.length C))
                :: SpinnerStart CheckingVulns
                :: query_trace C ++ t ++ trace (after_report w pkgs scan C o),
              result (after_report w pkgs scan C o)) in
  selects (trace run) = selects t /\
  execs (trace run) = (if scan then [] else map view_cmd pkgs) ++ execs t /\
  spawns (trace run) = spawns t ++ spawns (trace (after_report w pkgs scan C o)) /\
  fetches (trace run) = fetches (query_trace C) ++ fetches t.
Proof.
  intros Hpre run. subst run.
  destruct (prepared_project _ _ _ _ _ Hpre) as (Hps & Hpp & Hpf & Hpe).
  destruct (query_trace_project C) as (Hqe & Hqs & Hqp & _).
  destruct (after_report_project w pkgs scan C o) as (Hae & Has & Haf & _).
  project. rewrite Hps, Hpp, Hpe, Hpf, Hqe, Hqs, Hqp, Hae, Has, Haf, !app_nil_r. auto.
Qed.

(** The oracle is queried exactly when every candidate gives a query. *)
Lemma run_fetches w pkgs scan C :
  candidates w pkgs scan C ->
  fetches (trace (Cli.install_action w pkgs scan))
  = match queries_of C with
    | Some qs => [qs]
    | None => []
    end.
Proof.
  intros Hcand.
  destruct (install_action_cases w pkgs scan)
    as [(Hmode & Hempty & Hrun) | (C' & pre & vr & t & o & Hpre & Hvr & Hrep & Hrun)];
    rewrite Hrun; clear Hrun; cbn [trace fst].
  - unfold candidates in Hcand. rewrite Hmode in Hcand.
    destruct Hcand as [HC Hne]. rewrite Hempty in HC. injection HC as <-. contradiction.
  - destruct (run_projections w pkgs scan C' pre t o Hpre) as (_ & _ & _ & Hf).
    cbn [trace fst] in Hf.
    destruct (report_project w vr C' scan) as (_ & Hrf & _).
    rewrite Hrep in Hrf. cbn [trace fst] in Hrf.
    rewrite Hf, Hrf, app_nil_r, (candidates_prepared _ _ _ _ _ _ Hcand Hpre).
    unfold query_trace. destruct (queries_of C); reflexivity.
Qed.

(** X6: in a run of the action of [src/unnamed/part_000] the oracle is
    queried at most once, at most one prompt is shown and at most one child
    process is started.  The oracle is queried exactly when the version of
    every candidate is a string.  A child is started in install mode only;
    it is [npm install] with the arguments of the command line as they were
    typed, it comes after the API failure report, the clean report or the
    operator's "ignore", and nothing but [console.log] lines follow it. *)
Theorem one_query_one_prompt_one_child w pkgs scan :
  List.length (fetches (trace (Cli.install_action w pkgs scan))) <= 1 /\
  List.length (selects (trace (Cli.install_action w pkgs scan))) <= 1 /\
  List.length (spawns (trace (Cli.install_action w pkgs scan))) <= 1 /\
  (forall C,
     candidates w pkgs scan C ->
     fetches (trace (Cli.install_action w pkgs scan))
     = match queries_of C with
       | Some qs => [qs]
       | None => []
       end) /\
  (forall cmd args,
     In (Spawn cmd args) (trace (Cli.install_action w pkgs scan)) ->
     scan = false /\ cmd = "npm" /\ args = "install" :: pkgs /\
     exists before rest,
       trace (Cli.install_action w pkgs scan) = before ++ Spawn cmd args :: rest /\
       spawns before = [] /\
       Forall is_log rest /\
       (In (SpinnerFail ApiError) before \/ In (SpinnerSucceed NoKnownVulns) before \/
        In (Select InstallPrompt (Some "ignore")) before)).
Proof.
  destruct (install_action_cases w pkgs scan)
    as [(Hmode & Hempty & Hrun) | (C & pre & vr & t & o & Hpre & Hvr & Hrep & Hrun)];
    rewrite Hrun; cbn [trace fst].
  - simpl. split; [|split; [|split; [|split]]]; auto.
    + intros C Hcand. unfold candidates in Hcand. rewrite Hmode in Hcand.
      destruct Hcand as [HC Hne]. rewrite Hempty in HC. injection HC as <-. contradiction.
    + intros cmd args H. repeat (destruct H as [H|H]; [discriminate H|]). destruct H.
  - destruct (run_projections w pkgs scan C pre t o Hpre) as (Hs & _ & Hp & Hf).
    cbn [trace fst] in Hs, Hp, Hf.
    destruct (prepared_project _ _ _ _ _ Hpre) as (_ & Hpp & _).
    destruct (query_trace_project C) as (_ & _ & Hqp & Hqf).
    destruct (report_project w vr C scan) as (Hrp & Hrf & Hrs & _).
    rewrite Hrep in Hrp, Hrf, Hrs. cbn [trace fst] in Hrp, Hrf, Hrs.
    destruct (after_report_project w pkgs scan C o) as (_ & _ & _ & HaR & HaE & HaT).
    rewrite Hs, Hp, Hf, Hrp, Hrf, app_nil_r. cbn [app].
    split; [exact Hqf|]. split; [exact Hrs|]. split; [|split].
    + destruct o as [b|c|e].
      * specialize (HaR b eq_refl). destruct scan.
        -- rewrite HaR. simpl. lia.
        -- destruct HaR as [-> _]. simpl. lia.
      * destruct (HaE c eq_refl) as [_ ->]. simpl. lia.
      * destruct (HaT e eq_refl) as [_ ->]. simpl. lia.
    + intros C' Hcand. rewrite <- (run_fetches w pkgs scan C' Hcand), Hrun.
      cbn [trace fst]. rewrite Hf, Hrf, app_nil_r. reflexivity.
    + intros cmd args H.
      assert (Hin : In (Spawn cmd args) (trace (after_report w pkgs scan C o))).
      { apply in_app_or in H as [H|H].
        - apply In_spawn in H. rewrite Hpp in H. destruct H.
        - destruct H as [H|[H|H]]; try discriminate H.
          apply in_app_or in H as [H|H]; [apply In_spawn in H; rewrite Hqp in H; destruct H|].
          apply in_app_or in H as [H|H]; [|exact H].
          apply In_spawn in H. rewrite Hrp in H. destruct H. }
      destruct o as [b|c|e]; simpl in Hin; try contradiction.
      destruct scan; simpl in Hin; [destruct Hin as [Hin|[]]; discriminate Hin|].
      cbn [after_report].
      destruct (hand_over_shape w pkgs (List.length pkgs =? 0)%nat C)
        as (rest & Hho & Hlog).
      rewrite Hho in Hin |- *. cbn [trace fst] in Hin |- *.
      destruct Hin as [Hin|[Hin|Hin]]; [discriminate Hin| |].
      * injection Hin as <- <-. repeat split.
        exists (pre ++ SpinnerSucceed (PreparedList (List.length C))
                  :: SpinnerStart CheckingVulns
                  :: query_trace C ++ t ++ [ConsoleLog HandingOver]), rest.
        split; [|split; [|split]].
        -- rewrite <- !app_assoc. simpl. rewrite <- !app_assoc. reflexivity.
        -- project. rewrite Hpp, Hqp, Hrp. reflexivity.
        -- exact Hlog.
        -- destruct (report_returns w vr C false t b Hrep) as [Hr | [Hr | Hr]];
             [left | right; left | right; right]; find_in.
      * exfalso. rewrite Forall_forall in Hlog. apply (Hlog _ Hin).
Qed.

(** [install left-pad] when the oracle cannot be reached. *)
Lemma one_query_one_prompt_one_child_witness :
  In (Spawn "npm" ["install"; "left-pad"])
     (trace (Cli.install_action offline_world ["left-pad"] false)) /\
  (exists before rest,
     trace (Cli.install_action offline_world ["left-pad"] false)
     = before ++ Spawn "npm" ["install"; "left-pad"] :: rest /\
     spawns before = [] /\
     Forall is_log rest /\
     (In (SpinnerFail ApiError) before \/ In (SpinnerSucceed NoKnownVulns) before \/
      In (Select InstallPrompt (Some "ignore")) before)) /\
  fetches (trace (Cli.install_action range_world ["lodash@^4.17.20"] false)) = [].
Proof.
  assert (H : In (Spawn "npm" ["install"; "left-pad"])
                 (trace (Cli.install_action offline_world ["left-pad"] false))).
  { apply In_spawn. vm_compute. left. reflexivity. }
  split; [exact H|]. split.
  - apply (proj2 (proj2 (proj2 (proj2 (one_query_one_prompt_one_child
                                         offline_world ["left-pad"] false))))
             "npm" ["install"; "left-pad"] H).
  - apply (proj1 (proj2 (proj2 (proj2 (one_query_one_prompt_one_child
                                         range_world ["lodash@^4.17.20"] false))))
             [{| name := None; version := None |}]).
    reflexivity.
Defined.

(** ** The other answers at the prompt *)

Lemma prepared_candidates w pkgs scan C pre :
  prepared w pkgs scan C pre -> candidates w pkgs scan C.
Proof.
  unfold candidates. intros [C' Hmode HC Hne | C' -> Hpk HC].
  - rewrite Hmode. auto.
  - destruct pkgs; [contradiction|]. exact HC.
Qed.

(** The runs of the report by what the prompt list of their trace is. *)
Lemma report_by_prompt w vr C isScan t o :
  Cli.processVulnerabilityReport w vr C isScan = (t, o) ->
  spawns t = [] /\
  ((selects t = [] /\ execs t = [] /\
    ((exists b, o = Ret b) \/ o = Throw TypeError))
   \/ (selects t = [(if isScan then ScanPrompt else InstallPrompt, None)] /\
       execs t = [] /\ o = Throw PromptClosed)
   \/ (selects t = [(if isScan then ScanPrompt else InstallPrompt, Some "ignore")] /\
       execs t = [] /\ o = Ret true)
   \/ (isScan = false /\ selects t = [(InstallPrompt, Some "abort")] /\
       execs t = [] /\ o = Exit 1%Z)
   \/ (isScan = true /\ selects t = [(ScanPrompt, Some "uninstall")] /\
       (exists names, execs t = [("npm uninstall " ++ names)%string]) /\ o = Exit 0%Z)).
Proof.
  intros Hrep.
  destruct (report_project w vr C isScan) as (Hsp & _). rewrite Hrep in Hsp.
  split; [exact Hsp|]. clear Hsp.
  pose proof (report_cases w vr C isScan) as H. cbv zeta in H. rewrite Hrep in H.
  destruct H as [(_ & [= -> ->]) | [(_ & _ & [= -> ->]) | [(rs & _ & _ & [= -> ->])
                 | (rs & _ & _ & Hfl)]]].
  - left. simpl. eauto 6.
  - left. simpl. eauto 6.
  - left. simpl. eauto 6.
  - inversion Hfl as [t' Hlog _ | t' p Hlog -> _ | t' p Hlog -> _
                      | t' Hlog Hscan _ | t' pkgNames names shown Hlog Hscan _ _ _ _];
      destruct (logs_project _ Hlog) as (He & Hs & _);
      project; rewrite ?He, ?Hs; cbn [app].
    + left. eauto 6.
    + right. left. auto.
    + right. right. left. auto.
    + right. right. right. left. auto.
    + right. right. right. right.
      destruct (uninstall_trace_project w names shown) as (Hue & Hus & _).
      rewrite Hue, Hus. split; [exact Hscan|]. split; [reflexivity|].
      split; [exists names; reflexivity | reflexivity].
Qed.

(** X7: when the operator answers "ignore", the prompt was the one of the
    mode.  In scan mode the run returns and nothing is started.  In install
    mode [npm install] is started with the arguments as typed, and the run
    ends as every run that has handed over to npm ends: it returns, unless
    the child closes with 0 and a candidate has a name without text.  In
    neither mode is anything uninstalled: the only shell commands of the run
    are the registry lookups of the arguments. *)
Theorem ignore_continues w pkgs scan p :
  In (Select p (Some "ignore")) (trace (Cli.install_action w pkgs scan)) ->
  p = (if scan then ScanPrompt else InstallPrompt) /\
  (if scan then result (Cli.install_action w pkgs scan) = Ret tt
   else exists C, candidates w pkgs scan C /\
                  closes w pkgs C (result (Cli.install_action w pkgs scan))) /\
  spawns (trace (Cli.install_action w pkgs scan))
  = (if scan then [] else [("npm", "install" :: pkgs)]) /\
  execs (trace (Cli.install_action w pkgs scan))
  = (if scan then [] else map view_cmd pkgs).
Proof.
  intros Hsel. apply In_select in Hsel.
  destruct (install_action_cases w pkgs scan)
    as [(_ & _ & Hrun) | (C & pre & vr & t & o & Hpre & Hvr & Hrep & Hrun)];
    rewrite Hrun in *; clear Hrun.
  - simpl in Hsel. contradiction.
  - destruct (run_projections w pkgs scan C pre t o Hpre) as (Hs & He & Hp & _).
    rewrite Hs in Hsel. rewrite He, Hp. cbn [result snd].
    destruct (report_by_prompt w vr C scan t o Hrep)
      as (Hsp & [(Hst & _) | [(Hst & _) | [(Hst & Het & ->)
          | [(_ & Hst & _) | (_ & Hst & _)]]]]);
      rewrite Hst in Hsel; simpl in Hsel;
      try contradiction; try (destruct Hsel as [H|[]]; discriminate H).
    destruct Hsel as [[= <-] | []].
    rewrite Hsp, Het, app_nil_r. cbn [app].
    destruct (after_report_project w pkgs scan C (Ret true)) as (_ & _ & _ & HaR & _).
    specialize (HaR true eq_refl).
    pose proof (prepared_candidates _ _ _ _ _ Hpre) as Hcand.
    destruct scan.
    + rewrite HaR. repeat split.
    + destruct HaR as [-> Hc]. repeat split. exists C. auto.
Qed.

(** The sample project, second choice, in install mode and in scan mode. *)
Lemma ignore_continues_witness :
  (spawns (trace (Cli.install_action second_choice_world [] false))
   = [("npm", ["install"])] /\
   execs (trace (Cli.install_action second_choice_world [] false)) = []) /\
  (result (Cli.install_action second_choice_world [] true) = Ret tt /\
   spawns (trace (Cli.install_action second_choice_world [] true)) = [] /\
   execs (trace (Cli.install_action second_choice_world [] true)) = []).
Proof.
  split.
  - assert (H : In (Select InstallPrompt (Some "ignore"))
                   (trace (Cli.install_action second_choice_world [] false))).
    { apply In_select. vm_compute. left. reflexivity. }
    destruct (ignore_continues second_choice_world [] false InstallPrompt H)
      as (_ & _ & Hp & He).
    split; [exact Hp | exact He].
  - assert (H : In (Select ScanPrompt (Some "ignore"))
                   (trace (Cli.install_action second_choice_world [] true))).
    { apply In_select. vm_compute. left. reflexivity. }
    destruct (ignore_continues second_choice_world [] true ScanPrompt H)
      as (_ & Hr & Hp & He).
    split; [exact Hr|]. split; [exact Hp | exact He].
Defined.

(** X8: when the prompt is closed without an answer, [select] rejects and
    the action dies of that exception: nothing is installed and nothing is
    uninstalled, the only shell commands of the run being the registry
    lookups of the arguments. *)
Theorem closed_prompt_ends_run w pkgs scan p :
  In (Select p None) (trace (Cli.install_action w pkgs scan)) ->
  p = (if scan then ScanPrompt else InstallPrompt) /\
  result (Cli.install_action w pkgs scan) = Throw PromptClosed /\
  spawns (trace (Cli.install_action w pkgs scan)) = [] /\
  execs (trace (Cli.install_action w pkgs scan))
  = (if scan then [] else map view_cmd pkgs).
Proof.
  intros Hsel. apply In_select in Hsel.
  destruct (install_action_cases w pkgs scan)
    as [(_ & _ & Hrun) | (C & pre & vr & t & o & Hpre & Hvr & Hrep & Hrun)];
    rewrite Hrun in *; clear Hrun.
  - simpl in Hsel. contradiction.
  - destruct (run_projections w pkgs scan C pre t o Hpre) as (Hs & He & Hp & _).
    rewrite Hs in Hsel. rewrite He, Hp. cbn [result snd].
    destruct (report_by_prompt w vr C scan t o Hrep)
      as (Hsp & [(Hst & _) | [(Hst & Het & ->) | [(Hst & _)
          | [(_ & Hst & _) | (_ & Hst & _)]]]]);
      rewrite Hst in Hsel; simpl in Hsel;
      try contradiction; try (destruct Hsel as [H|[]]; discriminate H).
    destruct Hsel as [[= <-] | []].
    rewrite Hsp, Het. cbn [after_report throw trace result fst snd app spawns].
    rewrite !app_nil_r. repeat split.
Qed.

(** The sample project when the operator closes the prompt. *)
Lemma closed_prompt_ends_run_witness :
  result (Cli.install_action closed_prompt_world [] false) = Throw PromptClosed /\
  spawns (trace (Cli.install_action closed_prompt_world [] false)) = [].
Proof.
  assert (H : In (Select InstallPrompt None)
                 (trace (Cli.install_action closed_prompt_world [] false))).
  { apply In_select. vm_compute. left. reflexivity. }
  destruct (closed_prompt_ends_run closed_prompt_world [] false InstallPrompt H)
    as (_ & Hr & Hp & _).
  split; [exact Hr | exact Hp].
Defined.

(** ** Answers the report cannot read *)

Lemma vulnsCheck_answer w C vr :
  result (vulnsCheck w C) = Ret vr -> vr <> JNull ->
  exists qs, queries_of C = Some qs /\ query_trace C = [Fetch qs].
Proof.
  intros Hvr Hnn. destruct (vulnsCheck_run w C) as (vr' & Hrun & Hnull).
  rewrite Hrun in Hvr. injection Hvr as ->.
  unfold query_trace. destruct (queries_of C) as [qs|]; [eauto|].
  exfalso. apply Hnn. apply Hnull. reflexivity.
Qed.

(** X9: when [results] is there but is not an array (a string, a number,
    an object), both entry points die of a [TypeError] right after the
    oracle query: no report is printed, no prompt is shown and npm is not
    started.  The failure report is for a missing or falsy [results]
    only. *)
Theorem results_not_an_array w pkgs C vr :
  result (vulnsCheck w C) = Ret vr ->
  truthy (own vr "results") = true ->
  (forall rs, own vr "results" <> Some (JArr rs)) ->
  (forall scan,
     candidates w pkgs scan C ->
     result (Cli.install_action w pkgs scan) = Throw TypeError /\
     (exists before qs,
        queries_of C = Some qs /\
        trace (Cli.install_action w pkgs scan) = before ++ [Fetch qs]) /\
     selects (trace (Cli.install_action w pkgs scan)) = [] /\
     spawns (trace (Cli.install_action w pkgs scan)) = []) /\
  (index_candidates w pkgs C ->
   result (IndexJs.install_action w pkgs) = Throw TypeError /\
   spawns (trace (IndexJs.install_action w pkgs)) = []).
Proof.
  intros Hvr Htruthy Hna.
  assert (Hnn : vr <> JNull) by (intros ->; discriminate Htruthy).
  destruct (vulnsCheck_answer w C vr Hvr Hnn) as (qs & Hq & Hqt).
  split.
  - intros scan Hcand.
    destruct (run_of_candidates w pkgs scan C vr Hcand Hvr) as (pre & Hpre & ->).
    destruct (prepared_project _ _ _ _ _ Hpre) as (Hps & Hpp & _).
    pose proof (report_cases w vr C scan) as H. cbv zeta in H.
    rewrite Htruthy in H.
    destruct H as [(Hf & _) | [(_ & _ & ->) | [(rs & Hrs & _) | (rs & Hrs & _)]]].
    + destruct (own vr "results") as [x|] eqn:E; [|discriminate].
      rewrite (own_some_truthy _ _ _ E) in Hf. discriminate.
    + cbn [trace result fst snd after_report throw app]. rewrite Hqt.
      split; [reflexivity|]. split; [|split].
      * exists (pre ++ [SpinnerSucceed (PreparedList (List.length C));
                        SpinnerStart CheckingVulns]), qs.
        split; [exact Hq|]. rewrite <- app_assoc. reflexivity.
      * project. rewrite Hps. reflexivity.
      * project. rewrite Hpp. reflexivity.
    + exfalso. apply (Hna rs Hrs).
    + exfalso. apply (Hna rs Hrs).
  - intros Hcand.
    destruct (index_js_run_of_candidates w pkgs C vr Hcand Hvr) as (pre & _ & Hpp & ->).
    pose proof (security_check_cases vr C) as H. cbv zeta in H.
    rewrite Htruthy in H.
    destruct H as [(Hf & _) | [(_ & _ & ->) | [(rs & Hrs & _) | (rs & t & Hrs & _)]]].
    + destruct (own vr "results") as [x|] eqn:E; [|discriminate].
      rewrite (own_some_truthy _ _ _ E) in Hf. discriminate.
    + cbn [trace result fst snd]. split; [reflexivity|].
      project. rewrite Hpp. reflexivity.
    + exfalso. apply (Hna rs Hrs).
    + exfalso. apply (Hna rs Hrs).
Qed.

(** An oracle whose [results] is the string "none". *)
Lemma results_not_an_array_witness :
  result (Cli.install_action bad_results_world [] false) = Throw TypeError /\
  spawns (trace (Cli.install_action bad_results_world [] false)) = [] /\
  result (IndexJs.install_action bad_results_world []) = Throw TypeError.
Proof.
  assert (Hna : forall rs, own (JObj [("results", JStr "none")]) "results"
                          <> Some (JArr rs)) by discriminate.
  destruct (results_not_an_array bad_results_world [] [left_pad]
              (JObj [("results", JStr "none")]) eq_refl eq_refl Hna)
    as (Hcli & Hindex).
  destruct (Hcli false) as (Hr & _ & _ & Hp).
  { split; [reflexivity | discriminate]. }
  destruct Hindex as (Hri & _).
  { reflexivity. }
  split; [exact Hr|]. split; [exact Hp | exact Hri].
Defined.

(** A loop of the report that meets an entry on which its body does not
    return dies of a [TypeError]. *)
Lemma loop_throws {A} (f : A -> M unit) (xs : list A) (x : A) :
  (forall y, quiet (f y)) ->
  In x xs -> result (f x) <> Ret tt ->
  result (forEach f xs) = Throw TypeError.
Proof.
  intros Hq Hin Hx. apply quiet_throws; [apply quiet_forEach; exact Hq|].
  intros []. apply (forEach_not_ret f xs x Hin Hx).
Qed.

(** The report when the rendering loop throws. *)
Lemma report_render_throws w vr C isScan rs :
  own vr "results" = Some (JArr rs) ->
  result (forEach Cli.render_entry (foundVulns rs C)) = Throw TypeError ->
  exists t,
    Forall is_log t /\
    Cli.processVulnerabilityReport w vr C isScan
    = (SpinnerWarn (FoundVulns (List.length (foundVulns rs C))) :: t, Throw TypeError).
Proof.
  intros Hrs Hthrow.
  assert (Hne : foundVulns rs C <> []).
  { intros E. rewrite E in Hthrow. discriminate. }
  unfold Cli.processVulnerabilityReport.
  rewrite Hrs, (own_some_truthy _ _ _ Hrs). cbn [truthy negb orb as_array].
  rewrite bind_ret_l. cbv zeta.
  destruct (foundVulns rs C) as [|v found] eqn:Ef; [contradiction|].
  change (0 <? List.length (v :: found))%nat with true. cbv iota.
  destruct (quiet_cases _ (quiet_forEach _ (v :: found) quiet_render_entry))
    as (t & Hlog & [([] & E) | E]); rewrite E in *.
  - discriminate Hthrow.
  - exists t. split; [exact Hlog | reflexivity].
Qed.

Lemma past_the_end rs C i r :
  nth_error rs i = Some r -> truthy (own r "vulns") = true -> List.length C <= i ->
  In (attach C i r) (foundVulns rs C) /\ originalPkg (attach C i r) = None.
Proof.
  intros Hi Ht Hlen. split.
  - apply In_foundVulns. exists i, r. auto.
  - unfold attach. cbn [originalPkg]. apply nth_error_None. exact Hlen.
Qed.

(** X10: bounds.  When the oracle's [results] has a flagged entry at a
    position past the end of the candidate list, the entry has no package: the
    report announces the flagged packages and then dies of a [TypeError],
    on [v.originalPkg.name] if not before, and before any prompt.  Nothing is
    installed and nothing is uninstalled, in [src/unnamed/part_000] and in
    [src/index.js] alike. *)
Theorem flagged_past_the_end w pkgs C vr rs i r :
  result (vulnsCheck w C) = Ret vr ->
  own vr "results" = Some (JArr rs) ->
  nth_error rs i = Some r ->
  truthy (own r "vulns") = true ->
  List.length C <= i ->
  (forall scan,
     candidates w pkgs scan C ->
     result (Cli.install_action w pkgs scan) = Throw TypeError /\
     In (SpinnerWarn (FoundVulns (List.length (flagged_positions rs))))
        (trace (Cli.install_action w pkgs scan)) /\
     selects (trace (Cli.install_action w pkgs scan)) = [] /\
     spawns (trace (Cli.install_action w pkgs scan)) = [] /\
     execs (trace (Cli.install_action w pkgs scan))
     = (if scan then [] else map view_cmd pkgs)) /\
  (index_candidates w pkgs C ->
   result (IndexJs.install_action w pkgs) = Throw TypeError /\
   spawns (trace (IndexJs.install_action w pkgs)) = []).
Proof.
  intros Hvr Hrs Hi Ht Hlen.
  destruct (past_the_end rs C i r Hi Ht Hlen) as [Hin Hnone].
  split.
  - intros scan Hcand.
    assert (Hthrow : result (forEach Cli.render_entry (foundVulns rs C)) = Throw TypeError).
    { apply (loop_throws _ _ _ quiet_render_entry Hin).
      unfold Cli.render_entry, originalPkg_name. rewrite Hnone. discriminate. }
    destruct (report_render_throws w vr C scan rs Hrs Hthrow)
      as (t & Hlog & Hrep).
    destruct (run_of_candidates w pkgs scan C vr Hcand Hvr) as (pre & Hpre & Hrun).
    rewrite Hrep in Hrun. cbn [trace result fst snd] in Hrun.
    destruct (run_projections w pkgs scan C pre
                (SpinnerWarn (FoundVulns (List.length (foundVulns rs C))) :: t)
                (Throw TypeError) Hpre) as (Hs & He & Hp & _).
    rewrite <- Hrun in Hs, He, Hp.
    destruct (logs_project _ Hlog) as (Hle & Hls & Hlp & _).
    rewrite Hs, He, Hp. cbn [selects execs spawns after_report throw trace fst app].
    rewrite Hle, Hls, Hlp, !app_nil_r.
    split; [rewrite Hrun; reflexivity|]. split; [|auto].
    rewrite Hrun. cbn [trace fst].
    replace (List.length (flagged_positions rs)) with (List.length (foundVulns rs C))
      by (rewrite foundVulns_positions; apply length_map).
    find_in.
  - intros Hcand.
    assert (Hne : foundVulns rs C <> []).
    { intros E. rewrite E in Hin. destruct Hin. }
    destruct (index_js_abort w pkgs C vr rs Hcand Hvr Hrs Hne) as (Hno & _ & _ & Hthrow).
    split.
    + apply Hthrow. apply (forEach_not_ret _ _ _ Hin).
      unfold IndexJs.report_entry, originalPkg_name. rewrite Hnone. discriminate.
    + destruct (spawns (trace (IndexJs.install_action w pkgs))) as [|[cmd args] rest] eqn:E;
        [reflexivity|].
      exfalso. apply (Hno cmd args). apply In_spawn. rewrite E. left. reflexivity.
Qed.

(** One candidate, two results, the second one flagged. *)
Lemma flagged_past_the_end_witness :
  result (Cli.install_action long_reply_world [] false) = Throw TypeError /\
  selects (trace (Cli.install_action long_reply_world [] false)) = [] /\
  spawns (trace (Cli.install_action long_reply_world [] false)) = [] /\
  result (IndexJs.install_action long_reply_world []) = Throw TypeError.
Proof.
  destruct (flagged_past_the_end long_reply_world [] [left_pad]
              (JObj [("results", JArr [JObj []; JObj [("vulns", JArr [high_vuln])]])])
              [JObj []; JObj [("vulns", JArr [high_vuln])]]
              1 (JObj [("vulns", JArr [high_vuln])])
              eq_refl eq_refl eq_refl eq_refl (le_n 1))
    as (Hcli & Hindex).
  destruct (Hcli false) as (Hr & _ & Hs & Hp & _).
  { split; [reflexivity | discriminate]. }
  destruct Hindex as (Hri & _).
  { reflexivity. }
  split; [exact Hr|]. split; [exact Hs|]. split; [exact Hp | exact Hri].
Defined.

(** ** Runs without a flagged package *)

Lemma report_unflagged w vr C isScan :
  (truthy (Some vr) && truthy (own vr "results") = false ->
   Cli.processVulnerabilityReport w vr C isScan = ([SpinnerFail ApiError], Ret false)) /\
  (forall rs, own vr "results" = Some (JArr rs) -> foundVulns rs C = [] ->
   Cli.processVulnerabilityReport w vr C isScan = ([SpinnerSucceed NoKnownVulns], Ret true)).
Proof.
  pose proof (report_cases w vr C isScan) as H. cbv zeta in H. split.
  - intros Hf. rewrite Hf in H.
    destruct H as [(_ & ->) | [(Ht & _) | [(rs & Hrs & _) | (rs & Hrs & _)]]];
      try reflexivity.
    + destruct (own vr "results") as [x|] eqn:E; [|discriminate].
      rewrite (own_some_truthy _ _ _ E), Ht in Hf. discriminate.
    + rewrite Hrs, (own_some_truthy _ _ _ Hrs) in Hf. discriminate.
    + rewrite Hrs, (own_some_truthy _ _ _ Hrs) in Hf. discriminate.
  - intros rs Hrs Hfound. rewrite Hrs, (own_some_truthy _ _ _ Hrs) in H.
    destruct H as [(Hf & _) | [(_ & Hna & _) | [(rs' & _ & _ & ->)
                   | (rs' & [= <-] & Hne & _)]]]; try reflexivity.
    + discriminate Hf.
    + exfalso. apply (Hna rs). reflexivity.
    + contradiction.
Qed.

(** The run in which nothing is flagged. *)
Lemma unflagged_run w pkgs scan C vr :
  candidates w pkgs scan C ->
  result (vulnsCheck w C) = Ret vr ->
  truthy (Some vr) && truthy (own vr "results") = false \/
  (exists rs, own vr "results" = Some (JArr rs) /\ foundVulns rs C = []) ->
  selects (trace (Cli.install_action w pkgs scan)) = [] /\
  (if scan then result (Cli.install_action w pkgs scan) = Ret tt
   else closes w pkgs C (result (Cli.install_action w pkgs scan))) /\
  spawns (trace (Cli.install_action w pkgs scan))
  = (if scan then [] else [("npm", "install" :: pkgs)]) /\
  execs (trace (Cli.install_action w pkgs scan))
  = (if scan then [] else map view_cmd pkgs) /\
  (truthy (Some vr) && truthy (own vr "results") = false ->
   In (SpinnerFail ApiError) (trace (Cli.install_action w pkgs scan))) /\
  (truthy (Some vr) && truthy (own vr "results") = true ->
   In (SpinnerSucceed NoKnownVulns) (trace (Cli.install_action w pkgs scan))) /\
  (scan = true ->
   In (ConsoleLog ScanComplete) (trace (Cli.install_action w pkgs scan))).
Proof.
  intros Hcand Hvr Hunflagged.
  destruct (run_of_candidates w pkgs scan C vr Hcand Hvr) as (pre & Hpre & Hrun).
  destruct (report_unflagged w vr C scan) as [Hfail Hclean].
  assert (Hrep : exists m b,
             Cli.processVulnerabilityReport w vr C scan = ([m], Ret b) /\
             (truthy (Some vr) && truthy (own vr "results") = false ->
              m = SpinnerFail ApiError) /\
             (truthy (Some vr) && truthy (own vr "results") = true ->
              m = SpinnerSucceed NoKnownVulns)).
  { destruct Hunflagged as [Hf | (rs & Hrs & He)].
    - exists (SpinnerFail ApiError), false. split; [apply Hfail; exact Hf|].
      split; [reflexivity|]. rewrite Hf. discriminate.
    - exists (SpinnerSucceed NoKnownVulns), true. split; [apply (Hclean rs Hrs He)|].
      split; [|reflexivity]. rewrite Hrs, (own_some_truthy _ _ _ Hrs). discriminate. }
  destruct Hrep as (m & b & Hrep & Hmf & Hmc).
  rewrite Hrep in Hrun. cbn [trace result fst snd] in Hrun.
  destruct (run_projections w pkgs scan C pre [m] (Ret b) Hpre) as (Hs & He & Hp & _).
  rewrite <- Hrun in Hs, He, Hp. rewrite Hs, He, Hp.
  assert (Hm : selects [m] = [] /\ execs [m] = [] /\ spawns [m] = []).
  { destruct (bool_dec (truthy (Some vr) && truthy (own vr "results")) true) as [Ht|Ht].
    - rewrite (Hmc Ht). auto.
    - apply not_true_is_false in Ht. rewrite (Hmf Ht). auto. }
  destruct Hm as (-> & -> & ->). rewrite app_nil_r. cbn [app].
  destruct (after_report_project w pkgs scan C (Ret b)) as (_ & _ & _ & HaR & _).
  specialize (HaR b eq_refl).
  split; [reflexivity|]. split; [|split; [|split; [reflexivity|]]].
  - rewrite Hrun. cbn [result snd]. destruct scan; [rewrite HaR; reflexivity|].
    apply HaR.
  - destruct scan; [rewrite HaR; reflexivity | apply HaR].
  - split; [|split].
    + intros Hf. rewrite Hrun, <- (Hmf Hf). cbn [trace fst]. find_in.
    + intros Ht. rewrite Hrun, <- (Hmc Ht). cbn [trace fst]. find_in.
    + intros ->. rewrite Hrun. cbn [trace fst after_report emit]. find_in.
Qed.

(** X11: a run of [src/unnamed/part_000] in which nothing is flagged, be it
    that the oracle's answer is unusable or that it flags no position, shows
    no prompt.  The report is the API failure in the first case and "No
    known vulnerabilities found." in the second.  In scan mode nothing is
    started, no shell command is run and the run returns, so a scan that
    could not reach the oracle ends like a scan that found nothing.  In
    install mode [npm install] is started with the arguments as typed, and
    the run ends as every run that has handed over to npm ends: it returns,
    unless the child closes with 0 and a candidate has a name without
    text. *)
Theorem unflagged_run_goes_on w pkgs scan C vr :
  candidates w pkgs scan C ->
  result (vulnsCheck w C) = Ret vr ->
  truthy (Some vr) && truthy (own vr "results") = false \/
  (exists rs, own vr "results" = Some (JArr rs) /\ foundVulns rs C = []) ->
  selects (trace (Cli.install_action w pkgs scan)) = [] /\
  (if scan then result (Cli.install_action w pkgs scan) = Ret tt
   else closes w pkgs C (result (Cli.install_action w pkgs scan))) /\
  spawns (trace (Cli.install_action w pkgs scan))
  = (if scan then [] else [("npm", "install" :: pkgs)]) /\
  execs (trace (Cli.install_action w pkgs scan))
  = (if scan then [] else map view_cmd pkgs) /\
  (truthy (Some vr) && truthy (own vr "results") = false ->
   In (SpinnerFail ApiError) (trace (Cli.install_action w pkgs scan))) /\
  (truthy (Some vr) && truthy (own vr "results") = true ->
   In (SpinnerSucceed NoKnownVulns) (trace (Cli.install_action w pkgs scan))) /\
  (scan = true ->
   In (ConsoleLog ScanComplete) (trace (Cli.install_action w pkgs scan))).
Proof.
  exact (unflagged_run w pkgs scan C vr).
Qed.

(** A scan without network, and a scan that finds nothing. *)
Lemma unflagged_run_goes_on_witness :
  (result (Cli.install_action offline_world [] true) = Ret tt /\
   In (SpinnerFail ApiError) (trace (Cli.install_action offline_world [] true)) /\
   In (ConsoleLog ScanComplete) (trace (Cli.install_action offline_world [] true))) /\
  (result (Cli.install_action install_fails_world [] true) = Ret tt /\
   In (SpinnerSucceed NoKnownVulns)
      (trace (Cli.install_action install_fails_world [] true)) /\
   spawns (trace (Cli.install_action install_fails_world [] true)) = []).
Proof.
  split.
  - destruct (unflagged_run_goes_on offline_world [] true [left_pad] JNull)
      as (_ & Hr & _ & _ & Hf & _ & Hsc).
    + split; [reflexivity | discriminate].
    + reflexivity.
    + left. reflexivity.
    + split; [exact Hr|]. split; [apply Hf; reflexivity | apply Hsc; reflexivity].
  - destruct (unflagged_run_goes_on install_fails_world [] true [left_pad] all_clean)
      as (_ & Hr & Hp & _ & _ & Hc & _).
    + split; [reflexivity | discriminate].
    + reflexivity.
    + right. exists [JObj []]. split; reflexivity.
    + split; [exact Hr|]. split; [apply Hc; reflexivity | exact Hp].
Defined.

(** X12: the action of [src/index.js] starts npm exactly when nothing is
    flagged, be it that the oracle's answer is unusable or that it flags no
    position; it is [npm install] with the arguments as typed, and the run
    then ends as every run that has handed over to npm ends.  In every
    other run no child process is started and the run ends in
    [process.exit(1)] or dies of a [TypeError]. *)
Theorem index_js_installs_unless_flagged w pkgs C vr :
  index_candidates w pkgs C ->
  result (vulnsCheck w C) = Ret vr ->
  (spawns (trace (IndexJs.install_action w pkgs)) = [("npm", "install" :: pkgs)] <->
   truthy (Some vr) && truthy (own vr "results") = false \/
   (exists rs, own vr "results" = Some (JArr rs) /\ foundVulns rs C = [])) /\
  (spawns (trace (IndexJs.install_action w pkgs)) = [("npm", "install" :: pkgs)] ->
   closes w pkgs C (result (IndexJs.install_action w pkgs))) /\
  (spawns (trace (IndexJs.install_action w pkgs)) <> [("npm", "install" :: pkgs)] ->
   spawns (trace (IndexJs.install_action w pkgs)) = [] /\
   (result (IndexJs.install_action w pkgs) = Exit 1%Z \/
    result (IndexJs.install_action w pkgs) = Throw TypeError)).
Proof.
  intros Hcand Hvr.
  destruct (index_js_run_of_candidates w pkgs C vr Hcand Hvr) as (pre & _ & Hpp & ->).
  destruct (security_check_project vr C) as (_ & Hsp & _).
  destruct (hand_over_project w pkgs (List.length pkgs =? 0)%nat C)
    as (_ & _ & Hhp & _ & Hcl).
  pose proof (security_check_cases vr C) as H. cbv zeta in H.
  destruct H as [(Hf & Hsc) | [(Ht & Hna & Hsc) | [(rs & Hrs & He & Hsc)
                 | (rs & t & Hrs & Hne & _ & [(_ & Hsc) | (_ & Hsc)])]]];
    rewrite Hsc in Hsp |- *; cbn [trace result fst snd] in Hsp |- *.
  - rewrite !spawns_app, Hpp, Hhp. cbn [spawns app].
    split; [split; auto|]. split; [intros _; exact Hcl | intros H; contradiction].
  - rewrite spawns_app, Hpp. cbn [spawns app].
    split; [split; [discriminate|]|].
    + intros [Hf | (rs & Hrs & _)]; [|exfalso; apply (Hna rs Hrs)].
      destruct (own vr "results") as [x|] eqn:E; [|discriminate].
      rewrite (own_some_truthy _ _ _ E), Ht in Hf. discriminate.
    + split; [discriminate | auto].
  - rewrite !spawns_app, Hpp, Hhp. cbn [spawns app].
    split; [split; [|reflexivity]|].
    + intros _. right. exists rs. auto.
    + split; [intros _; exact Hcl | intros H; contradiction].
  - rewrite spawns_app, Hpp, Hsp.
    split; [split; [discriminate|]|].
    + intros [Hf | (rs' & Hrs' & He)].
      * rewrite Hrs, (own_some_truthy _ _ _ Hrs) in Hf. discriminate.
      * rewrite Hrs in Hrs'. injection Hrs' as <-. contradiction.
    + split; [discriminate | auto].
  - rewrite spawns_app, Hpp, Hsp.
    split; [split; [discriminate|]|].
    + intros [Hf | (rs' & Hrs' & He)].
      * rewrite Hrs, (own_some_truthy _ _ _ Hrs) in Hf. discriminate.
      * rewrite Hrs in Hrs'. injection Hrs' as <-. contradiction.
    + split; [discriminate | auto].
Qed.

(** [install left-pad] without network. *)
Lemma index_js_installs_unless_flagged_witness :
  spawns (trace (IndexJs.install_action offline_world ["left-pad"]))
  = [("npm", ["install"; "left-pad"])] /\
  result (IndexJs.install_action offline_world ["left-pad"]) = Ret tt.
Proof.
  destruct (index_js_installs_unless_flagged offline_world ["left-pad"]
              [candidate "left-pad" "1.3.0"] JNull eq_refl eq_refl)
    as (Hiff & Hc & _).
  assert (Hp : spawns (trace (IndexJs.install_action offline_world ["left-pad"]))
               = [("npm", ["install"; "left-pad"])]).
  { apply Hiff. left. reflexivity. }
  split; [exact Hp|].
  apply (closes_returns _ _ _ _ (Hc Hp)). left. constructor; [discriminate | constructor].
Defined.

(** ** Scan mode *)

(** X13: with [--scan] the package arguments play no part: the run is the
    run of a scan without arguments.  A scan never starts a child process,
    never looks a package up in the registry, and runs at most one shell
    command, an [npm uninstall]. *)
Theorem scan_ignores_arguments w pkgs :
  Cli.install_action w pkgs true = Cli.install_action w [] true /\
  spawns (trace (Cli.install_action w pkgs true)) = [] /\
  List.length (execs (trace (Cli.install_action w pkgs true))) <= 1 /\
  (forall cmd,
     In cmd (execs (trace (Cli.install_action w pkgs true))) ->
     exists names, cmd = ("npm uninstall " ++ names)%string).
Proof.
  split; [reflexivity|].
  destruct (install_action_cases w pkgs true)
    as [(_ & _ & Hrun) | (C & pre & vr & t & o & Hpre & Hvr & Hrep & Hrun)];
    rewrite Hrun; clear Hrun.
  - simpl. split; [reflexivity|]. split; [lia|]. intros cmd [].
  - destruct (run_projections w pkgs true C pre t o Hpre) as (_ & He & Hp & _).
    rewrite He, Hp. cbn [app].
    destruct (report_by_prompt w vr C true t o Hrep) as (Hsp & Hcases).
    rewrite Hsp. cbn [app].
    split; [destruct o; reflexivity|].
    destruct Hcases as [(_ & -> & _) | [(_ & -> & _) | [(_ & -> & _)
                       | [(_ & _ & -> & _) | (_ & _ & (names & ->) & _)]]]];
      simpl; (split; [lia|]); intros cmd Hin;
      try (exfalso; exact Hin).
    destruct Hin as [<- | []]. exists names. reflexivity.
Qed.

(** The sample project scanned with arguments on the command line. *)
Lemma scan_ignores_arguments_witness :
  Cli.install_action sample_world ["express"; "lodash"] true
  = Cli.install_action sample_world [] true /\
  execs (trace (Cli.install_action sample_world ["express"; "lodash"] true))
  = ["npm uninstall left-pad"].
Proof.
  split.
  - apply (proj1 (scan_ignores_arguments sample_world ["express"; "lodash"])).
  - reflexivity.
Defined.

(** X14: a scan, or an install without arguments, of a project whose
    package.json is missing or unreadable, or declares nothing in either
    group, stops after "No packages found in package.json or file
    missing.": the oracle is not queried, nothing is reported, no prompt is
    shown, nothing is started, and the action returns normally. *)
Theorem no_candidates_stops w pkgs scan :
  scan = true \/ pkgs = [] ->
  package_json w = None \/
  (exists json, package_json w = Some json /\
                spread_source (own json "dependencies") = [] /\
                spread_source (own json "devDependencies") = []) ->
  Cli.install_action w pkgs scan
  = ([SpinnerStart Preparing; SpinnerText ReadingPackageJson; ReadManifest;
      SpinnerFail NoPackagesFound], Ret tt) /\
  fetches (trace (Cli.install_action w pkgs scan)) = [] /\
  selects (trace (Cli.install_action w pkgs scan)) = [] /\
  spawns (trace (Cli.install_action w pkgs scan)) = [] /\
  exit_status (result (Cli.install_action w pkgs scan)) = Some 0%Z.
Proof.
  intros Hmode Hmanifest.
  assert (HC : extractPkgNames w = ([ReadManifest], Ret [])).
  { unfold extractPkgNames, read_manifest.
    destruct Hmanifest as [-> | (json & -> & Ha & Hb)]; [reflexivity|].
    destruct json; try reflexivity;
      cbn [get bind emit ret catch app]; unfold spread; rewrite Ha, Hb; reflexivity. }
  assert (Hrun : Cli.install_action w pkgs scan
                 = ([SpinnerStart Preparing; SpinnerText ReadingPackageJson; ReadManifest;
                     SpinnerFail NoPackagesFound], Ret tt)).
  { unfold Cli.install_action.
    replace (scan || (List.length pkgs =? 0)%nat) with true
      by (destruct Hmode as [-> | ->]; [reflexivity | destruct scan; reflexivity]).
    rewrite HC. reflexivity. }
  rewrite Hrun. repeat split.
Qed.

(** A scan in a directory without package.json, and a default install of a
    project that declares nothing. *)
Lemma no_candidates_stops_witness :
  (Cli.install_action no_manifest_world ["left-pad"] true
   = ([SpinnerStart Preparing; SpinnerText ReadingPackageJson; ReadManifest;
       SpinnerFail NoPackagesFound], Ret tt) /\
   exit_status (result (Cli.install_action no_manifest_world ["left-pad"] true))
   = Some 0%Z) /\
  spawns (trace (Cli.install_action empty_manifest_world [] false)) = [].
Proof.
  split.
  - destruct (no_candidates_stops no_manifest_world ["left-pad"] true)
      as (Hrun & _ & _ & _ & Hexit).
    + left. reflexivity.
    + left. reflexivity.
    + split; [exact Hrun | exact Hexit].
  - destruct (no_candidates_stops empty_manifest_world [] false)
      as (_ & _ & _ & Hp & _).
    + right. reflexivity.
    + right. exists (JObj [("name", JStr "demo")]). repeat split.
    + exact Hp.
Defined.

(** ** Arguments that do not resolve *)

Lemma all_unresolved w pkgs :
  (forall rawArg, In rawArg pkgs -> npm_view w rawArg = None) ->
  keep_some (map (resolved w) pkgs) = [].
Proof.
  intros Hnone. induction pkgs as [|a rest IH]; [reflexivity|].
  simpl. unfold resolved at 1. rewrite (Hnone a (in_eq _ _)). apply IH.
  intros b Hb. apply Hnone. right. exact Hb.
Qed.

(** X15: in install mode with arguments, the candidates are the arguments
    that resolve, possibly fewer than the arguments, while [npm install]
    gets every argument.  When no argument resolves the batch sent to the
    oracle is empty; if the oracle then answers with an empty [results]
    array the report is "No known vulnerabilities found." and every argument
    is installed, none of them checked.  And one argument for which the
    registry prints JSON without a [version] string (an array, as for a
    range that several versions match) is enough for the oracle not to be
    queried at all: the run reports the API failure and installs every
    argument. *)
Theorem unresolved_arguments_unchecked w pkgs :
  pkgs <> [] ->
  candidates w pkgs false (keep_some (map (resolved w) pkgs)) /\
  List.length (keep_some (map (resolved w) pkgs)) <= List.length pkgs /\
  ((forall rawArg, In rawArg pkgs -> npm_view w rawArg = None) ->
   fetches (trace (Cli.install_action w pkgs false)) = [[]] /\
   (forall vr, result (vulnsCheck w []) = Ret vr ->
               own vr "results" = Some (JArr []) ->
               In (SpinnerSucceed NoKnownVulns) (trace (Cli.install_action w pkgs false)) /\
               selects (trace (Cli.install_action w pkgs false)) = [] /\
               spawns (trace (Cli.install_action w pkgs false))
               = [("npm", "install" :: pkgs)])) /\
  ((exists rawArg info,
      In rawArg pkgs /\ npm_view w rawArg = Some info /\ info <> JNull /\
      forall v, own info "version" <> Some (JStr v)) ->
   fetches (trace (Cli.install_action w pkgs false)) = [] /\
   In (SpinnerFail ApiError) (trace (Cli.install_action w pkgs false)) /\
   selects (trace (Cli.install_action w pkgs false)) = [] /\
   spawns (trace (Cli.install_action w pkgs false)) = [("npm", "install" :: pkgs)]).
Proof.
  intros Hne.
  set (C := keep_some (map (resolved w) pkgs)).
  assert (Hcand : candidates w pkgs false C).
  { unfold candidates. destruct pkgs; [contradiction|]. simpl orb. cbv iota.
    rewrite fetchPackageVersions_run. reflexivity. }
  pose proof (run_fetches w pkgs false C Hcand) as Hfetch.
  split; [exact Hcand|]. split; [|split].
  - unfold C. rewrite <- (length_map (resolved w) pkgs). apply keep_some_length.
  - intros Hnone.
    assert (HC : C = []) by (apply all_unresolved; exact Hnone).
    split; [rewrite Hfetch, HC; reflexivity|].
    intros vr Hvr Hrs. rewrite HC in Hcand.
    destruct (unflagged_run w pkgs false [] vr Hcand Hvr)
      as (Hs & _ & Hp & _ & _ & Hc & _).
    { right. exists []. auto. }
    split; [|auto]. apply Hc. rewrite Hrs, (own_some_truthy _ _ _ Hrs). reflexivity.
  - intros (rawArg & info & Hin & Hview & Hnn & Hver).
    assert (Hq : queries_of C = None).
    { apply queries_of_none.
      exists {| name := own info "name"; version := own info "version" |}.
      split; [|exact Hver].
      apply In_keep_some, in_map_iff. exists rawArg. split; [|exact Hin].
      apply resolved_some. exists info. auto. }
    destruct (vulnsCheck_run w C) as (vr & Hrun & Hnull).
    rewrite (Hnull Hq) in Hrun.
    destruct (unflagged_run w pkgs false C JNull Hcand)
      as (Hs & _ & Hp & _ & Hf & _).
    { rewrite Hrun. reflexivity. }
    { left. reflexivity. }
    rewrite Hfetch, Hq. split; [reflexivity|]. split; [apply Hf; reflexivity | auto].
Qed.

(** [install left-pad] when the registry does not know left-pad, and
    [install lodash@^4.17.20] when the registry answers with an array. *)
Lemma unresolved_arguments_unchecked_witness :
  (fetches (trace (Cli.install_action unknown_package_world ["left-pad"] false)) = [[]] /\
   In (SpinnerSucceed NoKnownVulns)
      (trace (Cli.install_action unknown_package_world ["left-pad"] false)) /\
   spawns (trace (Cli.install_action unknown_package_world ["left-pad"] false))
   = [("npm", ["install"; "left-pad"])]) /\
  (fetches (trace (Cli.install_action range_world ["lodash@^4.17.20"] false)) = [] /\
   In (SpinnerFail ApiError)
      (trace (Cli.install_action range_world ["lodash@^4.17.20"] false)) /\
   spawns (trace (Cli.install_action range_world ["lodash@^4.17.20"] false))
   = [("npm", ["install"; "lodash@^4.17.20"])]).
Proof.
  split.
  - destruct (unresolved_arguments_unchecked unknown_package_world ["left-pad"])
      as (_ & _ & Hnone & _); [discriminate|].
    destruct Hnone as (Hf & Hrun); [reflexivity|].
    destruct (Hrun (JObj [("results", JArr [])]) eq_refl eq_refl) as (Hc & _ & Hp).
    split; [exact Hf|]. split; [exact Hc | exact Hp].
  - destruct (unresolved_arguments_unchecked range_world ["lodash@^4.17.20"])
      as (_ & _ & _ & Hodd); [discriminate|].
    destruct Hodd as (Hf & Ha & _ & Hp).
    { exists "lodash@^4.17.20".
      exists (JArr [JObj [("name", JStr "lodash"); ("version", JStr "4.17.20")];
                    JObj [("name", JStr "lodash"); ("version", JStr "4.17.21")]]).
      split; [left; reflexivity|]. split; [reflexivity|].
      split; discriminate. }
    split; [exact Hf|]. split; [exact Ha | exact Hp].
Defined.

(** ** How much the stripping removes *)

Lemma replace_first_length c s :
  String.length (replace_first (String c "") s) + (if occurs c s then 1 else 0)
  = String.length s.
Proof.
  induction s as [|c' s' IH]; rewrite replace_first_char; [reflexivity|].
  cbn [occurs String.length]. destruct (Ascii.eqb c c'); simpl; lia.
Qed.

Lemma occurs_replace_first c d s :
  Ascii.eqb d c = false ->
  occurs d (replace_first (String c "") s) = occurs d s.
Proof.
  intros Hdc. induction s as [|c' s' IH]; rewrite replace_first_char; [reflexivity|].
  destruct (Ascii.eqb c c') eqn:E; simpl.
  - apply Ascii.eqb_eq in E as <-. rewrite Hdc. reflexivity.
  - rewrite IH. reflexivity.
Qed.

(** X16: the version sent to the oracle is shorter than the declared one
    by one character for a [^] that occurs in it, plus one for a [~] that
    occurs in it, and by no more: of several carets, or several tildes, one
    is removed and the others are sent. *)
Theorem strip_range_length v :
  String.length (strip_range v)
  + (if occurs "^" v then 1 else 0) + (if occurs "~" v then 1 else 0)
  = String.length v /\
  (occurs "^" v = false -> occurs "~" v = false -> strip_range v = v) /\
  (forall a b c : string,
     v = (a ++ String "^" (b ++ String "^" c))%string ->
     occurs "^" (strip_range v) = true).
Proof.
  unfold strip_range. split; [|split].
  - pose proof (replace_first_length "~" (replace_first "^" v)) as H1.
    pose proof (replace_first_length "^" v) as H2.
    rewrite (occurs_replace_first "^" "~" v eq_refl) in H1. lia.
  - intros Hc Ht. rewrite (replace_first_absent _ _ Hc). apply replace_first_absent, Ht.
  - intros a b c ->.
    rewrite (occurs_replace_first "~" "^") by reflexivity.
    induction a as [|x a IH]; cbn [append].
    + rewrite replace_first_head.
      induction b as [|y b IHb]; cbn [append occurs]; [reflexivity|].
      rewrite IHb. apply orb_true_r.
    + rewrite replace_first_char.
      destruct (Ascii.eqb "^" x) eqn:E.
      * clear IH. induction a as [|z a IHa]; cbn [append occurs]; [reflexivity|].
        rewrite IHa. apply orb_true_r.
      * cbn [occurs]. rewrite IH. apply orb_true_r.
Qed.

(** A range with two carets. *)
Lemma strip_range_length_witness :
  occurs "^" (strip_range "^1.0.0 || ^2.0.0") = true /\
  strip_range "1.3.0" = "1.3.0".
Proof.
  split.
  - apply (proj2 (proj2 (strip_range_length "^1.0.0 || ^2.0.0")) "" "1.0.0 || " "2.0.0").
    reflexivity.
  - apply (proj1 (proj2 (strip_range_length "1.3.0"))); reflexivity.
Defined.

(** ** Flagged results that cannot be listed *)

(** X17: when a flagged result has a [vulns] that is not an array, or an
    array with a [null] record, the two entry points part.  The report of
    [src/unnamed/part_000] dies of a [TypeError] while it lists the records:
    no prompt is shown and nothing is installed.  [src/index.js] only reads
    [vulns.length]: it starts nothing, and ends in [process.exit(1)] when the
    results are no longer than the candidate list and every name and every
    [length] it prints has a text; a [length] without text at that position
    makes it die of a [TypeError] instead. *)
Theorem unreadable_records w pkgs C vr rs i r :
  result (vulnsCheck w C) = Ret vr ->
  own vr "results" = Some (JArr rs) ->
  nth_error rs i = Some r ->
  truthy (own r "vulns") = true ->
  (forall items, own r "vulns" = Some (JArr items) -> In JNull items) ->
  (forall scan,
     candidates w pkgs scan C ->
     result (Cli.install_action w pkgs scan) = Throw TypeError /\
     selects (trace (Cli.install_action w pkgs scan)) = [] /\
     spawns (trace (Cli.install_action w pkgs scan)) = []) /\
  (index_candidates w pkgs C ->
   spawns (trace (IndexJs.install_action w pkgs)) = [] /\
   (result (IndexJs.install_action w pkgs) = Exit 1%Z \/
    result (IndexJs.install_action w pkgs) = Throw TypeError) /\
   (List.length rs <= List.length C -> Forall named C -> Forall counted rs ->
    result (IndexJs.install_action w pkgs) = Exit 1%Z) /\
   (forall ms, own r "vulns" = Some (JObj ms) -> text_of (assoc "length" ms) = None ->
               result (IndexJs.install_action w pkgs) = Throw TypeError)).
Proof.
  intros Hvr Hrs Hi Ht Hbad.
  assert (Hin : In (attach C i r) (foundVulns rs C)).
  { apply In_foundVulns. exists i, r. auto. }
  split.
  - intros scan Hcand.
    assert (Hone : result (Cli.render_entry (attach C i r)) <> Ret tt).
    { unfold Cli.render_entry, originalPkg_name, attach. cbn [originalPkg vulns].
      destruct (nth_error C i) as [p|]; [|discriminate].
      rewrite bind_ret_l.
      destruct (text_of (name p)) as [s|] eqn:Es.
      - rewrite (toString_run _ _ Es), bind_ret_l, bind_emit. cbn [result snd].
        destruct (own r "vulns") as [[| | | |items|]|] eqn:Ev; try discriminate.
        cbn [as_array]. rewrite bind_ret_l.
        apply (forEach_not_ret Cli.render_vuln items JNull (Hbad items eq_refl)).
        discriminate.
      - rewrite (toString_throws _ Es). discriminate. }
    pose proof (loop_throws _ _ _ quiet_render_entry Hin Hone) as Hthrow.
    destruct (report_render_throws w vr C scan rs Hrs Hthrow) as (t & Hlog & Hrep).
    destruct (run_of_candidates w pkgs scan C vr Hcand Hvr) as (pre & Hpre & Hrun).
    rewrite Hrep in Hrun. cbn [trace result fst snd] in Hrun.
    destruct (run_projections w pkgs scan C pre
                (SpinnerWarn (FoundVulns (List.length (foundVulns rs C))) :: t)
                (Throw TypeError) Hpre) as (Hs & _ & Hp & _).
    rewrite <- Hrun in Hs, Hp.
    destruct (logs_project _ Hlog) as (_ & Hls & Hlp & _).
    rewrite Hs, Hp. cbn [selects spawns after_report throw trace fst app].
    rewrite Hls, Hlp. split; [rewrite Hrun; reflexivity | auto].
  - intros Hcand.
    assert (Hne : foundVulns rs C <> []).
    { intros E. rewrite E in Hin. destruct Hin. }
    destruct (index_js_abort w pkgs C vr rs Hcand Hvr Hrs Hne)
      as (Hno & Hor & Hexit & Hthrow).
    split; [|split; [exact Hor|split]].
    + destruct (spawns (trace (IndexJs.install_action w pkgs))) as [|[cmd args] rest] eqn:E;
        [reflexivity|].
      exfalso. apply (Hno cmd args). apply In_spawn. rewrite E. left. reflexivity.
    + intros Hlen Hnamed Hcounted. apply Hexit. apply report_ret; assumption.
    + intros ms Hms Hnone. apply Hthrow. apply (forEach_not_ret _ _ _ Hin).
      unfold IndexJs.report_entry, originalPkg_name, attach. cbn [originalPkg vulns].
      destruct (nth_error C i) as [p|]; [|discriminate].
      rewrite bind_ret_l.
      destruct (text_of (name p)) as [s|] eqn:Es.
      * rewrite (toString_run _ _ Es), bind_ret_l, Hms. cbn [IndexJs.get_length own].
        rewrite bind_ret_l, (toString_throws _ Hnone). discriminate.
      * rewrite (toString_throws _ Es). discriminate.
Qed.

(** An oracle whose [vulns] for left-pad is the string "many", and one
    whose [vulns] has a [length] without text. *)
Lemma unreadable_records_witness :
  (result (Cli.install_action odd_vulns_world [] false) = Throw TypeError /\
   selects (trace (Cli.install_action odd_vulns_world [] false)) = [] /\
   result (IndexJs.install_action odd_vulns_world []) = Exit 1%Z) /\
  result (IndexJs.install_action uncounted_world []) = Throw TypeError.
Proof.
  split.
  - assert (Hbad : forall items,
               own (JObj [("vulns", JStr "many")]) "vulns" = Some (JArr items) ->
               In JNull items) by discriminate.
    destruct (unreadable_records odd_vulns_world [] [left_pad]
                (JObj [("results", JArr [JObj [("vulns", JStr "many")]])])
                [JObj [("vulns", JStr "many")]] 0 (JObj [("vulns", JStr "many")])
                eq_refl eq_refl eq_refl eq_refl Hbad) as (Hcli & Hindex).
    destruct (Hcli false) as (Hr & Hs & _).
    { split; [reflexivity | discriminate]. }
    destruct (Hindex eq_refl) as (_ & _ & Hexit & _).
    split; [exact Hr|]. split; [exact Hs|].
    apply Hexit.
    + apply le_n.
    + constructor; [discriminate | constructor].
    + constructor; [intros ms E; discriminate E | constructor].
  - assert (Hbad : forall items,
               own (JObj [("vulns", JObj [("length", JObj [("toString", JNum 1)])])]) "vulns"
               = Some (JArr items) -> In JNull items) by discriminate.
    destruct (unreadable_records uncounted_world [] [left_pad]
                (JObj [("results",
                        JArr [JObj [("vulns",
                                     JObj [("length", JObj [("toString", JNum 1)])])]])])
                [JObj [("vulns", JObj [("length", JObj [("toString", JNum 1)])])]] 0
                (JObj [("vulns", JObj [("length", JObj [("toString", JNum 1)])])])
                eq_refl eq_refl eq_refl eq_refl Hbad) as (_ & Hindex).
    destruct (Hindex eq_refl) as (_ & _ & _ & Hthrow).
    apply (Hthrow [("length", JObj [("toString", JNum 1)])]); reflexivity.
Defined.

(** ** The command that uninstalls *)

(** The candidates read from package.json have strings for names. *)
Lemma manifest_names w C :
  result (extractPkgNames w) = Ret C ->
  Forall (fun p => exists s, name p = Some (JStr s)) C.
Proof.
  unfold extractPkgNames, read_manifest.
  destruct (package_json w) as [json|]; [|intros [= <-]; constructor].
  destruct json; cbn [get bind emit ret catch throw app result snd];
    intros [= <-]; try constructor;
    apply Forall_forall; intros p Hp; apply in_map_iff in Hp as (kv & <- & _);
    exists (fst kv); reflexivity.
Qed.

Lemma mapM_names_Forall2 found pkgNames :
  mapM originalPkg_name found = ([], Ret pkgNames) ->
  Forall2 (fun v n => exists p, originalPkg v = Some p /\ name p = n) found pkgNames.
Proof.
  revert pkgNames. induction found as [|v rest IH]; intros names H.
  - simpl in H. injection H as <-. constructor.
  - cbn [mapM] in H. unfold originalPkg_name at 1 in H.
    destruct (originalPkg v) as [p|] eqn:Ep; [|discriminate].
    rewrite bind_ret_l in H.
    destruct (mapM originalPkg_name rest) as [t [names'|c|e]] eqn:Er;
      simpl in H; try discriminate.
    injection H as Ht <-. rewrite app_nil_r in Ht. subst t.
    constructor; [exists p; auto | apply IH; reflexivity].
Qed.

Lemma Forall2_map_l {A B D} (f : A -> B) (R : B -> D -> Prop) (xs : list A) (ys : list D) :
  Forall2 R (map f xs) ys -> Forall2 (fun x y => R (f x) y) xs ys.
Proof.
  revert ys. induction xs as [|x rest IH]; intros ys H; inversion H; subst; constructor; auto.
Qed.

(** The names handed to [uninstallPackages], position by position. *)
Lemma flagged_names_in_order rs C pkgNames :
  mapM originalPkg_name (foundVulns rs C) = ([], Ret pkgNames) ->
  Forall2 (fun i n => exists p, nth_error C i = Some p /\ name p = n)
          (flagged_positions rs) pkgNames.
Proof.
  intros H. apply mapM_names_Forall2 in H. rewrite foundVulns_positions in H.
  apply Forall2_map_l in H. exact H.
Qed.

Lemma join_strings (C : list PackageRef) (ps : list nat) (pkgNames : list jsval) :
  Forall (fun p => exists s, name p = Some (JStr s)) C ->
  Forall2 (fun i n => exists p, nth_error C i = Some p /\ name p = n) ps pkgNames ->
  exists ss,
    Forall2 (fun i s => exists p, nth_error C i = Some p /\ name p = Some (JStr s)) ps ss /\
    forall sep, join_text sep pkgNames = Some (String.concat sep ss).
Proof.
  intros HC H.
  assert (Hss : exists ss,
             Forall2 (fun i s => exists p, nth_error C i = Some p /\ name p = Some (JStr s))
                     ps ss /\
             join_items pkgNames = Some ss).
  { induction H as [|i n ps' names' (p & Hp & Hn) Hrest (ss & Hss & Hj)].
    - exists []. split; [constructor | reflexivity].
    - rewrite Forall_forall in HC. destruct (HC p (nth_error_In _ _ Hp)) as (s & Hs).
      exists (s :: ss). split.
      + constructor; [exists p; auto | exact Hss].
      + cbn [join_items]. rewrite <- Hn, Hs, Hj. reflexivity. }
  destruct Hss as (ss & Hss & Hj). exists ss. split; [exact Hss|].
  intros sep. unfold join_text. rewrite Hj. reflexivity.
Qed.

(** X18: when the operator of a scan answers "uninstall", the one shell
    command of the run is [npm uninstall] followed by the names, separated by
    spaces, of the candidates at the positions of [results] whose [vulns] is
    truthy, in increasing order of position, each position once; the
    candidates are the entries of package.json.  The run ends in
    [process.exit(0)] and starts no child process.  The prompt is reached
    with that answer whenever the oracle's results have the shape the OSV
    endpoint sends, are no longer than the candidate list and flag a
    position, and the operator takes the first choice. *)
Theorem scan_uninstall_command w pkgs :
  (forall scan,
     In (Select ScanPrompt (Some "uninstall")) (trace (Cli.install_action w pkgs scan)) ->
     scan = true /\
     exists C vr rs ss,
       result (extractPkgNames w) = Ret C /\
       result (vulnsCheck w C) = Ret vr /\
       own vr "results" = Some (JArr rs) /\
       Forall2 (fun i s => exists p, nth_error C i = Some p /\ name p = Some (JStr s))
               (flagged_positions rs) ss /\
       execs (trace (Cli.install_action w pkgs scan))
       = [("npm uninstall " ++ String.concat " " ss)%string] /\
       result (Cli.install_action w pkgs scan) = Exit 0%Z /\
       spawns (trace (Cli.install_action w pkgs scan)) = []) /\
  (forall C vr rs,
     candidates w pkgs true C ->
     result (vulnsCheck w C) = Ret vr ->
     own vr "results" = Some (JArr rs) ->
     foundVulns rs C <> [] ->
     List.length rs <= List.length C ->
     forallb osv_shaped rs = true ->
     operator w ScanPrompt = Some First ->
     In (Select ScanPrompt (Some "uninstall")) (trace (Cli.install_action w pkgs true))).
Proof.
  split.
  - intros scan Hsel. apply In_select in Hsel.
    destruct (install_action_ending w pkgs scan)
      as [Hs _ | p Hs _ _ | p Hs _ | _ Hs _ _
          | C vr rs pkgNames names shown Hscan Hs Hp Hr HC Hvr Hrs Hn Hj _ He _];
      rewrite Hs in Hsel; simpl in Hsel;
      try contradiction; try (destruct Hsel as [H|[]]; discriminate H).
    split; [exact Hscan|].
    destruct (join_strings C _ _ (manifest_names w C HC) (flagged_names_in_order _ _ _ Hn))
      as (ss & Hss & Hjoin).
    rewrite (Hjoin " ") in Hj. injection Hj as <-.
    exists C, vr, rs, ss. repeat split; assumption.
  - intros C vr rs Hcand Hvr Hrs Hfound Hlen Hshape Hop.
    apply (first_choice_selected w pkgs true C vr rs Hcand Hvr Hrs Hfound); [|exact Hop].
    apply render_ret; [exact Hlen | exact Hshape |].
    assert (HC : result (extractPkgNames w) = Ret C) by apply Hcand.
    apply (Forall_impl _ (P := fun p => exists s, name p = Some (JStr s)));
      [|exact (manifest_names w C HC)].
    intros p (s & Hs). unfold named. rewrite Hs. discriminate.
Qed.

(** The sample project scanned, and a project with two packages of which
    the oracle flags the first only. *)
Lemma scan_uninstall_command_witness :
  execs (trace (Cli.install_action sample_world [] true)) = ["npm uninstall left-pad"] /\
  result (Cli.install_action sample_world [] true) = Exit 0%Z /\
  spawns (trace (Cli.install_action sample_world [] true)) = [].
Proof.
  assert (Hsel : In (Select ScanPrompt (Some "uninstall"))
                    (trace (Cli.install_action sample_world [] true))).
  { apply (proj2 (scan_uninstall_command sample_world [])
             [left_pad] one_flagged [JObj [("vulns", JArr [high_vuln])]]).
    - split; [reflexivity | discriminate].
    - reflexivity.
    - reflexivity.
    - discriminate.
    - apply le_n.
    - reflexivity.
    - reflexivity. }
  destruct (proj1 (scan_uninstall_command sample_world []) true Hsel)
    as (_ & C & vr & rs & ss & HC & Hvr & Hrs & Hss & He & Hr & Hp).
  split; [|split; [exact Hr | exact Hp]].
  reflexivity.
Defined.

(** ** The flagged list, position by position *)

(** X19: for a candidate list and a results array of the same length, the
    flagged list is, in order, the list of the positions whose [vulns] is
    truthy, each paired with the candidate at the same position: a position
    without [vulns] is not in it, a position whose [vulns] is an array is in
    it, be the array empty.  What is printed for a flagged position starts
    with the text of the name of the candidate at that position, in the
    report of [src/unnamed/part_000] (the package header) and in the one of
    [src/index.js] (the line with the number of issues); a name without text
    ends both with a [TypeError] before anything is printed. *)
Theorem flagged_list_by_position C rs :
  List.length rs = List.length C ->
  foundVulns rs C = map (fun i => attach C i (nth i rs JNull)) (flagged_positions rs) /\
  (forall i, In i (flagged_positions rs) <->
             exists r, nth_error rs i = Some r /\ truthy (own r "vulns") = true) /\
  (forall i r, nth_error rs i = Some r -> own r "vulns" = None ->
               ~ In i (flagged_positions rs)) /\
  (forall i r items, nth_error rs i = Some r -> own r "vulns" = Some (JArr items) ->
                     In i (flagged_positions rs)) /\
  (forall i, In i (flagged_positions rs) ->
             exists p,
               nth_error C i = Some p /\
               (forall s, text_of (name p) = Some s ->
                  (exists rest,
                     trace (Cli.render_entry (attach C i (nth i rs JNull)))
                     = ConsoleLog (PackageHeader s) :: rest) /\
                  ((exists n,
                      IndexJs.report_entry (attach C i (nth i rs JNull))
                      = ([ConsoleLog (IssueCount s n)], Ret tt)) \/
                   IndexJs.report_entry (attach C i (nth i rs JNull))
                   = ([], Throw TypeError))) /\
               (text_of (name p) = None ->
                Cli.render_entry (attach C i (nth i rs JNull)) = ([], Throw TypeError) /\
                IndexJs.report_entry (attach C i (nth i rs JNull)) = ([], Throw TypeError))).
Proof.
  intros Hlen. split; [apply foundVulns_positions|].
  split; [apply In_flagged_positions|]. split; [|split].
  - intros i r Hi Hnone Hin. apply In_flagged_positions in Hin as (r' & Hi' & Ht).
    rewrite Hi in Hi'. injection Hi' as <-. rewrite Hnone in Ht. discriminate.
  - intros i r items Hi Harr. apply In_flagged_positions. exists r.
    rewrite Harr. auto.
  - intros i Hin. apply In_flagged_positions in Hin as (r & Hi & Ht).
    assert (Hlt : i < List.length C).
    { rewrite <- Hlen. apply nth_error_Some. congruence. }
    destruct (nth_error C i) as [p|] eqn:Ep;
      [|apply nth_error_None in Ep; lia].
    rewrite (nth_error_nth _ _ JNull Hi).
    exists p. split; [reflexivity|].
    unfold Cli.render_entry, IndexJs.report_entry, originalPkg_name, attach.
    cbn [originalPkg vulns]. rewrite Ep, !bind_ret_l. split.
    + intros s Hs. rewrite (toString_run _ _ Hs), !bind_ret_l, bind_emit. split.
      * eexists. reflexivity.
      * destruct (own r "vulns") as [[| | | | |ms]|] eqn:Ev; try discriminate;
          cbn [IndexJs.get_length]; rewrite bind_ret_l;
          try (left; eexists; reflexivity).
        destruct (text_of (own (JObj ms) "length")) as [n|] eqn:En.
        -- left. exists n. rewrite (toString_run _ _ En), bind_ret_l. reflexivity.
        -- right. rewrite (toString_throws _ En). reflexivity.
    + intros Hnone. rewrite (toString_throws _ Hnone). split; reflexivity.
Qed.

(** Two candidates, of which the oracle flags the first with one record
    and the second with an empty [vulns]. *)
Lemma flagged_list_by_position_witness :
  foundVulns [JObj [("vulns", JArr [high_vuln])]; JObj [("vulns", JArr [])]]
             [candidate "alpha" "1.0.0"; candidate "delta" "2.0.0"]
  = [{| vulns := Some (JArr [high_vuln]); originalPkg := Some (candidate "alpha" "1.0.0") |};
     {| vulns := Some (JArr []); originalPkg := Some (candidate "delta" "2.0.0") |}] /\
  In 1 (flagged_positions [JObj [("vulns", JArr [high_vuln])]; JObj [("vulns", JArr [])]]).
Proof.
  destruct (flagged_list_by_position
              [candidate "alpha" "1.0.0"; candidate "delta" "2.0.0"]
              [JObj [("vulns", JArr [high_vuln])]; JObj [("vulns", JArr [])]] eq_refl)
    as (Hlist & _ & _ & Harr & _).
  split.
  - rewrite Hlist. reflexivity.
  - apply (Harr 1 (JObj [("vulns", JArr [])]) []); reflexivity.
Defined.
